(** * scrapezillow: a shallow embedding of [scrapezillow/scraper.py]

    The scraper turns one listing page into a dictionary.  The embedding
    follows the Python source function by function and keeps its names.

    Modelling conventions.
    - Text is a Rocq [string]; character classes ([\d], [\w]), case
      mapping and white space take their ASCII meaning.
    - The standard library is Python 3's.  [re] is a backtracking matcher
      over the constructs the scraper's patterns use, [decimal] is
      arithmetic on coefficients and exponents under the default context,
      a [datetime] is a count of microseconds.
    - A raised exception is a value of [exn]; a pure extractor returns a
      [result], a function that talks to the network or to the logger
      runs in the monad [M], whose state is the trace of those events.
    - The HTML parser (BeautifulSoup) is an external capability: a parsed
      document is represented by the answers it gives to the queries the
      scraper asks ([Soup]), a parsed history fragment by [Fragment].
    - The module [scrapezillow/constants.py] is not part of the sources at
      hand: its constants are parameters of the development. *)

From Stdlib Require Import QArith ZArith Ascii String List Lia Bool.
From stdpp Require Import base option strings list gmap pretty.

Set Default Proof Using "Type".
Local Open Scope Z_scope.

(** ** Exceptions and results *)

(** The exception classes the scraper can raise or meet.  [PyException]
    is the bare [Exception] raised by [get_raw_html], [RequestException]
    stands for what the HTTP client raises; the other built-in ones arise
    from indexing, attribute access on [None], conversions and decimal
    arithmetic. *)
Inductive exn : Type :=
| NullResultException
| ValueError
| IndexError
| AttributeError
| KeyError
| OverflowError
| InvalidOperation
| DecimalOverflow
| DivisionByZero
| PyException
| RequestException.

#[global] Instance exn_eq_dec : EqDecision exn.
Proof. solve_decision. Defined.

Inductive result (A : Type) : Type :=
| Ok (a : A)
| Raise (e : exn).
Arguments Ok {A} a.
Arguments Raise {A} e.

#[global] Instance result_ret : MRet result := fun A a => Ok a.
#[global] Instance result_bind : MBind result := fun A B f r =>
  match r with
  | Ok a => f a
  | Raise e => Raise e
  end.

#[global] Instance result_fmap : FMap result := fun A B f r =>
  match r with
  | Ok a => Ok (f a)
  | Raise e => Raise e
  end.

(** [l[i]] for a non-negative literal index: [IndexError] when out of range. *)
Definition getitem {A} (l : list A) (i : nat) : result A :=
  match l !! i with
  | Some a => Ok a
  | None => Raise IndexError
  end.

(** [l[-k]] for a literal [k >= 1]. *)
Definition getitem_neg {A} (l : list A) (k : nat) : result A :=
  if decide (k ≤ length l)%nat then getitem l (length l - k) else Raise IndexError.

(** ** Python string operations *)

Module Str.

Definition of_list (l : list ascii) : string := string_of_list_ascii l.
Definition to_list (s : string) : list ascii := list_ascii_of_string s.

(** [sub in s] *)
Fixpoint contains (sub s : string) : bool :=
  String.prefix sub s ||
  match s with
  | EmptyString => false
  | String _ s' => contains sub s'
  end.

(** [s.find(sub)]: the index of the first occurrence. *)
Fixpoint find (sub s : string) : option nat :=
  if String.prefix sub s then Some 0%nat
  else match s with
       | EmptyString => None
       | String _ s' => S <$> find sub s'
       end.

(** [s.index(sub)] raises [ValueError] when [sub] does not occur. *)
Definition index (sub s : string) : result nat :=
  match find sub s with
  | Some i => Ok i
  | None => Raise ValueError
  end.

(** [s[i:]] and [s[:i]] for [i >= 0]. *)
Fixpoint drop (i : nat) (s : string) : string :=
  match i, s with
  | S i', String _ s' => drop i' s'
  | _, _ => s
  end.

Fixpoint take (i : nat) (s : string) : string :=
  match i, s with
  | S i', String c s' => String c (take i' s')
  | _, _ => EmptyString
  end.

(** [s.split(sep)] for a one-character separator. *)
Fixpoint split_go (sep : ascii) (cur : string) (s : string) : list string :=
  match s with
  | EmptyString => [cur]
  | String c s' =>
      if Ascii.eqb c sep then cur :: split_go sep EmptyString s'
      else split_go sep (cur +:+ String c EmptyString) s'
  end.

Definition split (sep : ascii) (s : string) : list string :=
  split_go sep EmptyString s.

(** [s.replace(old, new)] for a non-empty [old]; [skip] counts the
    characters of a matched occurrence still to be passed over. *)
Fixpoint replace_go (old new : string) (skip : nat) (s : string) : string :=
  match s with
  | EmptyString => EmptyString
  | String c s' =>
      match skip with
      | S k => replace_go old new k s'
      | O =>
          if String.prefix old s
          then new +:+ replace_go old new (String.length old - 1) s'
          else String c (replace_go old new 0 s')
      end
  end.

Definition replace (old new s : string) : string := replace_go old new 0 s.

Definition is_upper (c : ascii) : bool :=
  let n := nat_of_ascii c in (65 <=? n)%nat && (n <=? 90)%nat.

Definition lower_char (c : ascii) : ascii :=
  if is_upper c then ascii_of_nat (nat_of_ascii c + 32) else c.

(** [s.lower()] *)
Fixpoint lower (s : string) : string :=
  match s with
  | EmptyString => EmptyString
  | String c s' => String (lower_char c) (lower s')
  end.

(** White space as [str.strip()] sees it. *)
Definition is_space (c : ascii) : bool :=
  let n := nat_of_ascii c in
  ((9 <=? n)%nat && (n <=? 13)%nat) || ((28 <=? n)%nat && (n <=? 32)%nat).

Fixpoint lstrip_by (p : ascii → bool) (s : string) : string :=
  match s with
  | EmptyString => EmptyString
  | String c s' => if p c then lstrip_by p s' else s
  end.

Definition rev (s : string) : string := of_list (List.rev (to_list s)).

Definition rstrip_by (p : ascii → bool) (s : string) : string :=
  rev (lstrip_by p (rev s)).

Definition strip_by (p : ascii → bool) (s : string) : string :=
  rstrip_by p (lstrip_by p s).

(** [s.strip()] *)
Definition strip (s : string) : string := strip_by is_space s.

(** [s.strip(c)] for a one-character argument. *)
Definition strip_char (c : ascii) (s : string) : string :=
  strip_by (Ascii.eqb c) s.

(** [''.join(l)] *)
Definition join (l : list string) : string := fold_right String.append EmptyString l.

(** [''.join([a for a in s if p a])] *)
Fixpoint filter (p : ascii → bool) (s : string) : string :=
  match s with
  | EmptyString => EmptyString
  | String c s' => if p c then String c (filter p s') else filter p s'
  end.

(** [x in l] for a tuple or list of strings. *)
Definition mem (x : string) (l : list string) : bool :=
  bool_decide (x ∈ l).

End Str.

(** ** Regular expressions

    A backtracking matcher in the style of Python's [re]: alternatives
    are tried left to right, repetition is greedy, a capturing group
    remembers the text of its last iteration.  Only the constructs the
    scraper's patterns use are present. *)

Module Re.

Inductive regex : Type :=
| Eps
| Chr (p : ascii → bool)
| Cat (r1 r2 : regex)
| Alt (r1 r2 : regex)
| Star (r : regex)
| Grp (n : nat) (r : regex).

(** Captures, most recent first. *)
Definition caps : Type := list (nat * list ascii).

Definition consumed (s rest : list ascii) : list ascii :=
  take (length s - length rest)%nat s.

Section Run.
Context {X : Type}.

Fixpoint run (r : regex) (s : list ascii) (c : caps)
    (k : list ascii → caps → option X) {struct r} : option X :=
  match r with
  | Eps => k s c
  | Chr p =>
      match s with
      | a :: rest => if p a then k rest c else None
      | [] => None
      end
  | Cat r1 r2 => run r1 s c (fun rest c' => run r2 rest c' k)
  | Alt r1 r2 =>
      match run r1 s c k with
      | Some x => Some x
      | None => run r2 s c k
      end
  | Star r' =>
      (fix loop (fuel : nat) (s : list ascii) (c : caps) {struct fuel} : option X :=
         match fuel with
         | O => k s c
         | S fuel' =>
             match run r' s c (fun rest c' =>
                     if (length rest <? length s)%nat then loop fuel' rest c' else None) with
             | Some x => Some x
             | None => k s c
             end
         end) (length s) s c
  | Grp n r' => run r' s c (fun rest c' => k rest ((n, consumed s rest) :: c'))
  end.
End Run.

(** Derived forms. *)
Definition Plus (r : regex) : regex := Cat r (Star r).
Definition Opt (r : regex) : regex := Alt r Eps.
Definition chr (a : ascii) : regex := Chr (Ascii.eqb a).

Fixpoint lit (s : string) : regex :=
  match s with
  | EmptyString => Eps
  | String a s' => Cat (chr a) (lit s')
  end.

Fixpoint alts (l : list string) : regex :=
  match l with
  | [] => Chr (fun _ => false)
  | [s] => lit s
  | s :: l' => Alt (lit s) (alts l')
  end.

Fixpoint times (n : nat) (r : regex) : regex :=
  match n with
  | O => Eps
  | S n' => Cat r (times n' r)
  end.

(** Character classes. *)
Definition digit (a : ascii) : bool :=
  let n := nat_of_ascii a in (48 <=? n)%nat && (n <=? 57)%nat.
Definition upper (a : ascii) : bool := Str.is_upper a.
Definition lower (a : ascii) : bool :=
  let n := nat_of_ascii a in (97 <=? n)%nat && (n <=? 122)%nat.
Definition word (a : ascii) : bool :=
  digit a || upper a || lower a || Ascii.eqb a "_".
Definition any (a : ascii) : bool := negb (Ascii.eqb a "010").
Definition one_of (s : string) (a : ascii) : bool :=
  existsb (Ascii.eqb a) (Str.to_list s).

(** A match: the text before it, the matched text, the captures, the rest. *)
Record rmatch : Type := {
  m_pre : list ascii;
  m_text : list ascii;
  m_caps : caps;
  m_rest : list ascii
}.

Definition match_here (r : regex) (s : list ascii) : option (list ascii * caps) :=
  run r s [] (fun rest c => Some (rest, c)).

Fixpoint search_go (r : regex) (pre : list ascii) (s : list ascii) : option rmatch :=
  match match_here r s with
  | Some (rest, c) =>
      Some {| m_pre := List.rev pre; m_text := consumed s rest; m_caps := c; m_rest := rest |}
  | None =>
      match s with
      | [] => None
      | a :: s' => search_go r (a :: pre) s'
      end
  end.

(** [m.group(n)]: the empty string stands for a group that did not take part. *)
Definition group_of (c : caps) (n : nat) : string :=
  match List.find (fun p => Nat.eqb (fst p) n) c with
  | Some (_, t) => Str.of_list t
  | None => EmptyString
  end.

Definition group (m : rmatch) (n : nat) : string :=
  match n with
  | O => Str.of_list (m_text m)
  | _ => group_of (m_caps m) n
  end.

(** [re.search(r, s)] *)
Definition search (r : regex) (s : string) : option rmatch :=
  search_go r [] (Str.to_list s).

(** All non-overlapping matches, left to right; [pre] is the text passed
    over since the previous match.  After an empty match the search
    resumes one character further. *)
Fixpoint matches_go (fuel : nat) (r : regex) (pre : list ascii) (s : list ascii)
    : list rmatch :=
  match fuel with
  | O => []
  | S fuel' =>
      match search_go r pre s with
      | None => []
      | Some m =>
          m :: match m_text m, m_rest m with
               | [], [] => []
               | [], a :: rest' => matches_go fuel' r [a] rest'
               | _ :: _, rest => matches_go fuel' r [] rest
               end
      end
  end.

Definition matches (r : regex) (s : string) : list rmatch :=
  matches_go (S (String.length s)) r [] (Str.to_list s).

Fixpoint ngroups (r : regex) : nat :=
  match r with
  | Eps | Chr _ => O
  | Cat r1 r2 | Alt r1 r2 => (ngroups r1 + ngroups r2)%nat
  | Star r' => ngroups r'
  | Grp _ r' => S (ngroups r')
  end.

(** [re.findall(r, s)] for a pattern with at most one group: the list of
    the group's texts, or of the whole matches when there is no group. *)
Definition findall (r : regex) (s : string) : list string :=
  (fun m => group m (Nat.min 1 (ngroups r))) <$> matches r s.

(** [re.findall(r, s)] for a pattern with several groups: one tuple of
    group texts per match. *)
Definition findall_groups (r : regex) (s : string) : list (list string) :=
  (fun m => group m <$> seq 1 (ngroups r)) <$> matches r s.

(** [re.sub(r, repl, s)] for a replacement text without back-references. *)
Definition sub (r : regex) (repl : string) (s : string) : string :=
  let ms := matches r s in
  Str.of_list
    (concat ((fun m => m_pre m ++ Str.to_list repl) <$> ms)
     ++ match last ms with
        | Some m => m_rest m
        | None => Str.to_list s
        end).

End Re.

(** ** Decimal numbers

    Python's [decimal.Decimal] under the default context: 28 significant
    digits, rounding half to even, exponents within [-999999, 999999],
    traps on invalid operations, division by zero and overflow.  A finite
    number is [(-1)^neg * coeff * 10^exp]; the diagnostic payload of a NaN
    is not represented. *)

Module Decimal.

Inductive t : Type :=
| Fin (neg : bool) (coeff : N) (exp : Z)
| Inf (neg : bool)
| NaN (signaling : bool).

#[global] Instance t_eq_dec : EqDecision t.
Proof. solve_decision. Defined.

Definition prec : Z := 28.
Definition Emax : Z := 999999.
Definition Emin : Z := -999999.
Definition Etiny : Z := Emin - prec + 1.
Definition Etop : Z := Emax - prec + 1.

(** [len(str(n))] *)
Fixpoint ndigits_go (fuel : nat) (n : N) : Z :=
  match fuel with
  | O => 1
  | S fuel' => if (n <? 10)%N then 1 else 1 + ndigits_go fuel' (n / 10)%N
  end.

Definition ndigits (n : N) : Z := ndigits_go (N.size_nat n) n.

Definition pow10 (e : Z) : N := Z.to_N (10 ^ e).

(** The numeric value read off a string of decimal digits. *)
Definition digit_val (a : ascii) : N := (N_of_ascii a - 48)%N.

Definition N_of_digits (l : list ascii) : N :=
  fold_left (fun acc a => (acc * 10 + digit_val a)%N) l 0%N.

Definition Z_of_signed_digits (l : list ascii) : Z :=
  match l with
  | "-"%char :: l' => - Z.of_N (N_of_digits l')
  | "+"%char :: l' => Z.of_N (N_of_digits l')
  | _ => Z.of_N (N_of_digits l)
  end.

(** The grammar of numeric strings: an optional sign, then digits with
    an optional fraction and exponent, or an infinity, or a NaN; letters
    in either case.  Groups: 1 sign, 2 integer part, 3 fraction,
    4 exponent, 5 infinity, 6 signalling mark, 7 NaN. *)
Definition ci (s : string) : Re.regex :=
  fold_right (fun a r => Re.Cat (Re.Chr (fun b => Ascii.eqb (Str.lower_char b) a)) r)
    Re.Eps (Str.to_list s).

Definition numeric_string : Re.regex :=
  let digits := Re.Chr Re.digit in
  Re.Cat (Re.Opt (Re.Grp 1 (Re.Chr (Re.one_of "-+"))))
    (Re.Alt
       (Re.Cat
          (Re.Alt
             (Re.Cat (Re.Grp 2 (Re.Plus digits))
                (Re.Opt (Re.Cat (Re.chr ".") (Re.Grp 3 (Re.Star digits)))))
             (Re.Cat (Re.chr ".") (Re.Grp 3 (Re.Plus digits))))
          (Re.Opt (Re.Cat (ci "e")
                     (Re.Grp 4 (Re.Cat (Re.Opt (Re.Chr (Re.one_of "-+"))) (Re.Plus digits))))))
       (Re.Alt
          (Re.Grp 5 (Re.Cat (ci "inf") (Re.Opt (ci "inity"))))
          (Re.Cat (Re.Opt (Re.Grp 6 (ci "s")))
             (Re.Cat (Re.Grp 7 (ci "nan")) (Re.Star digits))))).

Definition fullmatch (r : Re.regex) (s : string) : option Re.caps :=
  Re.run r (Str.to_list s) []
    (fun rest c => match rest with [] => Some c | _ => None end).

Definition has_group (c : Re.caps) (n : nat) : bool :=
  existsb (fun p => Nat.eqb (fst p) n) c.

(** [Decimal(s)] for a string [s]. *)
Definition of_string (s : string) : result t :=
  match fullmatch numeric_string (Str.replace "_" "" (Str.strip s)) with
  | None => Raise InvalidOperation
  | Some c =>
      let neg := String.eqb (Re.group_of c 1) "-" in
      if has_group c 5 then Ok (Inf neg)
      else if has_group c 7 then Ok (NaN (has_group c 6))
      else
        let intpart := Str.to_list (Re.group_of c 2) in
        let fracpart := Str.to_list (Re.group_of c 3) in
        let e := Z_of_signed_digits (Str.to_list (Re.group_of c 4)) in
        Ok (Fin neg (N_of_digits (intpart ++ fracpart)) (e - Z.of_nat (length fracpart)))
  end.

(** [Decimal(1e6)]: the float [1e6] is the integer 1000000 exactly, and
    the conversion from a float is exact. *)
Definition million : t := Fin false 1000000 0.

(** Rounding to the context ([_fix]). *)
Definition fix_ (d : t) : result t :=
  match d with
  | Fin neg coeff e =>
      if (coeff =? 0)%N then Ok (Fin neg 0 (Z.min (Z.max e Etiny) Emax))
      else
        let exp_min0 := ndigits coeff + e - prec in
        if Etop <? exp_min0 then Raise DecimalOverflow
        else
          let exp_min := Z.max exp_min0 Etiny in
          if e <? exp_min then
            let dropped := exp_min - e in
            let q := (coeff / pow10 dropped)%N in
            let r := (coeff mod pow10 dropped)%N in
            let half := (5 * pow10 (dropped - 1))%N in
            let up := ((half <? r)%N || ((r =? half)%N && N.odd q)) in
            let coeff' := if up then (q + 1)%N else q in
            let '(coeff'', exp_min') :=
              if prec <? ndigits coeff' then ((coeff' / 10)%N, exp_min + 1)
              else (coeff', exp_min) in
            if Etop <? exp_min' then Raise DecimalOverflow
            else Ok (Fin neg coeff'' exp_min')
          else Ok d
  | _ => Ok d
  end.

(** Strip trailing zeros of an exact quotient up to the ideal exponent. *)
Fixpoint strip_zeros (fuel : nat) (coeff : N) (e ideal : Z) : N * Z :=
  match fuel with
  | O => (coeff, e)
  | S fuel' =>
      if (e <? ideal) && (coeff mod 10 =? 0)%N
      then strip_zeros fuel' (coeff / 10)%N (e + 1) ideal
      else (coeff, e)
  end.

(** [a / b] *)
Definition truediv (a b : t) : result t :=
  match a, b with
  | NaN true, _ | _, NaN true => Raise InvalidOperation
  | NaN false, _ => Ok a
  | _, NaN false => Ok b
  | Inf _, Inf _ => Raise InvalidOperation
  | Inf sa, Fin sb _ _ => Ok (Inf (xorb sa sb))
  | Fin sa _ _, Inf sb => Ok (Fin (xorb sa sb) 0 Etiny)
  | Fin sa ca ea, Fin sb cb eb =>
      let sign := xorb sa sb in
      if (cb =? 0)%N then
        if (ca =? 0)%N then Raise InvalidOperation else Raise DivisionByZero
      else if (ca =? 0)%N then fix_ (Fin sign 0 (ea - eb))
      else
        let shift := ndigits cb - ndigits ca + prec + 1 in
        let e := ea - eb - shift in
        let '(q, r) :=
          if 0 <=? shift then N.div_eucl (ca * pow10 shift) cb
          else N.div_eucl ca (cb * pow10 (- shift)) in
        let '(coeff, e') :=
          if (r =? 0)%N then strip_zeros (Z.to_nat (ea - eb - e)) q e (ea - eb)
          else (if (q mod 5 =? 0)%N then (q + 1)%N else q, e) in
        fix_ (Fin sign coeff e')
  end.

(** The rational number a finite decimal stands for. *)
Definition to_Q (d : t) : option Q :=
  match d with
  | Fin neg coeff e =>
      let m := if neg then - Z.of_N coeff else Z.of_N coeff in
      Some (Qmult (inject_Z m) (Qpower (inject_Z 10) e))
  | _ => None
  end.

(** [bool(d)] *)
Definition truthy (d : t) : bool :=
  match d with
  | Fin _ coeff _ => negb (coeff =? 0)%N
  | _ => true
  end.

End Decimal.

(** ** Integers and points in time *)

(** [int(s)] for a string: white space around, an optional sign, digits
    that single underscores may separate; [ValueError] otherwise. *)
Definition int_literal : Re.regex :=
  Re.Cat (Re.Opt (Re.Grp 1 (Re.Chr (Re.one_of "-+"))))
    (Re.Cat (Re.Chr Re.digit)
       (Re.Star (Re.Cat (Re.Opt (Re.chr "_")) (Re.Chr Re.digit)))).

Definition int_of_string (s : string) : result Z :=
  match Decimal.fullmatch int_literal (Str.strip s) with
  | None => Raise ValueError
  | Some _ => Ok (Decimal.Z_of_signed_digits (Str.to_list (Str.replace "_" "" (Str.strip s))))
  end.

(** A [datetime] is a count of microseconds since the start of the year 1;
    the type ends with the year 9999. *)
Definition datetime : Type := Z.

Definition day_us : Z := 86400 * 1000000.
Definition datetime_end : Z := 3652059 * day_us.

(** [t - timedelta(days=n)]: a [timedelta] holds at most 999999999 days
    in either direction, and the difference has to be a [datetime]. *)
Definition minus_days (t : datetime) (n : Z) : result datetime :=
  if (n <? -999999999) || (999999999 <? n) then Raise OverflowError
  else
    let t' := t - n * day_us in
    if (t' <? 0) || (datetime_end <=? t') then Raise OverflowError
    else Ok t'.

(** ** Values and dictionaries *)

(** A child of an element, as [tag.contents] lists them: a string or a tag
    (given by its markup). *)
Inductive PageElement : Type :=
| NavigableString (s : string)
| Tag (markup : string).

(** The values the scraper stores in its result. *)
#[warnings="-register-all"]
Inductive value : Type :=
| VNone
| VStr (s : string)
| VDecimal (d : Decimal.t)
| VDatetime (t : datetime)
| VElem (e : PageElement)
| VList (l : list value)
| VDict (d : list (string * value)).

(** A Python [dict] with string keys. *)
Abbreviation Dict := (gmap string value).

(** [d1.update(d2)], the entries of [d2] passed as keyword arguments. *)
Definition update (d1 d2 : Dict) : Dict := d2 ∪ d1.

(** [try: r except Exception: h] for a computation without effects. *)
Definition try_except {A} (r : result A) (h : result A) : result A :=
  match r with
  | Ok a => Ok a
  | Raise _ => h
  end.

(** ** The parsed document *)

(** An element's attributes. *)
Abbreviation Attrs := (gmap string string).

(** What the parser answers about a listing page.  Each field is the
    result of one query of the source:
    - [home_value_rows]: [soup.find("div", id=constants.HOME_VALUE)], and
      when found the [.text] of each element inside it whose class matches
      [home-summary-row];
    - [zest_values], [zest_titles]: [soup.findAll("div", {"class": ...})]
      for the classes [zest-value] and [zest-title], each element as the
      list of its text nodes ([findAll(text=True)]);
    - [prop_summary], [description]: the [.text] of the first [div] of
      class [constants.PROP_SUMMARY_CLASS], [constants.DESCRIPTION];
    - [photo_imgs]: [soup.select("ol.photos img")], each image as its
      attributes;
    - [fact_groups]: [soup.find_all("ul", constants.FACT_GROUPING)], each
      group as the [.text] of its [li] elements;
    - [home_marker_data]: the first [div] of class [homeMarkerData], and
      when found the first comment node inside it, if any;
    - [map_coordinates]: the attributes of the element with id
      [hdp-map-coordinates];
    - [soup_text]: [soup.text]. *)
Record Soup : Type := {
  home_value_rows : option (list string);
  zest_values : list (list string);
  zest_titles : list (list string);
  prop_summary : option string;
  description : option string;
  photo_imgs : list Attrs;
  fact_groups : list (list string);
  home_marker_data : option (option string);
  map_coordinates : option Attrs;
  soup_text : string
}.

(** A table cell ([td]): its text, its children, and the text of the
    first [span] inside it, if any. *)
Record Cell : Type := {
  get_text : string;
  contents : list PageElement;
  find_span : option string
}.

(** What the parser answers about a history fragment:
    [soup.find('table')], then [table.find('tbody')], then the cells
    ([td]) of each row ([tr]). *)
Definition TableBody : Type := list (list Cell).
Definition Fragment : Type := option (option TableBody).

(** A response of the HTTP client. *)
Record Response : Type := {
  status_code : Z;
  url : string;
  content : string
}.

(** [request_class.get(url, timeout=timeout)] *)
Definition RequestClass : Type := string → Z → result Response.

(** The capabilities and constants the scraper takes from elsewhere. *)
Record Env : Type := {
  (** Modelled from the spec: [constants.HOME_TYPES], the fixed set of
      home-type labels. *)
  HOME_TYPES : list string;
  (** [constants.ZILLOW_URL] and [constants.ZILLOW_HOMES_URL]. *)
  ZILLOW_URL : string;
  ZILLOW_HOMES_URL : string;
  (** [urllib]'s [urljoin] and [unquote]. *)
  urljoin : string → string → string;
  unquote : string → string;
  (** [BeautifulSoup(html, 'html.parser')] on a page and on a fragment. *)
  BeautifulSoup : string → Soup;
  BeautifulSoup_fragment : string → Fragment;
  (** [str(x)] of the bytes of a response and of a list of text nodes. *)
  str_of_bytes : string → string;
  str_of_texts : list string → string;
  (** [datetime.now()] *)
  now : datetime
}.

(** ** The patterns of the source *)

Module Pat.
Import Re.

Definition digits_and (extra : string) : regex :=
  Plus (Chr (fun a => digit a || one_of extra a)).

(** [(Foreclosure Estimate|Below Zestimate|Rent Zestimate|Zestimate|Sold on|Sold|Price cut)(?:\xae)?:?[\n ]+-?\$?([\d,\/\w]+)]:
    one of the labels, then the amount that follows it. *)
Definition pricing_labels : list string :=
  ["Foreclosure Estimate"; "Below Zestimate"; "Rent Zestimate";
   "Zestimate"; "Sold on"; "Sold"; "Price cut"].

Definition pricing_amount : regex :=
  Cat (Opt (chr "174"))
    (Cat (Opt (chr ":"))
       (Cat (Plus (Chr (fun a => Ascii.eqb a "010" || Ascii.eqb a " ")))
          (Cat (Opt (chr "-"))
             (Cat (Opt (chr "$"))
                (Grp 2 (Plus (Chr (fun a => word a || one_of ",/" a)))))))).

Definition pricing : regex := Cat (Grp 1 (alts pricing_labels)) pricing_amount.

(** [(For Sale|Auction|Make Me Move|For Rent|Pre-Foreclosure|Off Market)] *)
Definition status : regex :=
  Grp 1 (alts ["For Sale"; "Auction"; "Make Me Move"; "For Rent";
               "Pre-Foreclosure"; "Off Market"]).

(** [\$?[\d,]+] and [\$?([\d,]+)] *)
Definition currency : regex := Cat (Opt (chr "$")) (digits_and ",").
Definition currency_amount : regex := Cat (Opt (chr "$")) (Grp 1 (digits_and ",")).

(** [([\d\.]+) beds?], [([\d\.]+) baths?], [([\d,\.]+) sqft] *)
Definition bedrooms : regex :=
  Cat (Grp 1 (digits_and ".")) (Cat (lit " bed") (Opt (chr "s"))).
Definition bathrooms : regex :=
  Cat (Grp 1 (digits_and ".")) (Cat (lit " bath") (Opt (chr "s"))).
Definition sqft : regex := Cat (Grp 1 (digits_and ",.")) (lit " sqft").

(** [(?:[A-Z]\w+ ?){1,}]: capitalised words, each with an optional
    space after it. *)
Definition cap_words : regex :=
  Plus (Cat (Chr upper) (Cat (Plus (Chr word)) (Opt (chr " ")))).

(** [((?:[A-Z]\w+ ?){1,}), [A-Z]{2}] *)
Definition city : regex :=
  Cat (Grp 1 cap_words) (Cat (lit ", ") (times 2 (Chr upper))).

(** [(?:[A-Z]\w+ ?){1,}, ([A-Z]{2})] *)
Definition state : regex :=
  Cat cap_words (Cat (lit ", ") (Grp 1 (times 2 (Chr upper)))).

(** [[A-Z]{2} (\d{5}-?(?:\d{4})?)] *)
Definition zipcode : regex :=
  Cat (times 2 (Chr upper))
    (Cat (chr " ")
       (Grp 1 (Cat (times 5 (Chr digit))
                 (Cat (Opt (chr "-")) (Opt (times 4 (Chr digit))))))).

(** [Built in (\d+)] and [(\d+) days] *)
Definition built_in : regex := Cat (lit "Built in ") (Grp 1 (Plus (Chr digit))).
Definition days : regex := Cat (Grp 1 (Plus (Chr digit))) (lit " days").

(** [( #|# )] *)
Definition hash : regex := Grp 1 (Alt (lit " #") (lit "# ")).

(** [(\/AjaxRender.htm\?encparams=[\w\-_~=]+&rwebid=\d+&rhost=\d)\",customEvent:\"CollapsibleModule:expandSection\",jsModule:\"{}], with the label in place of the braces. *)
Definition ajax (label : string) : regex :=
  Cat (Grp 1 (Cat (lit "/AjaxRender")
                (Cat (Chr any)
                   (Cat (lit "htm?encparams=")
                      (Cat (Plus (Chr (fun a => word a || one_of "-_~=" a)))
                         (Cat (lit "&rwebid=")
                            (Cat (Plus (Chr digit))
                               (Cat (lit "&rhost=") (Chr digit)))))))))
    (Cat (chr "034")
       (Cat (lit ",customEvent:")
          (Cat (chr "034")
             (Cat (lit "CollapsibleModule:expandSection")
                (Cat (chr "034")
                   (Cat (lit ",jsModule:")
                      (Cat (chr "034") (lit label)))))))).
End Pat.

(** ** Loops *)

(** [for x in l: s = f(s, x)], leaving at the first exception. *)
Fixpoint for_each {A St} (f : St → A → result St) (l : list A) (s : St) : result St :=
  match l with
  | [] => Ok s
  | x :: l' =>
      match f s x with
      | Ok s' => for_each f l' s'
      | Raise e => Raise e
      end
  end.

(** [for i, x in enumerate(l)], counting from [i]. *)
Fixpoint for_enumerate {A St} (f : St → nat → A → result St) (i : nat) (l : list A) (s : St)
    : result St :=
  match l with
  | [] => Ok s
  | x :: l' =>
      match f s i x with
      | Ok s' => for_enumerate f (S i) l' s'
      | Raise e => Raise e
      end
  end.

(** Truth value of a list. *)
Definition nonempty {A} (l : list A) : bool :=
  match l with [] => false | _ => true end.

(** ** The field extractors *)

Section Extractors.
Variable env : Env.

Definition _check_for_null_result {A} (res : option A) : result unit :=
  match res with
  | None => Raise NullResultException
  | Some _ => Ok tt
  end.

(** The body of the loop over the summary rows. *)
Definition sale_info_row (sale_info : Dict) (row_text : string) : result Dict :=
  let pricing := Re.findall_groups Pat.pricing row_text in
  let status := Re.findall Pat.status row_text in
  if nonempty pricing then
    first ← getitem pricing 0;
    label ← getitem first 0;
    amount ← getitem first 1;
    let property_ := Str.lower (Str.replace " " "_" (Str.strip label)) in
    Ok (<[property_ := VStr amount]> sale_info)
  else if nonempty status then
    st ← getitem status 0;
    Ok (<["status" := VStr st]> sale_info)
  else if bool_decide (is_Some (Re.search Pat.currency row_text)) then
    price ← getitem (Re.findall Pat.currency_amount row_text) 0;
    Ok (<["price" := VStr price]> sale_info)
  else Ok sale_info.

(** The body of the loop over the zestimate titles. *)
Definition sale_info_zest (zestimates_values : list (list string))
    (sale_info : Dict) (i : nat) (zest : list string) : result Dict :=
  let value := zest in
  if Str.contains "rent" (str_of_texts env value) then
    element ← getitem zestimates_values i;
    text ← getitem element 0;
    amount ← getitem (Re.findall Pat.currency_amount text) 0;
    Ok (<["rent_zestimate" := VStr amount]> sale_info)
  else Ok sale_info.

Definition sale_info_init : Dict :=
  <["price" := VNone]> (<["status" := VNone]> (<["zestimate" := VNone]>
    (<["rent_zestimate" := VNone]> ∅))).

Definition _get_sale_info (soup : Soup) : result Dict :=
  let sale_info := sale_info_init in
  summary_rows ←
    match home_value_rows soup with
    | None => Raise AttributeError
    | Some rows => Ok rows
    end;
  sale_info ← for_each sale_info_row summary_rows sale_info;
  let zestimates_values := zest_values soup in
  let zestimates_titles := zest_titles soup in
  for_enumerate (sale_info_zest zestimates_values) 0 zestimates_titles sale_info.

(** The inner function of [_get_property_summary]. *)
Definition parse_property (prop_summary : string) (regex : Re.regex) (property_ : string)
    (results : Dict) : Dict :=
  match getitem (Re.findall regex prop_summary) 0 with
  | Ok found => <[property_ := VStr found]> results
  | Raise _ => <[property_ := VNone]> results
  end.

Definition _get_property_summary (soup : Soup) : result Dict :=
  let prop_summary := prop_summary soup in
  _ ← _check_for_null_result prop_summary;
  let prop_summary := default "" prop_summary in
  let results : Dict := ∅ in
  let results := parse_property prop_summary Pat.bedrooms "bedrooms" results in
  let results := parse_property prop_summary Pat.bathrooms "bathrooms" results in
  let results := parse_property prop_summary Pat.sqft "sqft" results in
  let results := parse_property prop_summary Pat.city "city" results in
  let results := parse_property prop_summary Pat.state "state" results in
  let results := parse_property prop_summary Pat.zipcode "zipcode" results in
  Ok results.

Definition _get_description (soup : Soup) : result string :=
  let description := description soup in
  _ ← _check_for_null_result description;
  Ok (default "" description).

(** [i.get("href", i.get("src", None))] *)
Definition photo_of (i : Attrs) : option string :=
  match i !! "href" with
  | Some v => Some v
  | None => i !! "src"
  end.

Definition _get_photos (soup : Soup) : list string :=
  let images := photo_imgs soup in
  if negb (nonempty images) then []
  else
    let photos := photo_of <$> images in
    omap (fun p => match p with
                   | Some s => if String.eqb s "" then None else Some s
                   | None => None
                   end) photos.

Definition _get_fact_list (soup : Soup) : list string :=
  concat (fact_groups soup).

(** The six branches of the loop of [_parse_facts], top to bottom. *)
Definition fact_home_type (parsed_facts : Dict) (text : string) : result Dict :=
  Ok (<["home_type" := VStr text]> parsed_facts).

Definition fact_year (parsed_facts : Dict) (text : string) : result Dict :=
  year ← getitem (Re.findall Pat.built_in text) 0;
  Ok (<["year" := VStr year]> parsed_facts).

Definition fact_days_on_zillow (parsed_facts : Dict) (text : string) : result Dict :=
  days ← getitem (Re.findall Pat.days text) 0;
  Ok (<["days_on_zillow" := VStr days]> parsed_facts).

Definition fact_extras (parsed_facts : Dict) (text : string) : result Dict :=
  let parsed_facts :=
    if bool_decide (is_Some (parsed_facts !! "extras")) then parsed_facts
    else <["extras" := VList []]> parsed_facts in
  match parsed_facts !! "extras" with
  | Some (VList l) => Ok (<["extras" := VList (l ++ [VStr text])]> parsed_facts)
  | Some _ => Raise AttributeError
  | None => Raise KeyError
  end.

Definition fact_posted (parsed_facts : Dict) (text : string) : result Dict :=
  let string := Re.sub Pat.hash "" text in
  let split := Str.split ":" string in
  second ← getitem split 1;
  days ← getitem (Str.split " " (Str.strip second)) 0;
  n ← int_of_string days;
  posted_date ← minus_days (now env) n;
  Ok (<["posted" := VDatetime posted_date]> parsed_facts).

Definition fact_generic (parsed_facts : Dict) (text : string) : result Dict :=
  let string := Re.sub Pat.hash "" text in
  let split := Str.split ":" string in
  first ← getitem split 0;
  second ← getitem split 1;
  Ok (<[Str.lower (Str.replace " " "_" (Str.strip first)) := VStr (Str.strip second)]>
        parsed_facts).

(** The body of the loop of [_parse_facts]. *)
Definition parse_fact (parsed_facts : Dict) (text : string) : result Dict :=
  if Str.mem text (HOME_TYPES env) then fact_home_type parsed_facts text
  else if Str.contains "Built in" text then fact_year parsed_facts text
  else if Str.contains "days on Zillow" text then fact_days_on_zillow parsed_facts text
  else if (length (Str.split ":" text) =? 1)%nat then fact_extras parsed_facts text
  else if Str.contains "Posted" text then fact_posted parsed_facts text
  else fact_generic parsed_facts text.

Definition _parse_facts (facts : list string) : result Dict :=
  for_each parse_fact facts ∅.

End Extractors.

(** ** Input validation *)

Section Validation.
Variable env : Env.

(** Truth value of an optional string and of an optional integer. *)
Definition given_str (o : option string) : bool :=
  match o with
  | Some s => negb (String.eqb s "")
  | None => false
  end.

Definition given_int (o : option Z) : bool :=
  match o with
  | Some z => negb (z =? 0)
  | None => false
  end.

(** [str(zpid)] *)
Definition str_of_zpid (zpid : option Z) : string :=
  match zpid with
  | Some z => pretty z
  | None => "None"
  end.

(** ["homes/{}_zpid/(index)/".format(zpid)] *)
Definition homes_path (zpid : option Z) : string :=
  "homes/" +:+ str_of_zpid zpid +:+ "_zpid/(index)/".

Definition validate_scraper_input (url : option string) (zpid : option Z) : result string :=
  if given_str url && given_int zpid then Raise ValueError
  else if negb (given_str url) && negb (given_int zpid) then Raise ValueError
  else if given_str url && negb (Str.contains "homes" (default "" url)) then Raise ValueError
  else if given_str url then Ok (default "" url)
  else Ok (urljoin env (ZILLOW_URL env) (homes_path zpid)).

End Validation.

(** ** Geolocation *)

Section Location.
Variable env : Env.

(** Truth value of a coordinate. *)
Definition truthy (v : value) : bool :=
  match v with
  | VNone => false
  | VStr s => negb (String.eqb s "")
  | VDecimal d => Decimal.truthy d
  | VList l => nonempty l
  | VDict d => nonempty d
  | VDatetime _ | VElem _ => true
  end.

(** The body of the first [try] of [_get_location_data]. *)
Definition coordinates (parsed_comments : list string) : result (value * value) :=
  lat_token ← getitem_neg parsed_comments 2;
  lat_scaled ← Decimal.of_string lat_token;
  lat ← Decimal.truediv lat_scaled Decimal.million;
  lon_token ← getitem_neg parsed_comments 1;
  let lon_str := Str.filter (fun a => negb (Ascii.eqb a "\")) lon_token in
  lon_scaled ← Decimal.of_string lon_str;
  lon ← Decimal.truediv lon_scaled Decimal.million;
  Ok (VDecimal lat, VDecimal lon).

(** [location_data_elem.attrs[key]] *)
Definition attr (location_data_elem : option Attrs) (key : string) : result string :=
  match location_data_elem with
  | None => Raise AttributeError
  | Some attrs =>
      match attrs !! key with
      | Some v => Ok v
      | None => Raise KeyError
      end
  end.

(** The body of the second [try] of [_get_location_data]. *)
Definition address (location_data_elem : option Attrs) : result value :=
  addr_url ← attr location_data_elem "data-direction";
  let addr_url := unquote env addr_url in
  i ← Str.index "addr=" addr_url;
  let addr_substr := Str.drop (i + 5) addr_url in
  j ← Str.index "&" addr_substr;
  let addr_substr := Str.take j addr_substr in
  let addr_substr := Str.replace " ," ", " (Str.replace "+" " " addr_substr) in
  c ← getitem_neg (Str.to_list addr_substr) 5;
  if Ascii.eqb c "-"
  then Ok (VStr (Str.take (String.length addr_substr - 5) addr_substr))
  else Ok (VStr addr_substr).

Definition _get_location_data (soup : Soup) : result value :=
  let location_data_div := home_marker_data soup in
  '(lat, lon) ←
    match location_data_div with
    | Some comments =>
        comment_string ←
          match comments with
          | Some c => Ok c
          | None => Raise AttributeError
          end;
        let parsed_comments :=
          Str.split "," (Str.strip_char "]" (Str.strip_char "[" comment_string)) in
        try_except (coordinates parsed_comments) (Ok (VNone, VNone))
    | None => Ok (VNone, VNone)
    end;
  let location_data_elem := map_coordinates soup in
  lat ← (if negb (truthy lat)
         then VStr <$> attr location_data_elem "data-latitude" else Ok lat);
  lon ← (if negb (truthy lon)
         then VStr <$> attr location_data_elem "data-longitude" else Ok lon);
  addr_substr ← try_except (address location_data_elem) (Ok VNone);
  Ok (VDict [("latitude", lat); ("longitude", lon); ("address", addr_substr)]).

End Location.

(** ** Effects: requests, printing and logging *)

Inductive event : Type :=
| Get (address : string) (timeout : Z)
| Print (message : string)
| LogException (e : exn).

(** A computation reads the trace so far and returns the extended trace
    with a value or a raised exception. *)
Definition M (A : Type) : Type := list event → list event * result A.

#[global] Instance M_ret : MRet M := fun A a t => (t, Ok a).
#[global] Instance M_bind : MBind M := fun A B f m t =>
  match m t with
  | (t', Ok a) => f a t'
  | (t', Raise e) => (t', Raise e)
  end.

#[global] Instance M_fmap : FMap M := fun A B f m t =>
  match m t with
  | (t', Ok a) => (t', Ok (f a))
  | (t', Raise e) => (t', Raise e)
  end.

Definition lift {A} (r : result A) : M A := fun t => (t, r).
Definition emit (ev : event) : M unit := fun t => (t ++ [ev], Ok tt).

(** [try: m except E as e: h(e)] for one exception class [E]. *)
Definition try_catch {A} (m : M A) (E : exn) (h : exn → M A) : M A := fun t =>
  match m t with
  | (t', Raise e) => if decide (e = E) then h e t' else (t', Raise e)
  | r => r
  end.

Definition run {A} (m : M A) : list event * result A := m [].

(** The addresses requested in a trace. *)
Definition requests (tr : list event) : list string :=
  omap (fun ev => match ev with Get a _ => Some a | _ => None end) tr.

Definition dquote : string := String "034" EmptyString.
Definition backslash : string := String "\" EmptyString.

Definition price_history_message : string :=
  "Unable to get price history.  Perhaps this is not a valid listing or the html changed and we are unable to use the scraper. If the latter, file a bug at https://github.com/hahnicity/scrapezillow/issues".

Definition tax_history_message : string :=
  "Unable to get tax history.  Perhaps this is not a valid listing or the html changed and we are unable to use the scraper. If the latter, file a bug at https://github.com/hahnicity/scrapezillow/issues".

(** ** Fetching and the history tables *)

Section Scraper.
Variable env : Env.

Definition OK : Z := 200.

Definition get_raw_html (address : string) (timeout : Z) (request_class : RequestClass)
    : M string :=
  _ ← emit (Get address timeout);
  response ← lift (request_class address timeout);
  if negb (status_code response =? OK) then lift (Raise PyException)
  else if String.eqb (url response) (ZILLOW_HOMES_URL env) then lift (Raise PyException)
  else mret (content response).

Definition _get_ajax_url (soup : Soup) (label : string) : result string :=
  let found := Re.search (Pat.ajax label) (soup_text soup) in
  _ ← _check_for_null_result found;
  match found with
  | Some m => Ok ("http://www.zillow.com" +:+ Re.group m 1)
  | None => Raise NullResultException
  end.

(** The envelope of an ajax response: [ { "html": "] then any text
    without a line break, captured as group 1, then [" }]. *)
Definition envelope : Re.regex :=
  Re.Cat (Re.lit (" { " +:+ dquote +:+ "html" +:+ dquote +:+ ": " +:+ dquote))
    (Re.Cat (Re.Grp 1 (Re.Star (Re.Chr Re.any))) (Re.lit (dquote +:+ " }"))).

(** The two substitutions that undo the escaping of quotes and of
    forward slashes. *)
Definition unescape (html : string) : string :=
  let html := Re.sub (Re.lit (backslash +:+ dquote)) dquote html in
  Re.sub (Re.lit (backslash +:+ "/")) "/" html.

(** The part of [_get_table_body] after the fetch. *)
Definition table_body_of (html : string) : result (option TableBody) :=
  found ← match Re.search envelope (str_of_bytes env html) with
          | Some m => Ok m
          | None => Raise AttributeError
          end;
  let html := Re.group found 1 in
  let html := unescape html in
  let soup := BeautifulSoup_fragment env html in
  let table := soup in
  match table with
  | None => Raise ValueError
  | Some table => Ok table
  end.

Definition _get_table_body (ajax_url : string) (request_timeout : Z)
    (request_class : RequestClass) : M (option TableBody) :=
  html ← get_raw_html ajax_url request_timeout request_class;
  lift (table_body_of html).

(** [table_body.find_all('tr')] *)
Definition find_all_tr (table_body : option TableBody) : result TableBody :=
  match table_body with
  | Some rows => Ok rows
  | None => Raise AttributeError
  end.

(** [for row in rows: data.append(f(row))] *)
Fixpoint collect (f : list Cell → result value) (rows : TableBody) : result (list value) :=
  match rows with
  | [] => Ok []
  | cols :: rows' =>
      match f cols with
      | Ok row => cons row <$> collect f rows'
      | Raise e => Raise e
      end
  end.

Definition price_row (cols : list Cell) : result value :=
  date ← get_text <$> getitem cols 0;
  event ← get_text <$> getitem cols 1;
  let price_span :=
    match getitem cols 2 with
    | Ok cell => find_span cell
    | Raise _ => None
    end in
  let price :=
    match price_span with
    | None => VNone
    | Some text => VStr text
    end in
  Ok (VList [VStr date; VStr event; price]).

Definition _get_price_history (ajax_url : string) (request_timeout : Z)
    (request_class : RequestClass) : M (list value) :=
  table_body ← _get_table_body ajax_url request_timeout request_class;
  lift (rows ← find_all_tr table_body; collect price_row rows).

Definition tax_row (cols : list Cell) : result value :=
  date ← get_text <$> getitem cols 0;
  tax_cell ← getitem cols 1;
  tax ← getitem (contents tax_cell) 0;
  assessment ← get_text <$> getitem cols 3;
  Ok (VList [VStr date; VElem tax; VStr assessment]).

Definition _get_tax_history (ajax_url : string) (request_timeout : Z)
    (request_class : RequestClass) : M (list value) :=
  let data : list value := [] in
  table_body ← try_catch (Some <$> _get_table_body ajax_url request_timeout request_class)
                 ValueError (fun _ => mret None);
  match table_body with
  | None => mret data
  | Some table_body => lift (rows ← find_all_tr table_body; collect tax_row rows)
  end.

(** The two [try] statements of [populate_price_and_tax_histories]. *)
Definition price_history_step (soup : Soup) (results : Dict)
    (request_timeout : Z) (request_class : RequestClass) : M Dict :=
  try_catch
    (history_url ← lift (_get_ajax_url soup "z-hdp-price-history");
     rows ← _get_price_history history_url request_timeout request_class;
     mret (<["price_history" := VList rows]> results))
    NullResultException
    (fun e => _ ← emit (Print price_history_message);
              _ ← emit (LogException e);
              mret results).

Definition tax_history_step (soup : Soup) (results : Dict)
    (request_timeout : Z) (request_class : RequestClass) : M Dict :=
  try_catch
    (tax_url ← lift (_get_ajax_url soup "z-expando-table");
     rows ← _get_tax_history tax_url request_timeout request_class;
     mret (<["tax_history" := VList rows]> results))
    NullResultException
    (fun e => _ ← emit (Print tax_history_message);
              _ ← emit (LogException e);
              mret results).

(** [results] is updated in place; the dictionary returned here is
    [results] after the call. *)
Definition populate_price_and_tax_histories (soup : Soup) (results : Dict)
    (request_timeout : Z) (request_class : RequestClass) : M Dict :=
  results ← price_history_step soup results request_timeout request_class;
  tax_history_step soup results request_timeout request_class.

(** ** The orchestrator *)

Definition scrape_url (url : option string) (zpid : option Z) (request_timeout : Z)
    (request_class : RequestClass) (get_price_and_tax_info : bool) : M Dict :=
  url ← lift (validate_scraper_input env url zpid);
  html ← get_raw_html url request_timeout request_class;
  let soup := BeautifulSoup env html in
  results ← lift (_get_property_summary soup);
  facts ← lift (_parse_facts env (_get_fact_list soup));
  let results := update results facts in
  sale_info ← lift (_get_sale_info env soup);
  let results := update results sale_info in
  description ← lift (_get_description soup);
  let results := <["description" := VStr description]> results in
  let results := <["photos" := VList (VStr <$> _get_photos soup)]> results in
  location_data ← lift (_get_location_data env soup);
  let results := <["location_data" := location_data]> results in
  if get_price_and_tax_info
  then populate_price_and_tax_histories soup results request_timeout request_class
  else mret results.

End Scraper.

(** ** Sample pages

    A small site to run the scraper on: an HTTP client that serves a few
    listing pages and history fragments, and the parser's answers for
    them.  The home types, the addresses and the page contents are
    samples. *)

Module Sample.

Definition descriptor (path label : string) : string :=
  "{ajaxURL:" +:+ dquote +:+ path +:+ dquote +:+ ",customEvent:" +:+ dquote
  +:+ "CollapsibleModule:expandSection" +:+ dquote +:+ ",jsModule:" +:+ dquote
  +:+ label +:+ dquote +:+ "}".

Definition price_path : string := "/AjaxRender.htm?encparams=p1~x&rwebid=7&rhost=1".
Definition tax_path : string := "/AjaxRender.htm?encparams=t1~x&rwebid=7&rhost=1".
Definition bare_path : string := "/AjaxRender.htm?encparams=n1~x&rwebid=7&rhost=1".

Definition coordinates_attrs : Attrs :=
  <["data-latitude" := "40.1"]> (<["data-longitude" := "-74.6"]>
    (<["data-direction" := "/directions?addr=12+Main+St+,Springfield+,IL-62701&src=hdp"]> ∅)).

Definition page (rows : option (list string)) (summary description : option string)
    (marker : option (option string)) (text : string) : Soup :=
  {| home_value_rows := rows;
     zest_values := [["$2,100/mo"]];
     zest_titles := [["Zestimate for rent"]];
     prop_summary := summary;
     description := description;
     photo_imgs := [ <["src" := "http://photos/1.jpg"]> ∅;
                     <["href" := "http://photos/2.jpg"]> (<["src" := "thumb"]> ∅);
                     ∅ ];
     fact_groups := [["Single Family"; "Built in 1925"; "3 days on Zillow"];
                     ["Has garage"; "Lot: 5,000 sqft"; "Price: unknown"]];
     home_marker_data := marker;
     map_coordinates := Some coordinates_attrs;
     soup_text := text |}.

Definition rows : list string :=
  ["For Sale"; "$450,000"; "Zestimate" +:+ String "174" EmptyString +:+ ": $460,123"].
Definition summary : string := "3 beds 2 baths 1,200 sqft 12 Main St, Springfield, IL 62701".
Definition comment : string := "[0,1,40123456,-74654321]".
Definition both_descriptors : string :=
  descriptor price_path "z-hdp-price-history" +:+ descriptor tax_path "z-expando-table".

(** A complete listing: pricing rows, summary, description, a marker
    region with its comment, and both history descriptors in its text. *)
Definition listing : Soup :=
  page (Some rows) (Some summary) (Some "A sunny home.") (Some (Some comment)) both_descriptors.

(** The same listing without any history descriptor in its text. *)
Definition no_descriptors : Soup :=
  page (Some rows) (Some summary) (Some "A sunny home.") (Some (Some comment)) "".

(** The same listing without the pricing region: no [div] has the id
    [constants.HOME_VALUE]. *)
Definition no_pricing : Soup :=
  page None (Some summary) (Some "A sunny home.") (Some (Some comment)) both_descriptors.

(** A page with the summary region, without description region and
    without pricing region. *)
Definition no_description : Soup :=
  page None (Some summary) None (Some (Some comment)) both_descriptors.

(** A page without summary region and without description region. *)
Definition no_summary : Soup :=
  page (Some rows) None None (Some (Some comment)) both_descriptors.

(** The listing with an empty marker region: the [div] of class
    [homeMarkerData] is there, no comment node is inside it. *)
Definition no_comment : Soup :=
  page (Some rows) (Some summary) (Some "A sunny home.") (Some None) both_descriptors.

(** The listing with a price-history descriptor, respectively a
    tax-history descriptor, whose address answers with a fragment that
    holds no table. *)
Definition price_without_table : Soup :=
  page (Some rows) (Some summary) (Some "A sunny home.") (Some (Some comment))
    (descriptor bare_path "z-hdp-price-history" +:+ descriptor tax_path "z-expando-table").
Definition tax_without_table : Soup :=
  page (Some rows) (Some summary) (Some "A sunny home.") (Some (Some comment))
    (descriptor price_path "z-hdp-price-history" +:+ descriptor bare_path "z-expando-table").

Definition cell (text : string) : Cell :=
  {| get_text := text; contents := [NavigableString text]; find_span := None |}.
Definition price_cell (text : string) : Cell :=
  {| get_text := text; contents := [Tag ("<span>" +:+ text +:+ "</span>")];
     find_span := Some text |}.

Definition price_table : TableBody :=
  [[cell "01/02/14"; cell "Sold"; price_cell "$430,000"];
   [cell "11/20/13"; cell "Listed for sale"; cell ""]].
Definition tax_table : TableBody :=
  [[cell "2014"; cell "$5,100"; cell "+2.0%"; cell "$400,000"];
   [cell "2013"; cell "$5,000"; cell "--"; cell "$390,000"; cell "--"]].

(** The rows [_get_price_history] and [_get_tax_history] read off the
    two tables. *)
Definition price_rows : list value :=
  [VList [VStr "01/02/14"; VStr "Sold"; VStr "$430,000"];
   VList [VStr "11/20/13"; VStr "Listed for sale"; VNone]].
Definition tax_rows : list value :=
  [VList [VStr "2014"; VElem (NavigableString "$5,100"); VStr "$400,000"];
   VList [VStr "2013"; VElem (NavigableString "$5,000"); VStr "$390,000"]].

Definition envelope_of (fragment : string) : string :=
  " { " +:+ dquote +:+ "html" +:+ dquote +:+ ": " +:+ dquote +:+ fragment +:+ dquote +:+ " }".

Definition site : string := "http://www.zillow.com".

(** The sample HTTP client: the listing pages by identifier, the three
    ajax addresses, and a 404 for anything else. *)
Definition get : RequestClass := fun address timeout =>
  let serve body := Ok {| status_code := 200; url := address; content := body |} in
  if String.eqb address (site +:+ "/homes/1_zpid/(index)/") then serve "listing"
  else if String.eqb address (site +:+ "/homes/2_zpid/(index)/") then serve "no pricing"
  else if String.eqb address (site +:+ "/homes/3_zpid/(index)/") then serve "no description"
  else if String.eqb address (site +:+ "/homes/4_zpid/(index)/") then serve "no summary"
  else if String.eqb address (site +:+ "/homes/5_zpid/(index)/") then serve "no comment"
  else if String.eqb address (site +:+ "/homes/6_zpid/(index)/") then serve "price without table"
  else if String.eqb address (site +:+ "/homes/7_zpid/(index)/") then serve "tax without table"
  else if String.eqb address (site +:+ "/homes/8_zpid/(index)/") then serve "no descriptors"
  else if String.eqb address (site +:+ price_path) then serve (envelope_of "<table>prices<\/table>")
  else if String.eqb address (site +:+ tax_path) then serve (envelope_of "<table>taxes<\/table>")
  else if String.eqb address (site +:+ bare_path) then serve (envelope_of "<p>No data<\/p>")
  else Ok {| status_code := 404; url := address; content := "" |}.

(** The parser's answers for the bodies the client serves. *)
Definition parse (html : string) : Soup :=
  if String.eqb html "listing" then listing
  else if String.eqb html "no pricing" then no_pricing
  else if String.eqb html "no description" then no_description
  else if String.eqb html "no summary" then no_summary
  else if String.eqb html "no comment" then no_comment
  else if String.eqb html "price without table" then price_without_table
  else if String.eqb html "tax without table" then tax_without_table
  else no_descriptors.

Definition parse_fragment (html : string) : Fragment :=
  if String.eqb html "<table>prices</table>" then Some (Some price_table)
  else if String.eqb html "<table>taxes</table>" then Some (Some tax_table)
  else None.

Definition env : Env :=
  {| HOME_TYPES := ["Single Family"; "Condo"; "Townhouse"; "Multi Family";
                    "Apartment"; "Lot / Land"];
     ZILLOW_URL := site;
     ZILLOW_HOMES_URL := site +:+ "/homes";
     urljoin := fun base path => base +:+ "/" +:+ path;
     unquote := fun s => s;
     BeautifulSoup := parse;
     BeautifulSoup_fragment := parse_fragment;
     str_of_bytes := fun s => s;
     str_of_texts := Str.join;
     now := 63500000000000000 |}.

(** What the extractors return for the complete listing. *)
Definition listing_facts : Dict :=
  list_to_map
    [("home_type", VStr "Single Family"); ("year", VStr "1925");
     ("days_on_zillow", VStr "3"); ("extras", VList [VStr "Has garage"]);
     ("lot", VStr "5,000 sqft"); ("price", VStr "unknown")].
Definition listing_sale_info : Dict :=
  list_to_map
    [("price", VStr "450,000"); ("status", VStr "For Sale");
     ("zestimate", VStr "460,123"); ("rent_zestimate", VStr "2,100")].
Definition listing_location : value :=
  VDict [("latitude", VDecimal (Decimal.Fin false 40123456 (-6)));
         ("longitude", VDecimal (Decimal.Fin true 74654321 (-6)));
         ("address", VStr "12 Main St, Springfield, IL-62701")].

(** What the scraper returns for the complete listing when the
    histories are left out. *)
Definition listing_record : Dict :=
  list_to_map
    [("bedrooms", VStr "3"); ("bathrooms", VStr "2"); ("sqft", VStr "1,200");
     ("city", VStr "Springfield"); ("state", VStr "IL"); ("zipcode", VStr "62701");
     ("home_type", VStr "Single Family"); ("year", VStr "1925");
     ("days_on_zillow", VStr "3"); ("extras", VList [VStr "Has garage"]);
     ("lot", VStr "5,000 sqft");
     ("price", VStr "450,000"); ("status", VStr "For Sale");
     ("zestimate", VStr "460,123"); ("rent_zestimate", VStr "2,100");
     ("description", VStr "A sunny home.");
     ("photos", VList [VStr "http://photos/1.jpg"; VStr "http://photos/2.jpg"]);
     ("location_data", listing_location)].

(** [scrape_url(zpid=n)] and [scrape_url(zpid=n, get_price_and_tax_info=False)]. *)
Definition scrape (n : Z) : list event * result Dict :=
  run (scrape_url env None (Some n) 10 get true).
Definition scrape_without_history (n : Z) : list event * result Dict :=
  run (scrape_url env None (Some n) 10 get false).

End Sample.

(** ** A tax table with an empty cell

    The sample site once more, with a tax table whose second row has
    nothing in its tax cell. *)

Module Faulty.

Definition empty_cell : Cell :=
  {| get_text := ""; contents := []; find_span := None |}.

Definition tax_row_without_tax : list Cell :=
  [Sample.cell "2013"; empty_cell; Sample.cell "--"; Sample.cell "$390,000"].

Definition tax_table : TableBody :=
  [[Sample.cell "2014"; Sample.cell "$5,100"; Sample.cell "+2.0%"; Sample.cell "$400,000"];
   tax_row_without_tax].

Definition parse_fragment (html : string) : Fragment :=
  if String.eqb html "<table>taxes</table>" then Some (Some tax_table)
  else Sample.parse_fragment html.

Definition env : Env :=
  {| HOME_TYPES := HOME_TYPES Sample.env;
     ZILLOW_URL := ZILLOW_URL Sample.env;
     ZILLOW_HOMES_URL := ZILLOW_HOMES_URL Sample.env;
     urljoin := urljoin Sample.env;
     unquote := unquote Sample.env;
     BeautifulSoup := BeautifulSoup Sample.env;
     BeautifulSoup_fragment := parse_fragment;
     str_of_bytes := str_of_bytes Sample.env;
     str_of_texts := str_of_texts Sample.env;
     now := now Sample.env |}.

(** [scrape_url(zpid=n)] on that site. *)
Definition scrape (n : Z) : list event * result Dict :=
  run (scrape_url env None (Some n) 10 Sample.get true).

End Faulty.

(** ** The classification of facts, as the specification words it

    Six rules, tried in a fixed order; the first whose condition holds is
    the one that handles the fact.  The rules are written here from the
    words of the specification, with the readings the code forces on
    them, and not from the branches of [_parse_facts]: the conditions
    speak of the text, the actions of the parts of the text they store. *)

Inductive rule : Type :=
| HomeType
| Year
| DaysOnZillow
| Extras
| Posted
| Generic.

#[global] Instance rule_eq_dec : EqDecision rule.
Proof. solve_decision. Defined.

Definition rules : list rule := [HomeType; Year; DaysOnZillow; Extras; Posted; Generic].

Definition rank (r : rule) : nat :=
  match r with
  | HomeType => 0
  | Year => 1
  | DaysOnZillow => 2
  | Extras => 3
  | Posted => 4
  | Generic => 5
  end.

(** The text before the first occurrence of the character [c] (the whole
    text when [c] does not occur), and the text after that occurrence. *)
Fixpoint text_before (c : ascii) (s : string) : string :=
  match s with
  | EmptyString => EmptyString
  | String a s' => if Ascii.eqb a c then EmptyString else String a (text_before c s')
  end.

Fixpoint text_after (c : ascii) (s : string) : option string :=
  match s with
  | EmptyString => None
  | String a s' => if Ascii.eqb a c then Some s' else text_after c s'
  end.

(** The split on the first colon, as the specification words the generic
    rule: the key before it and the value after it. *)
Definition split_first_colon (text : string) : option (string * string) :=
  match text_after ":" text with
  | Some value => Some (text_before ":" text, value)
  | None => None
  end.

(** The digits a text begins with, and what follows them. *)
Fixpoint leading_digits (s : string) : string :=
  match s with
  | EmptyString => EmptyString
  | String a s' => if Re.digit a then String a (leading_digits s') else EmptyString
  end.

Fixpoint after_digits (s : string) : string :=
  match s with
  | EmptyString => EmptyString
  | String a s' => if Re.digit a then after_digits s' else s
  end.

(** What follows the prefix [p] of a text, if the text begins with [p]. *)
Definition after_prefix (p s : string) : option string :=
  if String.prefix p s then Some (Str.drop (String.length p) s) else None.

(** The year of construction: the digits after the first [Built in ]
    that a digit follows. *)
Fixpoint build_year (text : string) : option string :=
  let here :=
    match after_prefix "Built in " text with
    | Some rest => if String.eqb (leading_digits rest) "" then None
                   else Some (leading_digits rest)
    | None => None
    end in
  match here, text with
  | Some year, _ => Some year
  | None, String _ text' => build_year text'
  | None, EmptyString => None
  end.

(** The count of days: the first run of digits, read from any place of
    the text to the end of the run, that [ days] follows. *)
Fixpoint day_count (text : string) : option string :=
  let here :=
    if String.eqb (leading_digits text) "" then None
    else if String.prefix " days" (after_digits text) then Some (leading_digits text)
    else None in
  match here, text with
  | Some count, _ => Some count
  | None, String _ text' => day_count text'
  | None, EmptyString => None
  end.

(** The text with every [ #] and every [# ] deleted, from left to
    right. *)
Definition hash_pair (a b : ascii) : bool :=
  (Ascii.eqb a " " && Ascii.eqb b "#") || (Ascii.eqb a "#" && Ascii.eqb b " ").

Fixpoint remove_hashes (s : string) : string :=
  match s with
  | EmptyString => EmptyString
  | String a s' =>
      match s' with
      | EmptyString => String a EmptyString
      | String b s'' =>
          if hash_pair a b then remove_hashes s'' else String a (remove_hashes s')
      end
  end.

(** The key of a generic fact: white space around the label removed,
    spaces turned into underscores, letters into lower case. *)
Definition normalise_key (label : string) : string :=
  Str.lower (Str.replace " " "_" (Str.strip label)).

Section Classification.
Variable env : Env.

(** The condition of a rule, taken on its own. *)
Definition applies (r : rule) (text : string) : bool :=
  match r with
  | HomeType => bool_decide (text ∈ HOME_TYPES env)
  | Year => Str.contains "Built in" text
  | DaysOnZillow => Str.contains "days on Zillow" text
  | Extras => negb (Str.contains ":" text)
  | Posted => Str.contains "Posted" text
  | Generic => true
  end.

(** What a rule does with a fact.
    - Home type: the text is the home type.
    - Year, days on Zillow: the year and the count defined above; a
      text without them is an [IndexError].
    - Extras: the text is appended to the list under [extras], which is
      created when the key is absent; a value under [extras] that is no
      list is an [AttributeError].
    - Posted: from the text without its hashes, the first word of the
      text between the first and the second colon, read as a number of
      days and taken off the current time.
    - Generic: from the text without its hashes, the text between the
      first and the second colon, stored under the normalised text
      before the first colon. *)
Definition act (r : rule) (parsed_facts : Dict) (text : string) : result Dict :=
  match r with
  | HomeType => Ok (<["home_type" := VStr text]> parsed_facts)
  | Year =>
      match build_year text with
      | Some year => Ok (<["year" := VStr year]> parsed_facts)
      | None => Raise IndexError
      end
  | DaysOnZillow =>
      match day_count text with
      | Some count => Ok (<["days_on_zillow" := VStr count]> parsed_facts)
      | None => Raise IndexError
      end
  | Extras =>
      match parsed_facts !! "extras" with
      | None => Ok (<["extras" := VList [VStr text]]> parsed_facts)
      | Some (VList l) => Ok (<["extras" := VList (l ++ [VStr text])]> parsed_facts)
      | Some _ => Raise AttributeError
      end
  | Posted =>
      match text_after ":" (remove_hashes text) with
      | Some rest =>
          let word := text_before " " (Str.strip (text_before ":" rest)) in
          n ← int_of_string word;
          posted_date ← minus_days (now env) n;
          Ok (<["posted" := VDatetime posted_date]> parsed_facts)
      | None => Raise IndexError
      end
  | Generic =>
      let cleaned := remove_hashes text in
      match text_after ":" cleaned with
      | Some rest =>
          Ok (<[normalise_key (text_before ":" cleaned)
                := VStr (Str.strip (text_before ":" rest))]> parsed_facts)
      | None => Raise IndexError
      end
  end.

(** A rule fires when its condition holds and no rule before it applies. *)
Definition fires (r : rule) (text : string) : Prop :=
  applies r text = true ∧ ∀ r', (rank r' < rank r)%nat → applies r' text = false.

(** The first rule, in the stated order, whose condition holds. *)
Definition classify (text : string) : rule :=
  default Generic (List.find (fun r => applies r text) rules).

End Classification.

(** ** The extraction between the fetch and the history step *)

Section Fields.
Variable env : Env.

(** The statements of [scrape_url] from [_get_property_summary] to
    [_get_location_data], which use the document only. *)
Definition extract_fields (soup : Soup) : result Dict :=
  results ← _get_property_summary soup;
  facts ← _parse_facts env (_get_fact_list soup);
  let results := update results facts in
  sale_info ← _get_sale_info env soup;
  let results := update results sale_info in
  description ← _get_description soup;
  let results := <["description" := VStr description]> results in
  let results := <["photos" := VList (VStr <$> _get_photos soup)]> results in
  location_data ← _get_location_data env soup;
  Ok (<["location_data" := location_data]> results).

(** The keys of the property summary and of the initial sale info, and
    the keys [scrape_url] assigns after the sale info is merged. *)
Definition summary_keys : list string :=
  ["bedrooms"; "bathrooms"; "sqft"; "city"; "state"; "zipcode"].
Definition sale_keys : list string :=
  ["price"; "status"; "zestimate"; "rent_zestimate"].
Definition later_keys : list string :=
  ["description"; "photos"; "location_data"; "price_history"; "tax_history"].

End Fields.

(** ** Auxiliary definitions for the statements *)

(** A response body whose fragment holds no table: the envelope is
    there, and the parser finds no [table] in the unescaped fragment. *)
Definition no_table (env : Env) (html : string) : Prop :=
  ∃ m, Re.search envelope (str_of_bytes env html) = Some m
       ∧ BeautifulSoup_fragment env (unescape (Re.group m 1)) = None.

(** A pattern without a group numbered [n]. *)
Fixpoint no_group (n : nat) (r : Re.regex) : bool :=
  match r with
  | Re.Eps | Re.Chr _ => true
  | Re.Cat r1 r2 | Re.Alt r1 r2 => no_group n r1 && no_group n r2
  | Re.Star r' => no_group n r'
  | Re.Grp m r' => negb (Nat.eqb m n) && no_group n r'
  end.

(** Every key [_get_sale_info] can set: the four it starts from and the
    ones made from the labels of the pricing pattern. *)
Definition sale_info_keys : list string :=
  ["price"; "status"; "zestimate"; "rent_zestimate"; "foreclosure_estimate";
   "below_zestimate"; "sold_on"; "sold"; "price_cut"].

(** A dictionary whose keys are all among [allowed]. *)
Definition keys_within (allowed : list string) (d : Dict) : Prop :=
  ∀ k, is_Some (d !! k) → k ∈ allowed.

(** The row the specification describes, for the cells of a tax-table
    row with at least four columns whose tax cell has a first child: the
    text of column 0, that first child of column 1, and the text of
    column 3.  A row with fewer columns, or with an empty tax cell, has
    none. *)
Inductive tax_row_of : list Cell → value → Prop :=
| tax_row_of_cols (date tax_cell skipped assessment : Cell) (rest : list Cell)
    (tax : PageElement) :
    contents tax_cell !! 0%nat = Some tax →
    tax_row_of (date :: tax_cell :: skipped :: assessment :: rest)
      (VList [VStr (get_text date); VElem tax; VStr (get_text assessment)]).

(** The integer a sign and a coefficient stand for. *)
Definition signed (neg : bool) (c : N) : Z := if neg then - Z.of_N c else Z.of_N c.

(** The coordinates of the worked example: 40.123456 and -74.654321. *)
Definition latitude_40 : Decimal.t := Decimal.Fin false 40123456 (-6).
Definition longitude_74 : Decimal.t := Decimal.Fin true 74654321 (-6).

(** How a history step changes the result: it stores rows under its key,
    leaves the result alone, or raises. *)
Definition history_outcome (key : string) (o : result (option (list value)))
    (results : Dict) : result Dict :=
  match o with
  | Ok (Some rows) => Ok (<[key := VList rows]> results)
  | Ok None => Ok results
  | Raise e => Raise e
  end.

(** What [re.sub] makes of its matches when the replacement is empty:
    the texts between them, then the rest after the last one. *)
Definition unmatched (ms : list Re.rmatch) (whole : list ascii) : list ascii :=
  concat ((fun m => Re.m_pre m ++ []) <$> ms)
  ++ match last ms with
     | Some m => Re.m_rest m
     | None => whole
     end.

(** ** What the patterns match

    The words of a pattern, and the texts its groups can capture. *)

(** The words a pattern matches. *)
Inductive lang : Re.regex → list ascii → Prop :=
| lang_eps : lang Re.Eps []
| lang_chr (p : ascii → bool) (a : ascii) : p a = true → lang (Re.Chr p) [a]
| lang_cat (r1 r2 : Re.regex) (t1 t2 : list ascii) :
    lang r1 t1 → lang r2 t2 → lang (Re.Cat r1 r2) (t1 ++ t2)
| lang_alt_l (r1 r2 : Re.regex) (t : list ascii) : lang r1 t → lang (Re.Alt r1 r2) t
| lang_alt_r (r1 r2 : Re.regex) (t : list ascii) : lang r2 t → lang (Re.Alt r1 r2) t
| lang_star_nil (r : Re.regex) : lang (Re.Star r) []
| lang_star_cons (r : Re.regex) (t1 t2 : list ascii) :
    lang r t1 → lang (Re.Star r) t2 → lang (Re.Star r) (t1 ++ t2)
| lang_grp (n : nat) (r : Re.regex) (t : list ascii) : lang r t → lang (Re.Grp n r) t.

(** The bodies of the groups numbered [n] in a pattern. *)
Fixpoint bodies (r : Re.regex) (n : nat) : list Re.regex :=
  match r with
  | Re.Eps | Re.Chr _ => []
  | Re.Cat r1 r2 | Re.Alt r1 r2 => bodies r1 n ++ bodies r2 n
  | Re.Star r' => bodies r' n
  | Re.Grp m r' => (if Nat.eqb m n then [r'] else []) ++ bodies r' n
  end.

(** A capture a pattern can make: a word of the body of one of its
    groups, under that group's number. *)
Definition captured (r : Re.regex) (p : nat * list ascii) : Prop :=
  ∃ b, b ∈ bodies r (fst p) ∧ lang b (snd p).

(** Group [n] takes part in every match of the pattern. *)
Fixpoint always_captures (r : Re.regex) (n : nat) : bool :=
  match r with
  | Re.Eps | Re.Chr _ | Re.Star _ => false
  | Re.Cat r1 r2 => always_captures r1 n || always_captures r2 n
  | Re.Alt r1 r2 => always_captures r1 n && always_captures r2 n
  | Re.Grp m r' => Nat.eqb m n || always_captures r' n
  end.

(** The pattern with its groups removed. *)
Fixpoint erase (r : Re.regex) : Re.regex :=
  match r with
  | Re.Eps => Re.Eps
  | Re.Chr p => Re.Chr p
  | Re.Cat r1 r2 => Re.Cat (erase r1) (erase r2)
  | Re.Alt r1 r2 => Re.Alt (erase r1) (erase r2)
  | Re.Star r' => Re.Star (erase r')
  | Re.Grp _ r' => erase r'
  end.

(** ** Forms of the extracted values *)

(** Every character of [s] satisfies [p]. *)
Definition all_chars (p : ascii → bool) (s : string) : bool :=
  forallb p (Str.to_list s).


(** The statuses of the status pattern. *)
Definition status_labels : list string :=
  ["For Sale"; "Auction"; "Make Me Move"; "For Rent"; "Pre-Foreclosure"; "Off Market"].

(** What the sale info holds under [status] and [price], and the kind of
    its values. *)
Definition sale_info_values (d : Dict) : Prop :=
  (∃ v, d !! "status" = Some v
        ∧ (v = VNone ∨ ∃ l, l ∈ status_labels ∧ v = VStr l))
  ∧ (∃ v, d !! "price" = Some v
          ∧ (v = VNone
             ∨ ∃ s, v = VStr s ∧ s ≠ ""
                    ∧ all_chars (fun a => Re.digit a || Re.one_of "," a) s = true))
  ∧ ∀ k v, d !! k = Some v → v = VNone ∨ ∃ s, v = VStr s.

(** What follows the address in a descriptor of the page:
    [",customEvent:"CollapsibleModule:expandSection",jsModule:"] and the
    label. *)
Definition ajax_marker (label : string) : string :=
  dquote +:+ ",customEvent:" +:+ dquote +:+ "CollapsibleModule:expandSection" +:+ dquote
  +:+ ",jsModule:" +:+ dquote +:+ label.

(** The form of an address the descriptor pattern captures. *)
Definition ajax_path (c h : ascii) (params id : string) : string :=
  "/AjaxRender" +:+ String c ("htm?encparams=" +:+ params +:+ "&rwebid=" +:+ id
                              +:+ "&rhost=" +:+ String h "").

(** The events the history step can add to a trace: a request, with the
    caller's timeout, of an address under
    [http://www.zillow.com/AjaxRender]; one of the two messages; the
    logging of a [NullResultException]. *)
Definition history_event (timeout : Z) (ev : event) : Prop :=
  match ev with
  | Get a τ => τ = timeout ∧ String.prefix "http://www.zillow.com/AjaxRender" a = true
  | Print message => message = price_history_message ∨ message = tax_history_message
  | LogException e => e = NullResultException
  end.

(** The row [_get_price_history] reads off the cells of a table row: the
    texts of the first two cells, and the text of the first [span] of the
    third cell, or [None] when there is no third cell or no [span] in
    it. *)
Inductive price_row_of : list Cell → value → Prop :=
| price_row_of_two (date event : Cell) :
    price_row_of [date; event] (VList [VStr (get_text date); VStr (get_text event); VNone])
| price_row_of_no_span (date event price : Cell) (rest : list Cell) :
    find_span price = None →
    price_row_of (date :: event :: price :: rest)
      (VList [VStr (get_text date); VStr (get_text event); VNone])
| price_row_of_span (date event price : Cell) (rest : list Cell) (text : string) :
    find_span price = Some text →
    price_row_of (date :: event :: price :: rest)
      (VList [VStr (get_text date); VStr (get_text event); VStr text]).

(** A row too short for [_get_price_history], and one
    [_get_tax_history] cannot read. *)
Definition short_price_row (cols : list Cell) : Prop := (length cols < 2)%nat.
Definition bad_tax_row (cols : list Cell) : Prop :=
  (length cols < 4)%nat ∨ ∃ tax_cell, cols !! 1%nat = Some tax_cell ∧ contents tax_cell = [].

Module Broken.

(** A client that answers every request with the same body, and a parser
    that finds the same table in every fragment. *)
Definition get (body : string) : RequestClass := fun address timeout =>
  Ok {| status_code := 200; url := address; content := body |}.

Definition env (table : Fragment) : Env :=
  {| HOME_TYPES := HOME_TYPES Sample.env;
     ZILLOW_URL := ZILLOW_URL Sample.env;
     ZILLOW_HOMES_URL := ZILLOW_HOMES_URL Sample.env;
     urljoin := urljoin Sample.env;
     unquote := unquote Sample.env;
     BeautifulSoup := BeautifulSoup Sample.env;
     BeautifulSoup_fragment := fun _ => table;
     str_of_bytes := str_of_bytes Sample.env;
     str_of_texts := str_of_texts Sample.env;
     now := now Sample.env |}.

(** A table one of whose rows has a single cell, as a header or a
    separator row has. *)
Definition short_table : TableBody :=
  [[Sample.cell "01/02/14"; Sample.cell "Sold"; Sample.price_cell "$430,000"];
   [Sample.cell "Show more"]].

End Broken.

(** The address an image stands for: its [href] when it has one, else
    its [src], else nothing (the empty text). *)
Definition shown (i : Attrs) : string :=
  match i !! "href", i !! "src" with
  | Some href, _ => href
  | None, Some src => src
  | None, None => ""
  end.

(** Where a coordinate of the location data comes from: the marker
    comment, as a decimal that is not zero, or the attribute [key] of the
    coordinates element, as its text. *)
Definition coordinate_from (soup : Soup) (key : string) (coord : value) : Prop :=
  (∃ d, coord = VDecimal d ∧ Decimal.truthy d = true ∧ is_Some (home_marker_data soup))
  ∨ (∃ attrs s, map_coordinates soup = Some attrs ∧ attrs !! key = Some s ∧ coord = VStr s).

(** * Properties *)

(** Matching and decimal arithmetic are run on closed terms only. *)
#[global] Arguments Re.findall : simpl never.
#[global] Arguments Re.findall_groups : simpl never.
#[global] Arguments Re.search : simpl never.
#[global] Arguments Re.sub : simpl never.
#[global] Arguments Decimal.of_string : simpl never.
#[global] Arguments Decimal.truediv : simpl never.
#[global] Arguments int_of_string : simpl never.
#[global] Arguments Str.split : simpl never.
#[global] Arguments Str.strip_by : simpl never.
#[global] Arguments Str.replace : simpl never.
#[global] Arguments Str.contains : simpl never.
#[global] Arguments Decimal.truthy : simpl never.
#[global] Arguments coordinates : simpl never.
#[global] Arguments address : simpl never.

Lemma result_bind_ok {A B} (a : A) (f : A → result B) : (Ok a ≫= f) = f a.
Proof. reflexivity. Qed.

(** Unfold the plumbing of [M] and reduce the matches it exposes. *)
Ltac mstep :=
  unfold mbind, M_bind, mret, M_ret, lift, emit, try_catch, fmap, M_fmap;
  cbv beta iota zeta.

(** Unfold the plumbing of [result] and reduce the matches it exposes. *)
Ltac rstep :=
  unfold mbind, result_bind, fmap, result_fmap, try_except;
  cbv beta iota zeta.

(** ** Checks of the string, pattern and decimal models *)

Example split_colon : Str.split ":" "Lot: 5,000 sqft" = ["Lot"; " 5,000 sqft"].
Proof. reflexivity. Qed.

Example split_trailing : Str.split ":" "a:" = ["a"; ""].
Proof. reflexivity. Qed.

Example replace_comma : Str.replace " ," ", " "1 Main St ,Town ,NY" = "1 Main St, Town, NY".
Proof. reflexivity. Qed.

Example strip_brackets :
  Str.strip_char "]" (Str.strip_char "[" "[[1,2]") = "1,2".
Proof. reflexivity. Qed.

Example strip_ws : Str.strip "  Lot  " = "Lot".
Proof. reflexivity. Qed.

Example re_digits_days : Re.findall (Re.Cat (Re.Grp 1 (Re.Plus (Re.Chr Re.digit))) (Re.lit " days")) "on 12 days and 7 days" = ["12"; "7"].
Proof. reflexivity. Qed.

Example re_sub_hash : Re.sub (Re.Alt (Re.lit " #") (Re.lit "# ")) "" "MLS #: 12 # 3" = "MLS: 12 3".
Proof. reflexivity. Qed.

Example decimal_parse_plain : Decimal.of_string " -74654321" = Ok (Decimal.Fin true 74654321 0).
Proof. reflexivity. Qed.

Example decimal_parse_frac : Decimal.of_string "12.50e-3" = Ok (Decimal.Fin false 1250 (-5)).
Proof. reflexivity. Qed.

Example decimal_parse_junk : Decimal.of_string "12a" = Raise InvalidOperation.
Proof. reflexivity. Qed.

Example decimal_parse_nan : Decimal.of_string "snan" = Ok (Decimal.NaN true).
Proof. reflexivity. Qed.

Example decimal_third :
  Decimal.truediv (Decimal.Fin false 1 0) (Decimal.Fin false 3 0)
  = Ok (Decimal.Fin false 3333333333333333333333333333 (-28)).
Proof. vm_compute. reflexivity. Qed.

Example decimal_two_thirds :
  Decimal.truediv (Decimal.Fin false 2 0) (Decimal.Fin false 3 0)
  = Ok (Decimal.Fin false 6666666666666666666666666667 (-28)).
Proof. vm_compute. reflexivity. Qed.

Example decimal_micro :
  Decimal.truediv (Decimal.Fin false 40123456 0) Decimal.million
  = Ok (Decimal.Fin false 40123456 (-6)).
Proof. vm_compute. reflexivity. Qed.

Example fact_generic_second_colon :
  fact_generic ∅ "Open house: Sat 10:30 am" = Ok (<["open_house" := VStr "Sat 10"]> ∅).
Proof. reflexivity. Qed.

Example fact_posted_three_days :
  fact_posted Sample.env ∅ "Posted: 3 days ago"
  = Ok (<["posted" := VDatetime (now Sample.env - 3 * day_us)]> ∅).
Proof. reflexivity. Qed.

Example fact_year_without_number :
  parse_fact Sample.env ∅ "Built in the fifties" = Raise IndexError.
Proof. reflexivity. Qed.

Example fact_extras_on_a_string :
  parse_fact Sample.env (<["extras" := VStr "pool"]> ∅) "Has garage" = Raise AttributeError.
Proof. reflexivity. Qed.

Example classify_by_priority :
  classify Sample.env "Posted: 3 days on Zillow" = DaysOnZillow
  ∧ classify Sample.env "Posted 3 weeks ago" = Extras
  ∧ classify Sample.env "Posted: 3 weeks ago" = Posted.
Proof. repeat split; reflexivity. Qed.

Example photos_of_the_listing :
  _get_photos Sample.listing = ["http://photos/1.jpg"; "http://photos/2.jpg"].
Proof. reflexivity. Qed.

Example validate_address_with_marker :
  validate_scraper_input Sample.env (Some "http://www.zillow.com/homes/9_zpid/") None
  = Ok "http://www.zillow.com/homes/9_zpid/".
Proof. reflexivity. Qed.

Example fetch_of_an_unknown_page :
  run (get_raw_html Sample.env "http://www.zillow.com/homes/0_zpid/" 10 Sample.get)
  = ([Get "http://www.zillow.com/homes/0_zpid/" 10], Raise PyException).
Proof. reflexivity. Qed.

Example price_history_of_the_listing :
  run (_get_price_history Sample.env (Sample.site +:+ Sample.price_path) 10 Sample.get)
  = ([Get (Sample.site +:+ Sample.price_path) 10], Ok Sample.price_rows).
Proof. vm_compute. reflexivity. Qed.

Example scrape_without_descriptors :
  fst (Sample.scrape 8)
  = [Get "http://www.zillow.com/homes/8_zpid/(index)/" 10;
     Print price_history_message; LogException NullResultException;
     Print tax_history_message; LogException NullResultException].
Proof. vm_compute. reflexivity. Qed.

(** ** The matcher *)

Section RegexFacts.
Context {X : Type}.
Implicit Types (s : list ascii) (c : Re.caps) (k : list ascii → Re.caps → option X).

(** A literal matches itself only. *)
Lemma run_lit (l : string) s c k (x : X) :
  Re.run (Re.lit l) s c k = Some x →
  ∃ rest, s = Str.to_list l ++ rest ∧ k rest c = Some x.
Proof.
  revert s. induction l as [|a l IH]; intros s H; simpl in H.
  - by exists s.
  - destruct s as [|a' s]; [discriminate|].
    destruct (Ascii.eqb_spec a a') as [<-|]; [|discriminate].
    destruct (IH _ H) as (rest & -> & Hk). by exists rest.
Qed.

(** An alternation of literals matches one of them. *)
Lemma run_alts (labels : list string) s c k (x : X) :
  Re.run (Re.alts labels) s c k = Some x →
  ∃ l rest, l ∈ labels ∧ s = Str.to_list l ++ rest ∧ k rest c = Some x.
Proof.
  induction labels as [|l labels IH]; intros H.
  - simpl in H. by destruct s.
  - destruct labels as [|l' labels].
    + destruct (run_lit _ _ _ _ _ H) as (rest & Hs & Hk).
      exists l, rest. split; [by left | done].
    + change (Re.alts (l :: l' :: labels))
        with (Re.Alt (Re.lit l) (Re.alts (l' :: labels))) in H.
      simpl in H.
      destruct (Re.run (Re.lit l) s c k) as [y|] eqn:E.
      * injection H as ->. destruct (run_lit _ _ _ _ _ E) as (rest & Hs & Hk).
        exists l, rest. split; [by left | done].
      * destruct (IH H) as (l0 & rest & Hl & Hs & Hk).
        exists l0, rest. split; [by right | done].
Qed.

Lemma group_of_other c (m n : nat) (t : list ascii) :
  m ≠ n → Re.group_of ((m, t) :: c) n = Re.group_of c n.
Proof.
  intros Hne. unfold Re.group_of. simpl.
  by destruct (Nat.eqb_spec m n).
Qed.

(** Matching a pattern without group [n] leaves the capture of group [n]
    as it was. *)
Lemma run_keeps_group (n : nat) (r : Re.regex) :
  no_group n r = true →
  ∀ s c k (x : X),
    Re.run r s c k = Some x →
    ∃ rest c', k rest c' = Some x ∧ Re.group_of c' n = Re.group_of c n.
Proof.
  induction r as [| p | r1 IH1 r2 IH2 | r1 IH1 r2 IH2 | r' IH | m r' IH];
    intros Hn s c k x H; simpl in Hn.
  - by exists s, c.
  - simpl in H. destruct s as [|a s]; [discriminate|].
    destruct (p a); [|discriminate]. by exists s, c.
  - apply andb_prop in Hn as [Hn1 Hn2]. simpl in H.
    destruct (IH1 Hn1 _ _ _ _ H) as (rest1 & c1 & H1 & Hg1).
    destruct (IH2 Hn2 _ _ _ _ H1) as (rest2 & c2 & H2 & Hg2).
    exists rest2, c2. split; [done|]. by rewrite Hg2.
  - apply andb_prop in Hn as [Hn1 Hn2]. simpl in H.
    destruct (Re.run r1 s c k) as [y|] eqn:E.
    + injection H as ->. by apply (IH1 Hn1 _ _ _ _ E).
    + by apply (IH2 Hn2 _ _ _ _ H).
  - simpl in H. remember (length s) as fuel eqn:Hfuel in H. clear Hfuel.
    revert s c H. induction fuel as [|fuel IHf]; intros s c H.
    + by exists s, c.
    + match type of H with
      | match ?scrut with _ => _ end = _ => destruct scrut as [y|] eqn:E
      end.
      * injection H as ->.
        destruct (IH Hn _ _ _ _ E) as (rest1 & c1 & H1 & Hg1).
        destruct (length rest1 <? length s)%nat; [|discriminate].
        destruct (IHf _ _ H1) as (rest2 & c2 & H2 & Hg2).
        exists rest2, c2. split; [done|]. by rewrite Hg2.
      * by exists s, c.
  - apply andb_prop in Hn as [Hm Hn']. simpl in H.
    destruct (IH Hn' _ _ _ _ H) as (rest1 & c1 & H1 & Hg1).
    exists rest1, ((m, Re.consumed s rest1) :: c1). split; [done|].
    rewrite group_of_other; [done|].
    apply negb_true_iff in Hm. by apply Nat.eqb_neq.
Qed.

End RegexFacts.

Lemma consumed_prefix (l rest : list ascii) : Re.consumed (l ++ rest) rest = l.
Proof.
  unfold Re.consumed. rewrite length_app.
  replace (length l + length rest - length rest)%nat with (length l) by lia.
  by rewrite take_app_length.
Qed.

Lemma search_go_caps (r : Re.regex) (pre s : list ascii) (m : Re.rmatch) :
  Re.search_go r pre s = Some m →
  ∃ s' rest, Re.match_here r s' = Some (rest, Re.m_caps m).
Proof.
  revert pre. induction s as [|a s IH]; intros pre H; simpl in H.
  - destruct (Re.match_here r []) as [[rest c]|] eqn:E; [|discriminate].
    injection H as <-. by exists [], rest.
  - destruct (Re.match_here r (a :: s)) as [[rest c]|] eqn:E.
    + injection H as <-. by exists (a :: s), rest.
    + by apply IH in H.
Qed.

(** The first group of a match of the pricing pattern is one of its
    labels. *)
Lemma pricing_group_1 (s rest : list ascii) (c : Re.caps) :
  Re.match_here Pat.pricing s = Some (rest, c) →
  Re.group_of c 1 ∈ Pat.pricing_labels.
Proof.
  unfold Re.match_here, Pat.pricing.
  change (Re.run (Re.Cat (Re.Grp 1 (Re.alts Pat.pricing_labels)) Pat.pricing_amount)
            s [] (fun rest c => Some (rest, c)))
    with (Re.run (Re.alts Pat.pricing_labels) s []
            (fun rest1 c1 =>
               Re.run Pat.pricing_amount rest1 ((1%nat, Re.consumed s rest1) :: c1)
                 (fun rest c => Some (rest, c)))).
  intros H.
  destruct (run_alts _ _ _ _ _ H) as (l & rest1 & Hl & -> & Htail).
  destruct (run_keeps_group 1 Pat.pricing_amount eq_refl _ _ _ _ Htail)
    as (rest2 & c2 & Hk & Hg).
  injection Hk as _ <-. rewrite Hg, consumed_prefix.
  unfold Re.group_of. simpl.
  unfold Str.of_list, Str.to_list. by rewrite string_of_list_ascii_of_string.
Qed.

Lemma pricing_first_label (row_text : string) (first : list string) (label : string) :
  getitem (Re.findall_groups Pat.pricing row_text) 0 = Ok first →
  getitem first 0 = Ok label →
  label ∈ Pat.pricing_labels.
Proof.
  unfold Re.findall_groups, Re.matches. simpl Re.matches_go.
  destruct (Re.search_go Pat.pricing [] (Str.to_list row_text)) as [m|] eqn:E;
    [|discriminate].
  change (Re.ngroups Pat.pricing) with 2%nat.
  unfold getitem. simpl. intros [= <-] [= <-].
  destruct (search_go_caps _ _ _ _ E) as (s' & rest & Hm).
  by apply pricing_group_1 in Hm.
Qed.

Lemma pricing_property (label : string) :
  label ∈ Pat.pricing_labels →
  Str.lower (Str.replace " " "_" (Str.strip label)) ∈ sale_info_keys.
Proof.
  unfold Pat.pricing_labels. rewrite !elem_of_cons.
  intros [->|[->|[->|[->|[->|[->|[->|H]]]]]]];
    [ (apply list_elem_of_In; vm_compute; tauto) .. | by apply not_elem_of_nil in H ].
Qed.

(** ** Input validation *)

Section ValidationFacts.
Variable env : Env.

Lemma given_str_true (u : string) : u ≠ "" → given_str (Some u) = true.
Proof. intros Hu. destruct u; [congruence | reflexivity]. Qed.

Lemma given_int_true (z : Z) : z ≠ 0 → given_int (Some z) = true.
Proof. intros Hz. simpl. destruct (Z.eqb_spec z 0); [lia | reflexivity]. Qed.

Lemma validate_both (u : string) (z : Z) :
  u ≠ "" → z ≠ 0 → validate_scraper_input env (Some u) (Some z) = Raise ValueError.
Proof.
  intros Hu Hz. unfold validate_scraper_input.
  by rewrite given_str_true, given_int_true.
Qed.

Lemma validate_neither : validate_scraper_input env None None = Raise ValueError.
Proof. reflexivity. Qed.

Lemma validate_no_marker (u : string) (zpid : option Z) :
  u ≠ "" → Str.contains "homes" u = false →
  validate_scraper_input env (Some u) zpid = Raise ValueError.
Proof.
  intros Hu Hc. unfold validate_scraper_input.
  rewrite given_str_true by done. simpl. rewrite Hc. simpl.
  by destruct (given_int zpid).
Qed.

Lemma validate_address (u : string) :
  u ≠ "" → Str.contains "homes" u = true →
  validate_scraper_input env (Some u) None = Ok u.
Proof.
  intros Hu Hc. unfold validate_scraper_input.
  rewrite given_str_true by done. simpl. by rewrite Hc.
Qed.

Lemma validate_identifier (z : Z) :
  z ≠ 0 →
  validate_scraper_input env None (Some z)
  = Ok (urljoin env (ZILLOW_URL env) ("homes/" +:+ pretty z +:+ "_zpid/(index)/")).
Proof.
  intros Hz. unfold validate_scraper_input.
  rewrite given_int_true by done. reflexivity.
Qed.

(** The empty string and the number zero count as not given. *)
Lemma validate_empty_address (zpid : option Z) :
  validate_scraper_input env (Some "") zpid = validate_scraper_input env None zpid.
Proof. reflexivity. Qed.

Lemma validate_zero_identifier (address : option string) :
  validate_scraper_input env address (Some 0) = validate_scraper_input env address None.
Proof. by destruct address as [[|a u]|]. Qed.

(** A rejected input ends the scrape before anything is requested or
    logged. *)
Lemma scrape_url_invalid address zpid timeout rc flag e (t : list event) :
  validate_scraper_input env address zpid = Raise e →
  scrape_url env address zpid timeout rc flag t = (t, Raise e).
Proof.
  intros Hv. unfold scrape_url, mbind, M_bind, lift. by rewrite Hv.
Qed.

End ValidationFacts.

(** C3 (as amended).  An address counts as given when it is a non-empty
    string, an identifier when it is a non-zero number.  With both given,
    validation fails with [ValueError]; with neither, it fails; with an
    address that does not contain the listing marker [homes], it fails
    whatever the identifier; with a non-zero identifier alone, it returns
    the address made by substituting the identifier into the template and
    joining it to the site; the empty string and zero are treated as
    absent.  Validation is a pure function, and a rejected input ends
    [scrape_url] with the trace unchanged. *)
Theorem validate_scraper_input_contract (env : Env) (u : string) (z : Z) :
  u ≠ "" → z ≠ 0 →
  validate_scraper_input env (Some u) (Some z) = Raise ValueError
  ∧ validate_scraper_input env None None = Raise ValueError
  ∧ (Str.contains "homes" u = false →
     ∀ zpid, validate_scraper_input env (Some u) zpid = Raise ValueError)
  ∧ validate_scraper_input env None (Some z)
    = Ok (urljoin env (ZILLOW_URL env) ("homes/" +:+ pretty z +:+ "_zpid/(index)/"))
  ∧ (∀ zpid, validate_scraper_input env (Some "") zpid
             = validate_scraper_input env None zpid)
  ∧ (∀ address, validate_scraper_input env address (Some 0)
                = validate_scraper_input env address None)
  ∧ (∀ address zpid timeout rc flag e t,
       validate_scraper_input env address zpid = Raise e →
       scrape_url env address zpid timeout rc flag t = (t, Raise e)).
Proof.
  intros Hu Hz. repeat split.
  - by apply validate_both.
  - intros Hc zpid. by apply validate_no_marker.
  - by apply validate_identifier.
  - apply validate_zero_identifier.
  - intros. by apply scrape_url_invalid.
Qed.

Lemma validate_scraper_input_contract_witness :
  "http://www.zillow.com/b/1" ≠ "" ∧ 1 ≠ 0
  ∧ validate_scraper_input Sample.env (Some "http://www.zillow.com/b/1") (Some 1)
    = Raise ValueError
  ∧ validate_scraper_input Sample.env (Some "http://www.zillow.com/b/1") None
    = Raise ValueError
  ∧ validate_scraper_input Sample.env None (Some 1)
    = Ok "http://www.zillow.com/homes/1_zpid/(index)/".
Proof.
  assert (Hu : "http://www.zillow.com/b/1" ≠ "") by discriminate.
  assert (Hz : 1 ≠ 0) by lia.
  destruct (validate_scraper_input_contract Sample.env _ _ Hu Hz)
    as (Hboth & _ & Hmarker & Hid & _).
  split; [exact Hu|]. split; [exact Hz|]. split; [exact Hboth|].
  split; [apply Hmarker; reflexivity | exact Hid].
Defined.

(** C3 as stated fails at the identifier zero: alone it is rejected, and
    next to an address it is ignored. *)
Lemma validate_scraper_input_zero_identifier :
  validate_scraper_input Sample.env None (Some 0) = Raise ValueError
  ∧ validate_scraper_input Sample.env (Some "http://www.zillow.com/homes/1_zpid/") (Some 0)
    = Ok "http://www.zillow.com/homes/1_zpid/".
Proof. split; reflexivity. Qed.

(** ** Fact classification *)

(** *** Fields of a text *)

Lemma append_nil_r (s : string) : s +:+ "" = s.
Proof.
  induction s as [|a s IH]; [done|].
  change (String a (s +:+ "") = String a s). by rewrite IH.
Qed.

Lemma append_assoc (s1 s2 s3 : string) : (s1 +:+ s2) +:+ s3 = s1 +:+ (s2 +:+ s3).
Proof.
  induction s1 as [|a s1 IH]; [done|].
  change (String a ((s1 +:+ s2) +:+ s3) = String a (s1 +:+ (s2 +:+ s3))). by rewrite IH.
Qed.

(** [s.split(c)]: the text before the first [c], then the split of the
    text after it. *)
Lemma split_go_fields (c : ascii) (cur s : string) :
  Str.split_go c cur s
  = (cur +:+ text_before c s)
    :: match text_after c s with
       | Some rest => Str.split_go c "" rest
       | None => []
       end.
Proof.
  revert cur. induction s as [|a s IH]; intros cur; simpl.
  - by rewrite append_nil_r.
  - destruct (Ascii.eqb a c).
    + by rewrite append_nil_r.
    + rewrite IH, append_assoc. reflexivity.
Qed.

Lemma split_fields (c : ascii) (s : string) :
  Str.split c s
  = text_before c s
    :: match text_after c s with
       | Some rest => Str.split c rest
       | None => []
       end.
Proof. unfold Str.split. by rewrite split_go_fields. Qed.

Lemma split_first (c : ascii) (s : string) : getitem (Str.split c s) 0 = Ok (text_before c s).
Proof. by rewrite split_fields. Qed.

Lemma split_second (c : ascii) (s : string) :
  getitem (Str.split c s) 1
  = match text_after c s with
    | Some rest => Ok (text_before c rest)
    | None => Raise IndexError
    end.
Proof.
  rewrite split_fields. destruct (text_after c s) as [rest|]; [|done].
  by rewrite split_fields.
Qed.

Lemma contains_char (c : ascii) (s : string) :
  Str.contains (String c "") s = bool_decide (is_Some (text_after c s)).
Proof.
  induction s as [|a s IH].
  - done.
  - change (Str.contains (String c "") (String a s))
      with (String.prefix (String c "") (String a s) || Str.contains (String c "") s).
    rewrite IH. simpl. destruct (ascii_dec c a) as [<-|Hne].
    + rewrite Ascii.eqb_refl. simpl.
      by destruct s.
    + assert (Ascii.eqb a c = false) as -> by (apply Ascii.eqb_neq; congruence). done.
Qed.

(** The test [len(s.split(c)) == 1] holds when [c] does not occur. *)
Lemma split_length_one (c : ascii) (s : string) :
  (length (Str.split c s) =? 1)%nat = negb (Str.contains (String c "") s).
Proof.
  rewrite contains_char, split_fields.
  destruct (text_after c s) as [rest|]; [|done].
  by rewrite split_fields.
Qed.

(** *** The patterns of the fact rules *)

Section GreedyFacts.
Context {X : Type}.
Implicit Types (c : Re.caps) (k : list ascii → Re.caps → option X).

(** A literal matches exactly at the texts that begin with it. *)
Lemma run_lit_prefix (l s : string) c k :
  Re.run (Re.lit l) (Str.to_list s) c k
  = match after_prefix l s with
    | Some rest => k (Str.to_list rest) c
    | None => None
    end.
Proof.
  unfold after_prefix. revert s. induction l as [|a l IH]; intros s.
  - by destruct s.
  - destruct s as [|b s]; [done|].
    change (Re.run (Re.lit (String a l)) (Str.to_list (String b s)) c k)
      with (if Ascii.eqb a b then Re.run (Re.lit l) (Str.to_list s) c k else None).
    rewrite IH. simpl. destruct (ascii_dec a b) as [->|Hne].
    + by rewrite Ascii.eqb_refl.
    + by assert (Ascii.eqb a b = false) as -> by by apply Ascii.eqb_neq.
Qed.

(** A run of digits is matched greedily: when the continuation cannot
    succeed after fewer digits than there are, it is entered after all
    of them. *)
Lemma run_star_digits (s : string) c k :
  (∀ a rest, Re.digit a = true →
             k (Str.to_list (after_digits rest)) c = None →
             k (a :: Str.to_list rest) c = None) →
  Re.run (Re.Star (Re.Chr Re.digit)) (Str.to_list s) c k = k (Str.to_list (after_digits s)) c.
Proof.
  intros Hk. simpl.
  generalize (Nat.le_refl (length (Str.to_list s))).
  generalize (length (Str.to_list s)) at 2 3. intros fuel. revert s.
  induction fuel as [|fuel IH]; intros s Hlen.
  - destruct s; [done | simpl in Hlen; lia].
  - destruct s as [|a s]; [done|]. simpl in Hlen.
    cbn [Str.to_list list_ascii_of_string after_digits].
    destruct (Re.digit a) eqn:Hd; [|done].
    assert (Hlt : (length (Str.to_list s) <? S (length (Str.to_list s)))%nat = true)
      by (apply Nat.ltb_lt; lia).
    unfold Str.to_list in Hlt. simpl. rewrite Hlt.
    fold (Str.to_list s). rewrite IH by lia.
    fold (Str.to_list (after_digits s)).
    destruct (k (Str.to_list (after_digits s)) c) as [x|] eqn:E; [done|].
    by apply Hk.
Qed.

End GreedyFacts.

Lemma leading_after_digits (s : string) :
  Str.to_list s = Str.to_list (leading_digits s) ++ Str.to_list (after_digits s).
Proof.
  induction s as [|a s IH]; [done|]. simpl. destruct (Re.digit a); [|done].
  simpl. f_equal. exact IH.
Qed.

Lemma consumed_digits (s : string) :
  Re.consumed (Str.to_list s) (Str.to_list (after_digits s)) = Str.to_list (leading_digits s).
Proof. rewrite (leading_after_digits s) at 1. apply consumed_prefix. Qed.

Lemma after_digits_no_digit (s : string) (a : ascii) (rest : string) :
  after_digits s = String a rest → Re.digit a = false.
Proof.
  induction s as [|b s IH]; simpl; [done|].
  destruct (Re.digit b) eqn:Hb; [exact IH|]. by intros [= <- <-].
Qed.

(** One or more digits, captured as group [n], before a continuation
    that has to follow the whole run. *)
Lemma run_digits_group {X : Type} (n : nat) (s : string) (c : Re.caps)
    (k : list ascii → Re.caps → option X) :
  (∀ a rest c1 c2, Re.digit a = true →
                   k (Str.to_list (after_digits rest)) c1 = None →
                   k (a :: Str.to_list rest) c2 = None) →
  Re.run (Re.Grp n (Re.Plus (Re.Chr Re.digit))) (Str.to_list s) c k
  = if String.eqb (leading_digits s) "" then None
    else k (Str.to_list (after_digits s)) ((n, Str.to_list (leading_digits s)) :: c).
Proof.
  intros Hk. destruct s as [|a s]; [done|].
  change (Re.run (Re.Grp n (Re.Plus (Re.Chr Re.digit))) (Str.to_list (String a s)) c k)
    with (if Re.digit a
          then Re.run (Re.Star (Re.Chr Re.digit)) (Str.to_list s) c
                 (fun rest c' => k rest ((n, Re.consumed (Str.to_list (String a s)) rest) :: c'))
          else None).
  cbn [leading_digits after_digits]. destruct (Re.digit a) eqn:Hd; [|done].
  rewrite run_star_digits.
  - pose proof (consumed_digits (String a s)) as Hc.
    cbn [leading_digits after_digits] in Hc. rewrite Hd in Hc. by rewrite Hc.
  - intros b rest Hb. apply Hk, Hb.
Qed.

(** The first item of [re.findall] for a pattern with a group: the first
    group of the first match. *)
Lemma findall_first (r : Re.regex) (s : string) :
  (1 ≤ Re.ngroups r)%nat →
  getitem (Re.findall r s) 0
  = match Re.search_go r [] (Str.to_list s) with
    | Some m => Ok (Re.group_of (Re.m_caps m) 1)
    | None => Raise IndexError
    end.
Proof.
  intros Hn. unfold Re.findall, Re.matches.
  replace (Nat.min 1 (Re.ngroups r)) with 1%nat by lia.
  cbn [Re.matches_go]. by destruct (Re.search_go r [] (Str.to_list s)) as [m|].
Qed.

(** A search that tries the pattern at every place of the text, given
    what the pattern does at one place. *)
Lemma search_go_scan (r : Re.regex) (here : string → option string)
    (scan : string → option string) :
  (∀ s, match Re.match_here r (Str.to_list s) with
        | Some (rest, c) => here s = Some (Re.group_of c 1)
        | None => here s = None
        end) →
  (∀ s, scan s = match here s, s with
                 | Some x, _ => Some x
                 | None, String _ s' => scan s'
                 | None, EmptyString => None
                 end) →
  ∀ s pre,
    match Re.search_go r pre (Str.to_list s) with
    | Some m => scan s = Some (Re.group_of (Re.m_caps m) 1)
    | None => scan s = None
    end.
Proof.
  intros Hhere Hscan. induction s as [|a s IH]; intros pre.
  - specialize (Hhere ""). rewrite (Hscan ""). simpl in *.
    destruct (Re.match_here r []) as [[rest c]|]; simpl; by rewrite Hhere.
  - specialize (Hhere (String a s)). rewrite (Hscan (String a s)).
    change (Str.to_list (String a s)) with (a :: Str.to_list s) in *.
    simpl. destruct (Re.match_here r (a :: Str.to_list s)) as [[rest c]|].
    + simpl. by rewrite Hhere.
    + rewrite Hhere. apply IH.
Qed.

Lemma here_built_in (s : string) :
  match Re.match_here Pat.built_in (Str.to_list s) with
  | Some (rest, c) =>
      match after_prefix "Built in " s with
      | Some rest => if String.eqb (leading_digits rest) "" then None
                     else Some (leading_digits rest)
      | None => None
      end = Some (Re.group_of c 1)
  | None =>
      match after_prefix "Built in " s with
      | Some rest => if String.eqb (leading_digits rest) "" then None
                     else Some (leading_digits rest)
      | None => None
      end = None
  end.
Proof.
  unfold Re.match_here, Pat.built_in.
  change (Re.run (Re.Cat (Re.lit "Built in ") (Re.Grp 1 (Re.Plus (Re.Chr Re.digit))))
            (Str.to_list s) [] (fun rest c => Some (rest, c)))
    with (Re.run (Re.lit "Built in ") (Str.to_list s) []
            (fun rest1 c1 => Re.run (Re.Grp 1 (Re.Plus (Re.Chr Re.digit))) rest1 c1
                               (fun rest c => Some (rest, c)))).
  rewrite run_lit_prefix. destruct (after_prefix "Built in " s) as [rest|]; [|done].
  rewrite run_digits_group by done.
  destruct (String.eqb (leading_digits rest) ""); [done|].
  unfold Re.group_of. simpl. unfold Str.of_list, Str.to_list.
  by rewrite string_of_list_ascii_of_string.
Qed.

(** The year [_parse_facts] reads: the first item of the pattern's
    matches is the year as the words above define it. *)
Lemma findall_built_in (text : string) :
  getitem (Re.findall Pat.built_in text) 0
  = match build_year text with
    | Some year => Ok year
    | None => Raise IndexError
    end.
Proof.
  rewrite findall_first by (simpl; lia).
  pose proof (search_go_scan Pat.built_in _ build_year here_built_in) as H.
  specialize (H ltac:(by intros [|a s]) text []).
  destruct (Re.search_go Pat.built_in [] (Str.to_list text)) as [m|]; by rewrite H.
Qed.

Lemma here_days (s : string) :
  match Re.match_here Pat.days (Str.to_list s) with
  | Some (rest, c) =>
      (if String.eqb (leading_digits s) "" then None
       else if String.prefix " days" (after_digits s) then Some (leading_digits s)
       else None) = Some (Re.group_of c 1)
  | None =>
      (if String.eqb (leading_digits s) "" then None
       else if String.prefix " days" (after_digits s) then Some (leading_digits s)
       else None) = None
  end.
Proof.
  unfold Re.match_here, Pat.days.
  change (Re.run (Re.Cat (Re.Grp 1 (Re.Plus (Re.Chr Re.digit))) (Re.lit " days"))
            (Str.to_list s) [] (fun rest c => Some (rest, c)))
    with (Re.run (Re.Grp 1 (Re.Plus (Re.Chr Re.digit))) (Str.to_list s) []
            (fun rest1 c1 => Re.run (Re.lit " days") rest1 c1 (fun rest c => Some (rest, c)))).
  rewrite run_digits_group.
  - destruct (String.eqb (leading_digits s) ""); [done|].
    rewrite run_lit_prefix. unfold after_prefix.
    destruct (String.prefix " days" (after_digits s)); [|done].
    unfold Re.group_of. simpl. unfold Str.of_list, Str.to_list.
    by rewrite string_of_list_ascii_of_string.
  - intros a rest c1 c2 Ha _.
    change (a :: Str.to_list rest) with (Str.to_list (String a rest)).
    rewrite run_lit_prefix. unfold after_prefix.
    change (String.prefix " days" (String a rest))
      with (if ascii_dec " " a then String.prefix "days" rest else false).
    destruct (ascii_dec " " a) as [<-|]; [by vm_compute in Ha | done].
Qed.

Lemma findall_days (text : string) :
  getitem (Re.findall Pat.days text) 0
  = match day_count text with
    | Some count => Ok count
    | None => Raise IndexError
    end.
Proof.
  rewrite findall_first by (simpl; lia).
  pose proof (search_go_scan Pat.days _ day_count here_days) as H.
  specialize (H ltac:(by intros [|a s]) text []).
  destruct (Re.search_go Pat.days [] (Str.to_list text)) as [m|]; by rewrite H.
Qed.

Lemma if_ascii_dec {A} (x y : ascii) (u v : A) :
  (if ascii_dec x y then u else v) = if Ascii.eqb y x then u else v.
Proof.
  destruct (ascii_dec x y) as [->|Hne]; [by rewrite Ascii.eqb_refl|].
  by assert (Ascii.eqb y x = false) as -> by (apply Ascii.eqb_neq; congruence).
Qed.

Lemma hash_here (s : string) :
  Re.match_here Pat.hash (Str.to_list s)
  = match s with
    | String a (String b rest) =>
        if hash_pair a b then Some (Str.to_list rest, [(1%nat, [a; b])]) else None
    | _ => None
    end.
Proof.
  unfold Re.match_here, Pat.hash.
  change (Re.run (Re.Grp 1 (Re.Alt (Re.lit " #") (Re.lit "# "))) (Str.to_list s) []
            (fun rest c => Some (rest, c)))
    with (match Re.run (Re.lit " #") (Str.to_list s) []
                  (fun rest c => Some (rest, (1%nat, Re.consumed (Str.to_list s) rest) :: c)) with
          | Some x => Some x
          | None => Re.run (Re.lit "# ") (Str.to_list s) []
                      (fun rest c => Some (rest, (1%nat, Re.consumed (Str.to_list s) rest) :: c))
          end).
  rewrite !run_lit_prefix. unfold after_prefix.
  destruct s as [|a [|b rest]].
  - done.
  - change (String.prefix " #" (String a ""))
      with (if ascii_dec " " a then false else false).
    change (String.prefix "# " (String a ""))
      with (if ascii_dec "#" a then false else false).
    by destruct (ascii_dec " " a), (ascii_dec "#" a).
  - change (String.prefix " #" (String a (String b rest)))
      with (if ascii_dec " " a then if ascii_dec "#" b then String.prefix "" rest else false
            else false).
    change (String.prefix "# " (String a (String b rest)))
      with (if ascii_dec "#" a then if ascii_dec " " b then String.prefix "" rest else false
            else false).
    assert (Hp : String.prefix "" rest = true) by by destruct rest.
    rewrite Hp, !if_ascii_dec. unfold hash_pair.
    assert (Hc : Re.consumed (Str.to_list (String a (String b rest))) (Str.to_list rest)
                 = [a; b]).
    { apply (consumed_prefix [a; b]). }
    destruct (Ascii.eqb a " "), (Ascii.eqb b "#"), (Ascii.eqb a "#"), (Ascii.eqb b " ");
      cbn [andb orb]; try done; cbn [String.length Str.drop]; by rewrite Hc.
Qed.

Lemma search_go_skip (r : Re.regex) (pre : list ascii) (a : ascii) (s : list ascii) :
  Re.match_here r (a :: s) = None →
  Re.search_go r pre (a :: s) = Re.search_go r (a :: pre) s.
Proof. intros H. simpl. by rewrite H. Qed.

Lemma matches_go_skip (fuel : nat) (r : Re.regex) (pre : list ascii) (a : ascii)
    (s : list ascii) :
  Re.match_here r (a :: s) = None →
  Re.matches_go fuel r pre (a :: s) = Re.matches_go fuel r (a :: pre) s.
Proof.
  intros H. destruct fuel as [|fuel]; [done|].
  cbn [Re.matches_go]. by rewrite (search_go_skip _ _ _ _ H).
Qed.

Lemma unmatched_hashes (n : nat) :
  ∀ (s : string) (pre : list ascii) (fuel : nat),
    (String.length s ≤ n)%nat → (String.length s < fuel)%nat →
    unmatched (Re.matches_go fuel Pat.hash pre (Str.to_list s)) (List.rev pre ++ Str.to_list s)
    = List.rev pre ++ Str.to_list (remove_hashes s).
Proof.
  induction n as [|n IH]; intros s pre fuel Hn Hfuel.
  - destruct s; [|simpl in Hn; lia]. destruct fuel; [simpl in Hfuel; lia|].
    cbn [Re.matches_go Str.to_list list_ascii_of_string Re.search_go].
    pose proof (hash_here "") as H. cbn [Str.to_list list_ascii_of_string] in H.
    by rewrite H.
  - destruct s as [|a s1]; [by apply IH; simpl; lia|].
    pose proof (hash_here (String a s1)) as Hhere.
    change (Str.to_list (String a s1)) with (a :: Str.to_list s1) in *.
    destruct s1 as [|b s2].
    + rewrite matches_go_skip by done.
      specialize (IH "" (a :: pre) fuel). simpl in IH. simpl.
      rewrite <- app_assoc in IH. apply IH; simpl in *; lia.
    + cbn [remove_hashes]. fold (hash_pair a b). destruct (hash_pair a b) eqn:Hpair.
      * destruct fuel as [|fuel]; [lia|].
        cbn [Re.matches_go Re.search_go]. rewrite Hhere.
        cbn [Re.m_text Re.m_rest].
        assert (Hc : Re.consumed (a :: Str.to_list (String b s2)) (Str.to_list s2) = [a; b]).
        { apply (consumed_prefix [a; b]). }
        rewrite Hc. unfold unmatched. rewrite fmap_cons, last_cons.
        cbn [concat Re.m_pre Re.m_rest].
        rewrite !app_nil_r, <- app_assoc. f_equal.
        specialize (IH s2 [] fuel). unfold unmatched in IH. simpl in IH.
        rewrite <- IH by (simpl in *; lia).
        by destruct (last (Re.matches_go fuel Pat.hash [] (Str.to_list s2))).
      * rewrite matches_go_skip by done.
        specialize (IH (String b s2) (a :: pre) fuel). simpl in IH.
        rewrite <- !app_assoc in IH. simpl. apply IH; simpl in *; lia.
Qed.

(** The substitution [re.sub("( #|# )", "", s)] deletes every [ #] and
    [# ] of the text, from left to right. *)
Lemma sub_hash (s : string) : Re.sub Pat.hash "" s = remove_hashes s.
Proof.
  unfold Re.sub, Re.matches.
  pose proof (unmatched_hashes (String.length s) s [] (S (String.length s))) as H.
  unfold unmatched in H. simpl in H. unfold Str.to_list in *. simpl.
  rewrite H by lia. unfold Str.of_list. apply string_of_list_ascii_of_string.
Qed.

(** *** The rules *)

Lemma for_each_snoc {A St} (f : St → A → result St) (l : list A) (x : A) (s : St) :
  for_each f (l ++ [x]) s = (s' ← for_each f l s; f s' x).
Proof.
  revert s. induction l as [|y l IH]; intros s; simpl.
  - by destruct (f s x).
  - destruct (f s y) as [s1|e]; [apply IH | done].
Qed.

Section ClassificationFacts.
Variable env : Env.

Lemma fires_classify (text : string) : fires env (classify env text) text.
Proof.
  unfold classify, rules. simpl.
  destruct (bool_decide (text ∈ HOME_TYPES env)) eqn:H1;
    [|destruct (Str.contains "Built in" text) eqn:H2;
      [|destruct (Str.contains "days on Zillow" text) eqn:H3;
        [|destruct (negb (Str.contains ":" text)) eqn:H4;
          [|destruct (Str.contains "Posted" text) eqn:H5]]]];
    simpl; (split; [done|]); intros r' Hr; destruct r'; simpl in Hr |- *;
    solve [lia | assumption].
Qed.

Lemma fires_unique (text : string) (r1 r2 : rule) :
  fires env r1 text → fires env r2 text → r1 = r2.
Proof.
  intros [H1 L1] [H2 L2].
  destruct (lt_eq_lt_dec (rank r1) (rank r2)) as [[Hlt | Heq] | Hgt].
  - rewrite (L2 r1 Hlt) in H1. discriminate.
  - destruct r1, r2; simpl in Heq; congruence.
  - rewrite (L1 r2 Hgt) in H2. discriminate.
Qed.

Lemma fact_extras_fresh (parsed_facts : Dict) (text : string) :
  parsed_facts !! "extras" = None →
  fact_extras parsed_facts text = Ok (<["extras" := VList [VStr text]]> parsed_facts).
Proof.
  intros H. unfold fact_extras. rewrite H.
  rewrite bool_decide_eq_false_2 by (intros [? ?]; discriminate).
  rewrite lookup_insert_eq. simpl. by rewrite insert_insert_eq.
Qed.

Lemma fact_extras_append (parsed_facts : Dict) (text : string) (l : list value) :
  parsed_facts !! "extras" = Some (VList l) →
  fact_extras parsed_facts text = Ok (<["extras" := VList (l ++ [VStr text])]> parsed_facts).
Proof.
  intros H. unfold fact_extras. rewrite H.
  rewrite bool_decide_eq_true_2 by eauto. by rewrite H.
Qed.

(** The branch of the year is the rule of the year. *)
Lemma fact_year_acts (parsed_facts : Dict) (text : string) :
  fact_year parsed_facts text = act env Year parsed_facts text.
Proof.
  unfold fact_year, act. rewrite findall_built_in. by destruct (build_year text).
Qed.

Lemma fact_days_on_zillow_acts (parsed_facts : Dict) (text : string) :
  fact_days_on_zillow parsed_facts text = act env DaysOnZillow parsed_facts text.
Proof.
  unfold fact_days_on_zillow, act. rewrite findall_days. by destruct (day_count text).
Qed.

Lemma fact_extras_acts (parsed_facts : Dict) (text : string) :
  fact_extras parsed_facts text = act env Extras parsed_facts text.
Proof.
  unfold act. destruct (parsed_facts !! "extras") as [v|] eqn:E.
  - destruct v; by (unfold fact_extras; rewrite E;
      rewrite bool_decide_eq_true_2 by eauto; rewrite E).
  - by apply fact_extras_fresh.
Qed.

Lemma fact_posted_acts (parsed_facts : Dict) (text : string) :
  fact_posted env parsed_facts text = act env Posted parsed_facts text.
Proof.
  unfold fact_posted, act. rewrite sub_hash, split_second.
  destruct (text_after ":" (remove_hashes text)) as [rest|]; [|done].
  rewrite result_bind_ok. by rewrite split_first.
Qed.

Lemma fact_generic_acts (parsed_facts : Dict) (text : string) :
  fact_generic parsed_facts text = act env Generic parsed_facts text.
Proof.
  unfold fact_generic, act. rewrite sub_hash, split_first, split_second.
  rewrite result_bind_ok. by destruct (text_after ":" (remove_hashes text)).
Qed.

(** The body of the loop applies the rule that fires. *)
Lemma parse_fact_acts (parsed_facts : Dict) (text : string) :
  parse_fact env parsed_facts text = act env (classify env text) parsed_facts text.
Proof.
  unfold parse_fact, classify, rules, Str.mem. rewrite split_length_one. simpl.
  destruct (bool_decide (text ∈ HOME_TYPES env)); [done|].
  destruct (Str.contains "Built in" text); [apply fact_year_acts|].
  destruct (Str.contains "days on Zillow" text); [apply fact_days_on_zillow_acts|].
  destruct (negb (Str.contains ":" text)); [apply fact_extras_acts|].
  destruct (Str.contains "Posted" text); [apply fact_posted_acts | apply fact_generic_acts].
Qed.

Lemma not_home_type (text : string) :
  text ∉ HOME_TYPES env → bool_decide (text ∈ HOME_TYPES env) = false.
Proof. intros H. by apply bool_decide_eq_false. Qed.

(** [_parse_facts] handles the facts from left to right, each by the rule
    that fires, and stops at the first rule that raises. *)
Lemma parse_facts_snoc (facts : list string) (text : string) :
  _parse_facts env (facts ++ [text])
  = (parsed_facts ← _parse_facts env facts;
     act env (classify env text) parsed_facts text).
Proof.
  unfold _parse_facts. rewrite for_each_snoc.
  destruct (for_each (parse_fact env) facts ∅) as [parsed_facts|e]; [|done].
  apply parse_fact_acts.
Qed.

Lemma classify_built_in_1925 :
  "Built in 1925" ∉ HOME_TYPES env → classify env "Built in 1925" = Year.
Proof.
  intros H. unfold classify, rules. cbn [List.find applies].
  rewrite not_home_type by done.
  by change (Str.contains "Built in" "Built in 1925") with true.
Qed.

Lemma classify_3_days_on_zillow :
  "3 days on Zillow" ∉ HOME_TYPES env → classify env "3 days on Zillow" = DaysOnZillow.
Proof.
  intros H. unfold classify, rules. cbn [List.find applies].
  rewrite not_home_type by done.
  change (Str.contains "Built in" "3 days on Zillow") with false.
  by change (Str.contains "days on Zillow" "3 days on Zillow") with true.
Qed.

Lemma classify_has_garage :
  "Has garage" ∉ HOME_TYPES env → classify env "Has garage" = Extras.
Proof.
  intros H. unfold classify, rules. cbn [List.find applies].
  rewrite not_home_type by done.
  change (Str.contains "Built in" "Has garage") with false.
  change (Str.contains "days on Zillow" "Has garage") with false.
  by change (Str.contains ":" "Has garage") with false.
Qed.

End ClassificationFacts.

(** C4 (as amended).  For every fact exactly one of the six rules fires,
    namely the first in the order home type, year, days on Zillow,
    extras, posted, generic whose condition holds.  [_parse_facts] starts
    from the empty dictionary and handles the facts from left to right,
    each by the rule that fires for it, stopping at the first rule that
    raises; what a rule does is [act].  The generic rule stores the text
    between the first and the second colon, not all that follows the
    first colon.  With labels that are no home types: [Built in 1925]
    sets [year] to [1925], [3 days on Zillow] sets [days_on_zillow] to
    [3], and [Has garage], which has no colon, is appended to [extras]
    when that key is absent or holds a list, and raises an
    [AttributeError] when an earlier fact stored a text there. *)
Theorem parse_fact_classification (env : Env) (facts : list string) (text : string) :
  (∀ r, fires env r text ↔ r = classify env text)
  ∧ _parse_facts env [] = Ok ∅
  ∧ _parse_facts env (facts ++ [text])
    = (parsed_facts ← _parse_facts env facts;
       act env (classify env text) parsed_facts text)
  ∧ ("Built in 1925" ∉ HOME_TYPES env →
     _parse_facts env ["Built in 1925"] = Ok (<["year" := VStr "1925"]> ∅))
  ∧ ("3 days on Zillow" ∉ HOME_TYPES env →
     _parse_facts env ["3 days on Zillow"] = Ok (<["days_on_zillow" := VStr "3"]> ∅))
  ∧ ("Has garage" ∉ HOME_TYPES env →
     ∀ parsed_facts,
       _parse_facts env facts = Ok parsed_facts →
       (parsed_facts !! "extras" = None →
        _parse_facts env (facts ++ ["Has garage"])
        = Ok (<["extras" := VList [VStr "Has garage"]]> parsed_facts))
       ∧ (∀ l, parsed_facts !! "extras" = Some (VList l) →
               _parse_facts env (facts ++ ["Has garage"])
               = Ok (<["extras" := VList (l ++ [VStr "Has garage"])]> parsed_facts))
       ∧ (∀ s, parsed_facts !! "extras" = Some (VStr s) →
               _parse_facts env (facts ++ ["Has garage"]) = Raise AttributeError)).
Proof.
  split; [|split; [|split; [|split; [|split]]]].
  - intros r. split.
    + intros Hr. eapply fires_unique; [exact Hr | apply fires_classify].
    + intros ->. apply fires_classify.
  - reflexivity.
  - apply parse_facts_snoc.
  - intros H.
    rewrite (parse_facts_snoc env [] "Built in 1925" : _parse_facts env ["Built in 1925"] = _).
    by rewrite (classify_built_in_1925 env H).
  - intros H.
    rewrite (parse_facts_snoc env [] "3 days on Zillow"
             : _parse_facts env ["3 days on Zillow"] = _).
    by rewrite (classify_3_days_on_zillow env H).
  - intros H parsed_facts Hfacts.
    rewrite (parse_facts_snoc env facts "Has garage"), Hfacts,
      (classify_has_garage env H), result_bind_ok.
    unfold act. split; [|split].
    + by intros ->.
    + by intros l ->.
    + by intros s ->.
Qed.

Ltac not_in_list :=
  repeat (apply not_elem_of_cons; split; [discriminate|]); apply not_elem_of_nil.

Lemma parse_fact_classification_witness :
  ("Built in 1925" ∉ HOME_TYPES Sample.env)
  ∧ ("3 days on Zillow" ∉ HOME_TYPES Sample.env)
  ∧ ("Has garage" ∉ HOME_TYPES Sample.env)
  ∧ fires Sample.env Generic "Lot: 5,000 sqft"
  ∧ _parse_facts Sample.env ["Built in 1925"] = Ok (<["year" := VStr "1925"]> ∅)
  ∧ _parse_facts Sample.env ["3 days on Zillow"] = Ok (<["days_on_zillow" := VStr "3"]> ∅)
  ∧ _parse_facts Sample.env (["Single Family"; "Lot: 5,000 sqft"] ++ ["Has garage"])
    = Ok (<["extras" := VList [VStr "Has garage"]]>
            (<["lot" := VStr "5,000 sqft"]> (<["home_type" := VStr "Single Family"]> ∅))).
Proof.
  assert (H1 : "Built in 1925" ∉ HOME_TYPES Sample.env) by (simpl; not_in_list).
  assert (H2 : "3 days on Zillow" ∉ HOME_TYPES Sample.env) by (simpl; not_in_list).
  assert (H3 : "Has garage" ∉ HOME_TYPES Sample.env) by (simpl; not_in_list).
  destruct (parse_fact_classification Sample.env ["Single Family"; "Lot: 5,000 sqft"]
              "Lot: 5,000 sqft")
    as (Hfires & _ & _ & Hyear & Hdays & Hextras).
  repeat (split; [assumption|]).
  split; [apply Hfires; reflexivity|].
  split; [exact (Hyear H1)|]. split; [exact (Hdays H2)|].
  apply (Hextras H3); reflexivity.
Defined.

(** C4 as stated fails for the generic rule and for the extras rule.  The
    split of [Open house: Sat 10:30 am] on its first colon has the value
    [ Sat 10:30 am]; the generic rule fires, and what [_parse_facts]
    stores is [Sat 10], the text up to the second colon.  And after the
    fact [Extras: pool], which the generic rule stores as a text under
    [extras], the fact [Has garage], which has no colon, is not appended
    to [extras]: the parse ends with an [AttributeError]. *)
Lemma generic_value_cut_at_second_colon :
  split_first_colon "Open house: Sat 10:30 am" = Some ("Open house", " Sat 10:30 am")
  ∧ classify Sample.env "Open house: Sat 10:30 am" = Generic
  ∧ _parse_facts Sample.env ["Open house: Sat 10:30 am"]
    = Ok (<["open_house" := VStr "Sat 10"]> ∅)
  ∧ Str.strip " Sat 10:30 am" ≠ "Sat 10"
  ∧ classify Sample.env "Extras: pool" = Generic
  ∧ classify Sample.env "Has garage" = Extras
  ∧ _parse_facts Sample.env ["Extras: pool"] = Ok (<["extras" := VStr "pool"]> ∅)
  ∧ _parse_facts Sample.env ["Extras: pool"; "Has garage"] = Raise AttributeError.
Proof. repeat split; try (vm_compute; reflexivity). vm_compute. discriminate. Qed.

(** ** Tax-history rows *)

Lemma tax_row_extracts (cols : list Cell) (row : value) :
  tax_row_of cols row → tax_row cols = Ok row.
Proof.
  intros [date tax_cell skipped assessment rest tax Htax].
  unfold tax_row, getitem. simpl. by rewrite Htax.
Qed.

(** [tax_row] returns a row for the rows of [tax_row_of] only. *)
Lemma tax_row_returns (cols : list Cell) (row : value) :
  tax_row cols = Ok row → tax_row_of cols row.
Proof.
  destruct cols as [|date [|tax_cell [|skipped [|assessment rest]]]];
    unfold tax_row, getitem; simpl; try discriminate.
  - by destruct (contents tax_cell).
  - by destruct (contents tax_cell).
  - destruct (contents tax_cell) as [|tax children] eqn:E; [discriminate|].
    simpl. intros [= <-]. constructor. by rewrite E.
Qed.

Lemma collect_tax_rows (rows : TableBody) (data : list value) :
  Forall2 tax_row_of rows data → collect tax_row rows = Ok data.
Proof.
  induction 1 as [|cols row rows data Hrow _ IH]; [reflexivity|].
  simpl. rewrite (tax_row_extracts _ _ Hrow), IH. reflexivity.
Qed.

(** C9 (as amended).  A row of the tax table with at least four columns,
    whose tax cell has content, is extracted as the text of column 0, the
    first child of column 1 and the text of column 3; column 2, and any
    column after column 3, has no influence on the extracted row.  Rows
    of that shape are the only ones a row is extracted from: a row with an
    empty tax cell raises an [IndexError].  A table all of whose rows are
    of that shape yields the list of the rows so extracted, and that list
    is what [_get_tax_history] returns for it. *)
Theorem tax_row_mapping (date tax_cell skipped assessment : Cell) (rest : list Cell)
    (tax : PageElement) :
  contents tax_cell !! 0%nat = Some tax →
  tax_row (date :: tax_cell :: skipped :: assessment :: rest)
  = Ok (VList [VStr (get_text date); VElem tax; VStr (get_text assessment)])
  ∧ (∀ other rest',
       tax_row (date :: tax_cell :: other :: assessment :: rest')
       = tax_row (date :: tax_cell :: skipped :: assessment :: rest))
  ∧ (∀ cols row, tax_row cols = Ok row ↔ tax_row_of cols row)
  ∧ (∀ empty, contents empty = [] →
              tax_row (date :: empty :: skipped :: assessment :: rest) = Raise IndexError)
  ∧ (∀ rows data, Forall2 tax_row_of rows data → collect tax_row rows = Ok data)
  ∧ (∀ env ajax_url timeout rc t t' rows data,
       _get_table_body env ajax_url timeout rc t = (t', Ok (Some rows)) →
       Forall2 tax_row_of rows data →
       _get_tax_history env ajax_url timeout rc t = (t', Ok data)).
Proof.
  intros Htax. split; [|split; [|split; [|split; [|split]]]].
  - apply tax_row_extracts. by constructor.
  - intros other rest'. reflexivity.
  - intros cols row. split; [apply tax_row_returns | apply tax_row_extracts].
  - intros empty Hempty. unfold tax_row, getitem. simpl. by rewrite Hempty.
  - apply collect_tax_rows.
  - intros env ajax_url timeout rc t t' rows data Hbody Hrows.
    unfold _get_tax_history. mstep. rewrite Hbody. cbv beta iota zeta.
    unfold find_all_tr. rstep. by rewrite (collect_tax_rows _ _ Hrows).
Qed.

Lemma tax_row_mapping_witness :
  contents (Sample.cell "$5,100") !! 0%nat = Some (NavigableString "$5,100")
  ∧ tax_row [Sample.cell "2014"; Sample.cell "$5,100"; Sample.cell "+2.0%";
             Sample.cell "$400,000"]
    = Ok (VList [VStr "2014"; VElem (NavigableString "$5,100"); VStr "$400,000"])
  ∧ collect tax_row Sample.tax_table = Ok Sample.tax_rows.
Proof.
  assert (H : contents (Sample.cell "$5,100") !! 0%nat = Some (NavigableString "$5,100"))
    by reflexivity.
  destruct (tax_row_mapping (Sample.cell "2014") (Sample.cell "$5,100")
              (Sample.cell "+2.0%") (Sample.cell "$400,000") [] _ H)
    as (Hrow & _ & _ & _ & Hrows & _).
  split; [exact H|]. split; [exact Hrow|].
  apply Hrows. repeat constructor.
Defined.

(** C9 as stated fails on a row of four columns whose tax cell is empty:
    no row is extracted from it, the lookup of the cell's first child
    raises an [IndexError], which ends the reading of the table and,
    caught nowhere, the scrape. *)
Lemma tax_row_empty_tax_cell :
  length Faulty.tax_row_without_tax = 4%nat
  ∧ tax_row Faulty.tax_row_without_tax = Raise IndexError
  ∧ collect tax_row Faulty.tax_table = Raise IndexError
  ∧ run (_get_tax_history Faulty.env (Sample.site +:+ Sample.tax_path) 10 Sample.get)
    = ([Get (Sample.site +:+ Sample.tax_path) 10], Raise IndexError)
  ∧ Faulty.scrape 1
    = ([Get "http://www.zillow.com/homes/1_zpid/(index)/" 10;
        Get (Sample.site +:+ Sample.price_path) 10;
        Get (Sample.site +:+ Sample.tax_path) 10], Raise IndexError).
Proof. repeat split; vm_compute; reflexivity. Qed.

(** ** Geolocation *)

(** *** Decimal arithmetic *)

(** A number is at least the power of ten its digit count announces. *)
Lemma ndigits_go_lower (fuel : nat) (n : N) :
  1 ≤ Decimal.ndigits_go fuel n
  ∧ ((0 < n)%N → 10 ^ (Decimal.ndigits_go fuel n - 1) ≤ Z.of_N n).
Proof.
  revert n. induction fuel as [|fuel IH]; intros n; simpl.
  - split; [lia|]. intros Hn. simpl. lia.
  - destruct (N.ltb_spec n 10) as [Hlt|Hge].
    + split; [lia|]. intros Hn. simpl. lia.
    + destruct (IH (n / 10)%N) as [H1 H2]. split; [lia|]. intros _.
      assert (Hq : (0 < n / 10)%N) by (apply N.div_str_pos; lia).
      specialize (H2 Hq).
      replace (1 + Decimal.ndigits_go fuel (n / 10) - 1)
        with (Z.succ (Decimal.ndigits_go fuel (n / 10) - 1)) by lia.
      rewrite Z.pow_succ_r by lia.
      assert (Hd : (10 * (n / 10) <= n)%N) by (apply N.Div0.mul_div_le).
      lia.
Qed.

Lemma ndigits_small (n : N) (d : Z) :
  0 ≤ d → (0 < n)%N → Z.of_N n < 10 ^ d → 1 ≤ Decimal.ndigits n ≤ d.
Proof.
  intros Hd Hn Hlt. unfold Decimal.ndigits.
  destruct (ndigits_go_lower (N.size_nat n) n) as [H1 H2].
  specialize (H2 Hn). split; [done|].
  destruct (Z_le_gt_dec (Decimal.ndigits_go (N.size_nat n) n) d) as [|Hgt]; [done|].
  exfalso.
  assert (10 ^ d ≤ 10 ^ (Decimal.ndigits_go (N.size_nat n) n - 1))
    by (apply Z.pow_le_mono_r; lia).
  lia.
Qed.

Lemma pow10_add (a b : Z) :
  0 ≤ a → 0 ≤ b → Decimal.pow10 (a + b) = (Decimal.pow10 a * Decimal.pow10 b)%N.
Proof.
  intros Ha Hb. unfold Decimal.pow10.
  rewrite Z.pow_add_r by lia. apply Z2N.inj_mul; lia.
Qed.

Lemma pow10_pos (a : Z) : 0 ≤ a → (0 < Decimal.pow10 a)%N.
Proof.
  intros Ha. unfold Decimal.pow10. 
  assert (0 < 10 ^ a) by (apply Z.pow_pos_nonneg; lia). lia.
Qed.

Lemma pow10_succ (a : Z) : 0 ≤ a → Decimal.pow10 (a + 1) = (Decimal.pow10 a * 10)%N.
Proof. intros Ha. rewrite pow10_add by lia. reflexivity. Qed.

(** Stripping the zeros that a factor [10^j] brings. *)
Lemma strip_zeros_factor (j : nat) (fuel : nat) (x : N) (e ideal : Z) :
  e + Z.of_nat j ≤ ideal →
  Decimal.strip_zeros (j + fuel) (x * Decimal.pow10 (Z.of_nat j)) e ideal
  = Decimal.strip_zeros fuel x (e + Z.of_nat j) ideal.
Proof.
  revert e. induction j as [|j IH]; intros e He.
  - simpl. change (Decimal.pow10 0) with 1%N. rewrite N.mul_1_r. f_equal. lia.
  - change (S j + fuel)%nat with (S (j + fuel)). simpl Decimal.strip_zeros.
    replace (Z.of_nat (S j)) with (Z.of_nat j + 1) by lia.
    rewrite pow10_succ by lia.
    rewrite N.mul_assoc.
    destruct (Z.ltb_spec e ideal); [|lia].
    rewrite N.Div0.mod_mul. simpl.
    rewrite N.div_mul by lia.
    rewrite IH by lia. f_equal. lia.
Qed.

(** What stripping returns keeps the value and does not pass the ideal
    exponent. *)
Lemma strip_zeros_value (fuel : nat) (x : N) (e ideal : Z) :
  e ≤ ideal →
  ∃ j : Z, 0 ≤ j ∧ e + j ≤ ideal
    ∧ Decimal.strip_zeros fuel x e ideal
      = ((x / Decimal.pow10 j)%N, e + j)
    ∧ x = (x / Decimal.pow10 j * Decimal.pow10 j)%N.
Proof.
  revert x e. induction fuel as [|fuel IH]; intros x e He; simpl.
  - exists 0. change (Decimal.pow10 0) with 1%N.
    rewrite N.div_1_r, N.mul_1_r, Z.add_0_r. repeat split; lia.
  - destruct (Z.ltb_spec e ideal) as [Hlt|Hge]; simpl.
    + destruct (N.eqb_spec (x mod 10) 0) as [Hz|Hnz].
      * destruct (IH (x / 10)%N (e + 1)) as (j & Hj & Hle & Hs & Hx); [lia|].
        exists (j + 1). rewrite Hs.
        assert (Hx10 : x = (x / 10 * 10)%N).
        { rewrite (N.div_mod x 10) at 1 by lia. rewrite Hz. lia. }
        assert (Hdiv : (x / Decimal.pow10 (j + 1) = x / 10 / Decimal.pow10 j)%N).
        { rewrite pow10_succ by lia. rewrite (N.mul_comm (Decimal.pow10 j)).
          symmetry. apply N.Div0.div_div. }
        rewrite Hdiv. repeat split; try lia.
        -- f_equal. lia.
        -- rewrite pow10_succ by lia. rewrite N.mul_assoc, <- Hx. exact Hx10.
      * exists 0. change (Decimal.pow10 0) with 1%N.
        rewrite N.div_1_r, N.mul_1_r, Z.add_0_r. repeat split; lia.
    + exists 0. change (Decimal.pow10 0) with 1%N.
      rewrite N.div_1_r, N.mul_1_r, Z.add_0_r. repeat split; lia.
Qed.

(** Division by one million, on decimals of at most 28 digits. *)
Lemma div_eucl_exact (a b : N) : b ≠ 0%N → N.div_eucl (a * b) b = (a, 0%N).
Proof.
  intros Hb.
  assert (H : N.div_eucl (a * b) b = ((a * b) / b, (a * b) mod b)%N).
  { unfold N.div, N.modulo. by destruct (N.div_eucl (a * b) b). }
  rewrite H, N.div_mul, N.Div0.mod_mul by done. reflexivity.
Qed.

Lemma fix_small (neg : bool) (c : N) (e : Z) :
  (0 < c)%N → Z.of_N c < 10 ^ 28 → -6 ≤ e ≤ 0 →
  Decimal.fix_ (Decimal.Fin neg c e) = Ok (Decimal.Fin neg c e).
Proof.
  intros Hc Hlt He. unfold Decimal.fix_.
  destruct (N.eqb_spec c 0); [lia|].
  destruct (ndigits_small c 28 ltac:(lia) Hc Hlt) as [H1 H2].
  unfold Decimal.Etop, Decimal.Emax, Decimal.Etiny, Decimal.Emin, Decimal.prec.
  destruct (Z.ltb_spec (999999 - 28 + 1) (Decimal.ndigits c + e - 28)); [lia|].
  destruct (Z.ltb_spec e (Z.max (Decimal.ndigits c + e - 28) (-999999 - 28 + 1)));
    [lia|reflexivity].
Qed.

Lemma to_Q_micro (neg : bool) (c c' : N) (j : Z) :
  0 ≤ j ≤ 6 → c = (c' * Decimal.pow10 j)%N →
  ∃ q, Decimal.to_Q (Decimal.Fin neg c' (-6 + j)) = Some q
       ∧ Qeq q (signed neg c # 1000000).
Proof.
  intros Hj Hc. eexists. split; [reflexivity|].
  assert (Hcases : j = 0 ∨ j = 1 ∨ j = 2 ∨ j = 3 ∨ j = 4 ∨ j = 5 ∨ j = 6) by lia.
  unfold signed.
  destruct Hcases as [->|[->|[->|[->|[->|[->| ->]]]]]];
    vm_compute Decimal.pow10 in Hc; subst c;
    destruct neg; unfold Qeq; simpl; lia.
Qed.

(** An integer of at most 28 digits divided by one million: the quotient
    is returned unrounded, and its value is the integer over 1000000. *)
Lemma truediv_million_exact (neg : bool) (c : N) :
  (0 < c)%N → Z.of_N c < 10 ^ 28 →
  ∃ d, Decimal.truediv (Decimal.Fin neg c 0) Decimal.million = Ok d
       ∧ ∃ q, Decimal.to_Q d = Some q ∧ Qeq q (signed neg c # 1000000).
Proof.
  intros Hc Hlt.
  destruct (ndigits_small c 28 ltac:(lia) Hc Hlt) as [Hn1 Hn2].
  unfold Decimal.truediv, Decimal.million.
  change (1000000 =? 0)%N with false. cbv iota.
  destruct (N.eqb_spec c 0); [lia|].
  rewrite xorb_false_r.
  change (Decimal.ndigits 1000000) with 7. unfold Decimal.prec.
  set (shift := 7 - Decimal.ndigits c + 28 + 1).
  assert (Hshift : 8 ≤ shift ≤ 35) by (unfold shift; lia).
  destruct (Z.leb_spec 0 shift); [|lia].
  assert (Hpow : Decimal.pow10 shift = (Decimal.pow10 (shift - 6) * 1000000)%N).
  { replace shift with ((shift - 6) + 6) at 1 by lia. by rewrite pow10_add by lia. }
  rewrite Hpow, N.mul_assoc, div_eucl_exact by lia.
  cbv beta iota zeta. change (0 =? 0)%N with true. cbv iota.
  replace (0 - 0 - (0 - 0 - shift)) with shift by lia.
  replace (Z.to_nat shift) with (Z.to_nat (shift - 6) + 6)%nat by lia.
  replace (Decimal.pow10 (shift - 6))
    with (Decimal.pow10 (Z.of_nat (Z.to_nat (shift - 6)))) by (f_equal; lia).
  rewrite strip_zeros_factor by lia.
  destruct (strip_zeros_value 6 c (0 - 0 - shift + Z.of_nat (Z.to_nat (shift - 6))) (0 - 0))
    as (j & Hj & Hle & -> & Hx); [lia|].
  set (c' := (c / Decimal.pow10 j)%N) in *.
  assert (Hp : (0 < Decimal.pow10 j)%N) by (apply pow10_pos; lia).
  assert (Hc' : (0 < c')%N) by (destruct (N.eq_0_gt_0_cases c'); [lia|done]).
  assert (Hle' : (c' <= c)%N) by nia.
  replace (0 - 0 - shift + Z.of_nat (Z.to_nat (shift - 6)) + j) with (-6 + j) by lia.
  rewrite fix_small by lia.
  eexists. split; [reflexivity|].
  apply to_Q_micro; [lia | exact Hx].
Qed.

(** *** The coordinates *)

Lemma getitem_neg_last_two {A} (pre : list A) (a b : A) :
  getitem_neg (pre ++ [a; b]) 2 = Ok a ∧ getitem_neg (pre ++ [a; b]) 1 = Ok b.
Proof.
  unfold getitem_neg, getitem. rewrite length_app. simpl.
  rewrite !decide_True by lia.
  split.
  - rewrite lookup_app_r by lia.
    by replace (length pre + 2 - 2 - length pre)%nat with 0%nat by lia.
  - rewrite lookup_app_r by lia.
    by replace (length pre + 2 - 1 - length pre)%nat with 1%nat by lia.
Qed.


Lemma latitude_token : Decimal.of_string "40123456" = Ok (Decimal.Fin false 40123456 0).
Proof. vm_compute. reflexivity. Qed.

Lemma longitude_token :
  Decimal.of_string (Str.filter (fun a => negb (Ascii.eqb a "\")) "-74654321")
  = Ok (Decimal.Fin true 74654321 0).
Proof. vm_compute. reflexivity. Qed.

Lemma latitude_scaled :
  Decimal.truediv (Decimal.Fin false 40123456 0) Decimal.million = Ok latitude_40.
Proof. vm_compute. reflexivity. Qed.

Lemma longitude_scaled :
  Decimal.truediv (Decimal.Fin true 74654321 0) Decimal.million = Ok longitude_74.
Proof. vm_compute. reflexivity. Qed.

Lemma coordinates_micro_degrees (pre : list string) :
  coordinates (pre ++ ["40123456"; "-74654321"])
  = Ok (VDecimal latitude_40, VDecimal longitude_74).
Proof.
  unfold coordinates.
  destruct (getitem_neg_last_two pre "40123456" "-74654321") as [-> ->].
  rewrite result_bind_ok, latitude_token.
  rewrite result_bind_ok, latitude_scaled.
  rewrite !result_bind_ok, longitude_token.
  rewrite result_bind_ok, longitude_scaled.
  reflexivity.
Qed.

(** C7.  When the comment of the marker region splits into a list ending
    with [40123456] and [-74654321], the location record holds the
    decimals 40123456E-6 and -74654321E-6, whose values are the rationals
    40123456/1000000 and -74654321/1000000: the division by one million is
    carried out on decimal coefficients and nothing is rounded.  The same
    holds of every integer of at most 28 digits: its quotient by
    [Decimal(1e6)] has the integer over 1000000 for value. *)
Theorem geolocation_decimal_exact (env : Env) (soup : Soup) (comment : string)
    (pre : list string) :
  home_marker_data soup = Some (Some comment) →
  Str.split "," (Str.strip_char "]" (Str.strip_char "[" comment))
  = pre ++ ["40123456"; "-74654321"] →
  (∃ address,
     _get_location_data env soup
     = Ok (VDict [("latitude", VDecimal latitude_40);
                  ("longitude", VDecimal longitude_74);
                  ("address", address)]))
  ∧ (∃ q, Decimal.to_Q latitude_40 = Some q ∧ Qeq q (40123456 # 1000000))
  ∧ (∃ q, Decimal.to_Q longitude_74 = Some q ∧ Qeq q (-74654321 # 1000000))
  ∧ (∀ neg c, (0 < c)%N → Z.of_N c < 10 ^ 28 →
       ∃ d, Decimal.truediv (Decimal.Fin neg c 0) Decimal.million = Ok d
            ∧ ∃ q, Decimal.to_Q d = Some q ∧ Qeq q (signed neg c # 1000000)).
Proof.
  intros Hdiv Hsplit. split; [|split; [|split]].
  - unfold _get_location_data. rewrite Hdiv. rstep.
    rewrite Hsplit, coordinates_micro_degrees. rstep.
    unfold truthy.
    change (Decimal.truthy latitude_40) with true.
    change (Decimal.truthy longitude_74) with true.
    unfold negb. cbv beta iota.
    destruct (address env (map_coordinates soup)) as [a|e]; eauto.
  - eexists. split; [reflexivity|]. vm_compute. reflexivity.
  - eexists. split; [reflexivity|]. vm_compute. reflexivity.
  - apply truediv_million_exact.
Qed.

Lemma geolocation_decimal_exact_witness :
  home_marker_data Sample.listing = Some (Some "[0,1,40123456,-74654321]")
  ∧ Str.split "," (Str.strip_char "]" (Str.strip_char "[" "[0,1,40123456,-74654321]"))
    = ["0"; "1"] ++ ["40123456"; "-74654321"]
  ∧ ∃ address,
      _get_location_data Sample.env Sample.listing
      = Ok (VDict [("latitude", VDecimal latitude_40);
                   ("longitude", VDecimal longitude_74);
                   ("address", address)]).
Proof.
  assert (H1 : home_marker_data Sample.listing = Some (Some "[0,1,40123456,-74654321]"))
    by reflexivity.
  assert (H2 : Str.split "," (Str.strip_char "]" (Str.strip_char "[" "[0,1,40123456,-74654321]"))
               = ["0"; "1"] ++ ["40123456"; "-74654321"]) by reflexivity.
  split; [exact H1|]. split; [exact H2|].
  exact (proj1 (geolocation_decimal_exact Sample.env Sample.listing _ _ H1 H2)).
Defined.

(** ** Fetching and the history step *)


Section HistoryFacts.
Variable env : Env.
Variables (timeout : Z) (rc : RequestClass).

(** A fetch requests its address once, whatever comes of it. *)
Lemma get_raw_html_shape (address : string) :
  ∃ r : result string,
    ∀ t, get_raw_html env address timeout rc t = (t ++ [Get address timeout], r).
Proof.
  unfold get_raw_html. mstep.
  destruct (rc address timeout) as [response|e].
  - destruct (negb (status_code response =? OK)).
    + by exists (Raise PyException).
    + destruct (String.eqb (url response) (ZILLOW_HOMES_URL env)).
      * by exists (Raise PyException).
      * by exists (Ok (content response)).
  - by exists (Raise e).
Qed.

Lemma get_table_body_shape (ajax_url : string) :
  ∃ r : result (option TableBody),
    ∀ t, _get_table_body env ajax_url timeout rc t = (t ++ [Get ajax_url timeout], r).
Proof.
  destruct (get_raw_html_shape ajax_url) as [r Hr].
  unfold _get_table_body. mstep.
  destruct r as [html|e].
  - exists (table_body_of env html). intros t. by rewrite Hr.
  - exists (Raise e). intros t. by rewrite Hr.
Qed.

Lemma get_price_history_shape (ajax_url : string) :
  ∃ r : result (list value),
    ∀ t, _get_price_history env ajax_url timeout rc t = (t ++ [Get ajax_url timeout], r).
Proof.
  destruct (get_table_body_shape ajax_url) as [r Hr].
  unfold _get_price_history. mstep.
  destruct r as [table_body|e].
  - exists (rows ← find_all_tr table_body; collect price_row rows).
    intros t. by rewrite Hr.
  - exists (Raise e). intros t. by rewrite Hr.
Qed.

Lemma get_tax_history_shape (ajax_url : string) :
  ∃ r : result (list value),
    ∀ t, _get_tax_history env ajax_url timeout rc t = (t ++ [Get ajax_url timeout], r).
Proof.
  destruct (get_table_body_shape ajax_url) as [r Hr].
  unfold _get_tax_history. mstep.
  destruct r as [table_body|e].
  - exists (rows ← find_all_tr table_body; collect tax_row rows).
    intros t. by rewrite Hr.
  - destruct (decide (e = ValueError)) as [->|Hne].
    + exists (Ok []). intros t. by rewrite Hr.
    + exists (Raise e). intros t. rewrite Hr. cbv beta iota zeta.
      by destruct (decide (e = ValueError)).
Qed.

(** The shape of a history step: some events are added to the trace and
    the result changes by a [history_outcome], the same for every
    result and every trace the step starts from. *)
Lemma price_history_step_shape (soup : Soup) :
  ∃ (evs : list event) (o : result (option (list value))),
    ∀ results t,
      price_history_step env soup results timeout rc t
      = (t ++ evs, history_outcome "price_history" o results).
Proof.
  unfold price_history_step. mstep.
  destruct (_get_ajax_url soup "z-hdp-price-history") as [history_url|e].
  - destruct (get_price_history_shape history_url) as [[rows|e] Hr].
    + exists [Get history_url timeout], (Ok (Some rows)).
      intros results t. by rewrite Hr.
    + destruct (decide (e = NullResultException)) as [->|Hne].
      * exists [Get history_url timeout; Print price_history_message;
                LogException NullResultException], (Ok None).
        intros results t. rewrite Hr. simpl. by rewrite <- !app_assoc.
      * exists [Get history_url timeout], (Raise e).
        intros results t. rewrite Hr. cbv beta iota zeta.
        by destruct (decide (e = NullResultException)).
  - destruct (decide (e = NullResultException)) as [->|Hne].
    + exists [Print price_history_message; LogException NullResultException], (Ok None).
      intros results t. simpl. by rewrite <- !app_assoc.
    + exists [], (Raise e). intros results t. rewrite app_nil_r.
      by destruct (decide (e = NullResultException)).
Qed.

Lemma tax_history_step_shape (soup : Soup) :
  ∃ (evs : list event) (o : result (option (list value))),
    ∀ results t,
      tax_history_step env soup results timeout rc t
      = (t ++ evs, history_outcome "tax_history" o results).
Proof.
  unfold tax_history_step. mstep.
  destruct (_get_ajax_url soup "z-expando-table") as [tax_url|e].
  - destruct (get_tax_history_shape tax_url) as [[rows|e] Hr].
    + exists [Get tax_url timeout], (Ok (Some rows)).
      intros results t. by rewrite Hr.
    + destruct (decide (e = NullResultException)) as [->|Hne].
      * exists [Get tax_url timeout; Print tax_history_message;
                LogException NullResultException], (Ok None).
        intros results t. rewrite Hr. simpl. by rewrite <- !app_assoc.
      * exists [Get tax_url timeout], (Raise e).
        intros results t. rewrite Hr. cbv beta iota zeta.
        by destruct (decide (e = NullResultException)).
  - destruct (decide (e = NullResultException)) as [->|Hne].
    + exists [Print tax_history_message; LogException NullResultException], (Ok None).
      intros results t. simpl. by rewrite <- !app_assoc.
    + exists [], (Raise e). intros results t. rewrite app_nil_r.
      by destruct (decide (e = NullResultException)).
Qed.

Lemma history_outcome_lookup (key : string) o (results r : Dict) (k : string) :
  history_outcome key o results = Ok r → k ≠ key → r !! k = results !! k.
Proof.
  intros H Hk. destruct o as [[rows|]|e]; simpl in H; [| |discriminate].
  - injection H as <-. by rewrite lookup_insert_ne.
  - by injection H as <-.
Qed.

Lemma history_outcome_any (key : string) o (results r results' : Dict) :
  history_outcome key o results = Ok r →
  ∃ r', history_outcome key o results' = Ok r'.
Proof.
  intros H. destruct o as [[rows|]|e]; simpl in *; [eauto | eauto | discriminate].
Qed.

(** The history step leaves every key but its own two as it was. *)
Lemma populate_lookup (soup : Soup) (results r : Dict) (t tr : list event) (k : string) :
  populate_price_and_tax_histories env soup results timeout rc t = (tr, Ok r) →
  k ≠ "price_history" → k ≠ "tax_history" → r !! k = results !! k.
Proof.
  intros H Hp Ht. unfold populate_price_and_tax_histories in H. revert H. mstep.
  destruct (price_history_step_shape soup) as (evs1 & o1 & H1).
  destruct (tax_history_step_shape soup) as (evs2 & o2 & H2).
  rewrite H1.
  destruct (history_outcome "price_history" o1 results) as [r1|e] eqn:E1; [|discriminate].
  rewrite H2. intros [= _ E2].
  rewrite (history_outcome_lookup _ _ _ _ k E2 Ht).
  by rewrite (history_outcome_lookup _ _ _ _ k E1 Hp).
Qed.

(** Whether the history step returns does not depend on the result it
    is given. *)
Lemma populate_any (soup : Soup) (results r results' : Dict) (t tr t' : list event) :
  populate_price_and_tax_histories env soup results timeout rc t = (tr, Ok r) →
  ∃ tr' r', populate_price_and_tax_histories env soup results' timeout rc t' = (tr', Ok r').
Proof.
  unfold populate_price_and_tax_histories. mstep.
  destruct (price_history_step_shape soup) as (evs1 & o1 & H1).
  destruct (tax_history_step_shape soup) as (evs2 & o2 & H2).
  rewrite !H1.
  destruct (history_outcome "price_history" o1 results) as [r1|e] eqn:E1; [|discriminate].
  destruct (history_outcome_any _ _ _ _ results' E1) as [r1' ->].
  rewrite !H2. intros [= _ E2].
  destruct (history_outcome_any _ _ _ _ r1' E2) as [r2' ->]. eauto.
Qed.

End HistoryFacts.

Section HistoryClaims.
Variable env : Env.
Variables (timeout : Z) (rc : RequestClass).

Lemma no_table_raises (html : string) :
  no_table env html → table_body_of env html = Raise ValueError.
Proof.
  intros (m & Hm & Hf). unfold table_body_of. rewrite Hm. rstep. by rewrite Hf.
Qed.

Lemma get_ajax_url_missing (soup : Soup) (label : string) :
  Re.search (Pat.ajax label) (soup_text soup) = None →
  _get_ajax_url soup label = Raise NullResultException.
Proof. intros H. unfold _get_ajax_url. by rewrite H. Qed.

Lemma price_history_step_missing (soup : Soup) (results : Dict) (t : list event) :
  Re.search (Pat.ajax "z-hdp-price-history") (soup_text soup) = None →
  price_history_step env soup results timeout rc t
  = (t ++ [Print price_history_message; LogException NullResultException], Ok results).
Proof.
  intros H. unfold price_history_step. mstep.
  rewrite (get_ajax_url_missing _ _ H). cbv beta iota zeta.
  rewrite decide_True by done. by rewrite <- app_assoc.
Qed.

Lemma tax_history_step_missing (soup : Soup) (results : Dict) (t : list event) :
  Re.search (Pat.ajax "z-expando-table") (soup_text soup) = None →
  tax_history_step env soup results timeout rc t
  = (t ++ [Print tax_history_message; LogException NullResultException], Ok results).
Proof.
  intros H. unfold tax_history_step. mstep.
  rewrite (get_ajax_url_missing _ _ H). cbv beta iota zeta.
  rewrite decide_True by done. by rewrite <- app_assoc.
Qed.

Lemma get_tax_history_no_table (tax_url html : string) (t t' : list event) :
  get_raw_html env tax_url timeout rc t = (t', Ok html) →
  no_table env html →
  _get_tax_history env tax_url timeout rc t = (t', Ok []).
Proof.
  intros Hget Hno. unfold _get_tax_history, _get_table_body. mstep.
  rewrite Hget. cbv beta iota zeta. rewrite (no_table_raises _ Hno).
  cbv beta iota zeta. by rewrite decide_True.
Qed.

Lemma tax_history_step_no_table (soup : Soup) (results : Dict) (tax_url html : string)
    (t t' : list event) :
  _get_ajax_url soup "z-expando-table" = Ok tax_url →
  get_raw_html env tax_url timeout rc t = (t', Ok html) →
  no_table env html →
  tax_history_step env soup results timeout rc t
  = (t', Ok (<["tax_history" := VList []]> results)).
Proof.
  intros Hurl Hget Hno. unfold tax_history_step.
  pose proof (get_tax_history_no_table _ _ _ _ Hget Hno) as Htax.
  mstep. rewrite Hurl. cbv beta iota zeta.
  unfold mbind, M_bind in Htax. by rewrite Htax.
Qed.

End HistoryClaims.

(** ** The extractors and the merged result *)

Section ExtractorFacts.
Variable env : Env.

Lemma for_each_invariant {A St} (P : St → Prop) (f : St → A → result St)
    (l : list A) (s s' : St) :
  (∀ s x s', f s x = Ok s' → P s → P s') →
  for_each f l s = Ok s' → P s → P s'.
Proof.
  intros Hf. revert s. induction l as [|x l IH]; intros s H Hs; simpl in H.
  - by injection H as <-.
  - destruct (f s x) as [s1|e] eqn:E; [|discriminate]. eauto.
Qed.

Lemma for_enumerate_invariant {A St} (P : St → Prop) (f : St → nat → A → result St)
    (l : list A) (i : nat) (s s' : St) :
  (∀ s i x s', f s i x = Ok s' → P s → P s') →
  for_enumerate f i l s = Ok s' → P s → P s'.
Proof.
  intros Hf. revert i s. induction l as [|x l IH]; intros i s H Hs; simpl in H.
  - by injection H as <-.
  - destruct (f s i x) as [s1|e] eqn:E; [|discriminate]. eauto.
Qed.

Lemma insert_keeps (d : Dict) (k k' : string) (v : value) :
  is_Some (d !! k) → is_Some (<[k' := v]> d !! k).
Proof. intros H. apply lookup_insert_is_Some'. by right. Qed.

Lemma update_keeps (d1 d2 : Dict) (k : string) :
  is_Some (d1 !! k) → is_Some (update d1 d2 !! k).
Proof. intros H. unfold update. apply lookup_union_is_Some. by right. Qed.

(** A key of the dictionary merged last keeps that dictionary's value. *)
Lemma update_wins (d1 d2 : Dict) (k : string) (v : value) :
  d2 !! k = Some v → update d1 d2 !! k = Some v.
Proof. intros H. unfold update. by apply lookup_union_Some_l. Qed.

Lemma sale_info_row_keeps (d d' : Dict) (row_text k : string) :
  sale_info_row d row_text = Ok d' → is_Some (d !! k) → is_Some (d' !! k).
Proof.
  unfold sale_info_row. rstep. intros H Hk.
  repeat case_match; simplify_eq; auto using insert_keeps.
Qed.

Lemma sale_info_zest_keeps (values : list (list string)) (d d' : Dict) (i : nat)
    (zest : list string) (k : string) :
  sale_info_zest env values d i zest = Ok d' → is_Some (d !! k) → is_Some (d' !! k).
Proof.
  unfold sale_info_zest. rstep. intros H Hk.
  repeat case_match; simplify_eq; auto using insert_keeps.
Qed.

Lemma insert_within (allowed : list string) (d : Dict) (k : string) (v : value) :
  k ∈ allowed → keys_within allowed d → keys_within allowed (<[k := v]> d).
Proof.
  intros Hk Hd k' Hs. apply lookup_insert_is_Some in Hs as [<-|[_ Hs]]; auto.
Qed.

Lemma sale_info_row_within (d d' : Dict) (row_text : string) :
  sale_info_row d row_text = Ok d' →
  keys_within sale_info_keys d → keys_within sale_info_keys d'.
Proof.
  unfold sale_info_row. intros H Hd.
  destruct (nonempty (Re.findall_groups Pat.pricing row_text)).
  - destruct (getitem (Re.findall_groups Pat.pricing row_text) 0) as [first|] eqn:E1;
      [|discriminate].
    rewrite result_bind_ok in H.
    destruct (getitem first 0) as [label|] eqn:E2; [|discriminate].
    rewrite result_bind_ok in H.
    destruct (getitem first 1) as [amount|]; [|discriminate].
    rewrite result_bind_ok in H. injection H as <-.
    apply insert_within; [|done].
    apply pricing_property. by eapply pricing_first_label.
  - destruct (nonempty (Re.findall Pat.status row_text)).
    + destruct (getitem (Re.findall Pat.status row_text) 0) as [st|]; [|discriminate].
      rewrite result_bind_ok in H. injection H as <-.
      apply insert_within; [|done]. unfold sale_info_keys. set_solver.
    + destruct (bool_decide (is_Some (Re.search Pat.currency row_text))).
      * destruct (getitem (Re.findall Pat.currency_amount row_text) 0) as [price|];
          [|discriminate].
        rewrite result_bind_ok in H. injection H as <-.
        apply insert_within; [|done]. unfold sale_info_keys. set_solver.
      * by injection H as <-.
Qed.

Lemma sale_info_zest_within (values : list (list string)) (d d' : Dict) (i : nat)
    (zest : list string) :
  sale_info_zest env values d i zest = Ok d' →
  keys_within sale_info_keys d → keys_within sale_info_keys d'.
Proof.
  unfold sale_info_zest. intros H Hd.
  destruct (Str.contains "rent" (str_of_texts env zest)); [|by injection H as <-].
  destruct (getitem values i) as [element|]; [|discriminate].
  rewrite result_bind_ok in H.
  destruct (getitem element 0) as [text|]; [|discriminate].
  rewrite result_bind_ok in H.
  destruct (getitem (Re.findall Pat.currency_amount text) 0) as [amount|]; [|discriminate].
  rewrite result_bind_ok in H. injection H as <-.
  apply insert_within; [|done]. unfold sale_info_keys. set_solver.
Qed.

(** [_get_sale_info] sets no key outside [sale_info_keys]. *)
Lemma get_sale_info_within (soup : Soup) (sale_info : Dict) :
  _get_sale_info env soup = Ok sale_info → keys_within sale_info_keys sale_info.
Proof.
  unfold _get_sale_info. rstep. intros H.
  destruct (home_value_rows soup) as [summary_rows|]; [|discriminate].
  destruct (for_each sale_info_row summary_rows sale_info_init) as [d1|] eqn:E1;
    [|discriminate].
  eapply (for_enumerate_invariant (keys_within sale_info_keys)); [|exact H|].
  - intros s i x s' Hs Hw. by eapply sale_info_zest_within.
  - eapply (for_each_invariant (keys_within sale_info_keys)); [|exact E1|].
    + intros s x s' Hs Hw. by eapply sale_info_row_within.
    + unfold sale_info_init, sale_info_keys.
      repeat (apply insert_within; [set_solver|]).
      intros k [v Hv]. by rewrite lookup_empty in Hv.
Qed.

(** The four keys [_get_sale_info] starts from are in what it returns. *)
Lemma get_sale_info_keys (soup : Soup) (sale_info : Dict) (k : string) :
  _get_sale_info env soup = Ok sale_info → k ∈ sale_keys → is_Some (sale_info !! k).
Proof.
  unfold _get_sale_info. rstep. intros H Hk.
  destruct (home_value_rows soup) as [summary_rows|]; [|discriminate].
  destruct (for_each sale_info_row summary_rows sale_info_init) as [d1|] eqn:E1;
    [|discriminate].
  assert (H0 : is_Some (sale_info_init !! k)).
  { unfold sale_keys in Hk. rewrite !elem_of_cons in Hk.
    unfold sale_info_init. rewrite !lookup_insert_is_Some'.
    destruct Hk as [->|[->|[->|[->|Hk]]]]; [intuition.. | by apply not_elem_of_nil in Hk]. }
  eapply (for_enumerate_invariant (fun d => is_Some (d !! k))); [|exact H|].
  - intros s i x s' Hs Hp. cbv beta in *. by eapply sale_info_zest_keeps.
  - eapply (for_each_invariant (fun d => is_Some (d !! k))); [|exact E1|exact H0].
    intros s x s' Hs Hp. cbv beta in *. by eapply sale_info_row_keeps.
Qed.

Lemma parse_property_keeps (text : string) (regex : Re.regex) (p k : string) (d : Dict) :
  is_Some (d !! k) → is_Some (parse_property text regex p d !! k).
Proof. intros H. unfold parse_property. case_match; by apply insert_keeps. Qed.

Lemma parse_property_sets (text : string) (regex : Re.regex) (p : string) (d : Dict) :
  is_Some (parse_property text regex p d !! p).
Proof.
  unfold parse_property. case_match; rewrite lookup_insert_eq; by eexists.
Qed.

(** The six keys of the summary are set whenever the region is there. *)
Lemma get_property_summary_keys (soup : Soup) (summary : Dict) (k : string) :
  _get_property_summary soup = Ok summary → k ∈ summary_keys → is_Some (summary !! k).
Proof.
  unfold _get_property_summary. rstep. intros H Hk.
  destruct (_check_for_null_result (prop_summary soup)); [|discriminate].
  injection H as <-.
  unfold summary_keys in Hk. rewrite !elem_of_cons in Hk.
  destruct Hk as [->|[->|[->|[->|[->|[->|Hk]]]]]];
    [ repeat first [ apply parse_property_sets | apply parse_property_keeps ] ..
    | by apply not_elem_of_nil in Hk ].
Qed.

Lemma get_property_summary_found (soup : Soup) (text : string) :
  prop_summary soup = Some text → ∃ summary, _get_property_summary soup = Ok summary.
Proof. intros H. unfold _get_property_summary. rewrite H. rstep. simpl. eauto. Qed.

Lemma get_property_summary_missing (soup : Soup) :
  prop_summary soup = None → _get_property_summary soup = Raise NullResultException.
Proof. intros H. unfold _get_property_summary. by rewrite H. Qed.

Lemma get_description_found (soup : Soup) (text : string) :
  description soup = Some text → _get_description soup = Ok text.
Proof. intros H. unfold _get_description. by rewrite H. Qed.

Lemma get_description_missing (soup : Soup) :
  description soup = None → _get_description soup = Raise NullResultException.
Proof. intros H. unfold _get_description. by rewrite H. Qed.

(** [extract_fields] returns exactly when its five extractors do, and
    then returns their merge. *)
Lemma extract_fields_ok (soup : Soup) (r : Dict) :
  extract_fields env soup = Ok r ↔
  ∃ summary facts sale_info text location_data,
    _get_property_summary soup = Ok summary
    ∧ _parse_facts env (_get_fact_list soup) = Ok facts
    ∧ _get_sale_info env soup = Ok sale_info
    ∧ _get_description soup = Ok text
    ∧ _get_location_data env soup = Ok location_data
    ∧ r = <["location_data" := location_data]>
            (<["photos" := VList (VStr <$> _get_photos soup)]>
               (<["description" := VStr text]>
                  (update (update summary facts) sale_info))).
Proof.
  unfold extract_fields. rstep. split.
  - intros H.
    destruct (_get_property_summary soup) as [summary|]; [|discriminate].
    destruct (_parse_facts env (_get_fact_list soup)) as [facts|]; [|discriminate].
    destruct (_get_sale_info env soup) as [sale_info|]; [|discriminate].
    destruct (_get_description soup) as [text|]; [|discriminate].
    destruct (_get_location_data env soup) as [location_data|]; [|discriminate].
    injection H as <-. by eexists _, _, _, _, _.
  - intros (summary & facts & sale_info & text & location_data
            & -> & -> & -> & -> & -> & ->). reflexivity.
Qed.

(** The first exception among the extractors is the one that leaves
    [extract_fields]. *)
Lemma extract_fields_raises (soup : Soup) :
  prop_summary soup = None ∨ description soup = None →
  ∃ e, extract_fields env soup = Raise e
       ∧ (prop_summary soup = None → e = NullResultException)
       ∧ (∀ facts sale_info,
            _parse_facts env (_get_fact_list soup) = Ok facts →
            _get_sale_info env soup = Ok sale_info → e = NullResultException)
       ∧ (is_Some (prop_summary soup) →
          ∀ e', _parse_facts env (_get_fact_list soup) = Raise e' → e = e')
       ∧ (is_Some (prop_summary soup) →
          ∀ facts e', _parse_facts env (_get_fact_list soup) = Ok facts →
                      _get_sale_info env soup = Raise e' → e = e').
Proof.
  intros H. unfold extract_fields. rstep.
  destruct (prop_summary soup) as [text|] eqn:Es.
  - destruct H as [H|H]; [discriminate|].
    destruct (get_property_summary_found soup text Es) as [summary ->].
    rewrite (get_description_missing soup H).
    destruct (_parse_facts env (_get_fact_list soup)) as [facts|e1].
    + destruct (_get_sale_info env soup) as [sale_info|e2].
      * exists NullResultException.
        split; [done|]. split; [done|]. split; [done|].
        split; [intros _ ? [=] | intros _ ? ? _ [=]].
      * exists e2.
        split; [done|]. split; [discriminate|]. split; [intros ? ? _ [=]|].
        split; [intros _ ? [=] | by intros _ ? ? _ [= ->]].
    + exists e1.
      split; [done|]. split; [discriminate|]. split; [intros ? ? [=]|].
      split; [by intros _ ? [= ->] | intros _ ? ? [=]].
  - rewrite (get_property_summary_missing soup Es).
    exists NullResultException.
    split; [done|]. split; [done|]. split; [done|].
    split; intros [? [=]].
Qed.

End ExtractorFacts.

(** ** The orchestrator *)

Section ScrapeFacts.
Variable env : Env.
Variables (timeout : Z) (rc : RequestClass).

(** [scrape_url] after a successful validation: one fetch, the
    extraction, and the history step if it is asked for. *)
Lemma scrape_url_unfold address zpid flag (page : string) (t : list event) :
  validate_scraper_input env address zpid = Ok page →
  scrape_url env address zpid timeout rc flag t
  = match get_raw_html env page timeout rc t with
    | (t1, Ok html) =>
        match extract_fields env (BeautifulSoup env html) with
        | Ok results =>
            if flag
            then populate_price_and_tax_histories env (BeautifulSoup env html) results
                   timeout rc t1
            else (t1, Ok results)
        | Raise e => (t1, Raise e)
        end
    | (t1, Raise e) => (t1, Raise e)
    end.
Proof.
  intros Hv. unfold scrape_url, extract_fields. mstep. rewrite Hv. cbv beta iota zeta.
  destruct (get_raw_html env page timeout rc t) as [t1 [html|e]]; [|done].
  rstep.
  destruct (_get_property_summary (BeautifulSoup env html)); [|done].
  destruct (_parse_facts env _); [|done].
  destruct (_get_sale_info env _); [|done].
  destruct (_get_description _); [|done].
  destruct (_get_location_data env _); [|done].
  by destruct flag.
Qed.

(** What a returned record went through. *)
Lemma scrape_url_returns address zpid flag (tr : list event) (r : Dict) :
  scrape_url env address zpid timeout rc flag [] = (tr, Ok r) →
  ∃ page html results,
    validate_scraper_input env address zpid = Ok page
    ∧ get_raw_html env page timeout rc [] = ([Get page timeout], Ok html)
    ∧ extract_fields env (BeautifulSoup env html) = Ok results
    ∧ ∀ k, k ≠ "price_history" → k ≠ "tax_history" → r !! k = results !! k.
Proof.
  intros H.
  destruct (validate_scraper_input env address zpid) as [page|e] eqn:Hv.
  - rewrite (scrape_url_unfold _ _ _ page [] Hv) in H.
    destruct (get_raw_html_shape env timeout rc page) as [fetched Hget].
    rewrite Hget in H. simpl in H.
    destruct fetched as [html|e]; [|discriminate].
    destruct (extract_fields env (BeautifulSoup env html)) as [results|e] eqn:Hx;
      [|discriminate].
    exists page, html, results. repeat split; [by rewrite Hget | done |].
    intros k Hp Ht. destruct flag.
    + by eapply populate_lookup.
    + by injection H as _ <-.
  - by rewrite (scrape_url_invalid env _ _ _ _ _ e [] Hv) in H.
Qed.

End ScrapeFacts.

(** ** The history step within the scrape *)

(** What does hold of the claim.  When the descriptor of the price
    history, or of the tax history, is not found in the page, the
    orchestrator catches the [NullResultException], prints its message,
    logs the exception, and goes on with the result unchanged.  When the tax-history response
    holds no table, the tax step returns as well, with an empty row list
    and nothing logged.  And whenever the history step returns, every key
    of the result other than [price_history] and [tax_history] keeps its
    value. *)
Lemma history_descriptor_missing (env : Env) (soup : Soup) (results : Dict)
    (timeout : Z) (rc : RequestClass) (t : list event) :
  (Re.search (Pat.ajax "z-hdp-price-history") (soup_text soup) = None →
   price_history_step env soup results timeout rc t
   = (t ++ [Print price_history_message; LogException NullResultException], Ok results))
  ∧ (Re.search (Pat.ajax "z-expando-table") (soup_text soup) = None →
     tax_history_step env soup results timeout rc t
     = (t ++ [Print tax_history_message; LogException NullResultException], Ok results))
  ∧ (∀ tax_url html,
       _get_ajax_url soup "z-expando-table" = Ok tax_url →
       get_raw_html env tax_url timeout rc t = (t ++ [Get tax_url timeout], Ok html) →
       no_table env html →
       tax_history_step env soup results timeout rc t
       = (t ++ [Get tax_url timeout], Ok (<["tax_history" := VList []]> results)))
  ∧ (∀ tr r,
       populate_price_and_tax_histories env soup results timeout rc t = (tr, Ok r) →
       ∀ k, k ≠ "price_history" → k ≠ "tax_history" → r !! k = results !! k).
Proof.
  split; [|split; [|split]].
  - apply price_history_step_missing.
  - apply tax_history_step_missing.
  - intros tax_url html. apply tax_history_step_no_table.
  - intros tr r H k Hp Ht. eapply populate_lookup; eauto.
Qed.

Example history_without_descriptors :
  price_history_step Sample.env Sample.no_descriptors ∅ 10 Sample.get []
  = ([Print price_history_message; LogException NullResultException], Ok ∅)
  ∧ tax_history_step Sample.env Sample.no_descriptors ∅ 10 Sample.get []
    = ([Print tax_history_message; LogException NullResultException], Ok ∅).
Proof.
  destruct (history_descriptor_missing Sample.env Sample.no_descriptors ∅ 10 Sample.get [])
    as (Hp & Ht & _ & _).
  split; [apply Hp | apply Ht]; reflexivity.
Qed.

(** C5, at the failing input.  The page holds a price-history descriptor,
    its address is fetched, and the fragment in the response holds no
    table.  [_get_table_body] raises the [ValueError] it has for pages
    without a history; [_get_tax_history] catches that error and returns
    no rows for the very same response, [_get_price_history] does not
    catch it, and the orchestrator catches a [NullResultException] only:
    the error is neither caught nor logged, it leaves the history step
    and the scrape, and the record is lost. *)
Lemma price_history_without_table_propagates :
  _get_ajax_url Sample.price_without_table "z-hdp-price-history"
  = Ok (Sample.site +:+ Sample.bare_path)
  ∧ run (get_raw_html Sample.env (Sample.site +:+ Sample.bare_path) 10 Sample.get)
    = ([Get (Sample.site +:+ Sample.bare_path) 10], Ok (Sample.envelope_of "<p>No data<\/p>"))
  ∧ table_body_of Sample.env (Sample.envelope_of "<p>No data<\/p>") = Raise ValueError
  ∧ run (_get_tax_history Sample.env (Sample.site +:+ Sample.bare_path) 10 Sample.get)
    = ([Get (Sample.site +:+ Sample.bare_path) 10], Ok [])
  ∧ run (_get_price_history Sample.env (Sample.site +:+ Sample.bare_path) 10 Sample.get)
    = ([Get (Sample.site +:+ Sample.bare_path) 10], Raise ValueError)
  ∧ run (populate_price_and_tax_histories Sample.env Sample.price_without_table ∅ 10
           Sample.get)
    = ([Get (Sample.site +:+ Sample.bare_path) 10], Raise ValueError)
  ∧ Sample.scrape 6
    = ([Get "http://www.zillow.com/homes/6_zpid/(index)/" 10;
        Get (Sample.site +:+ Sample.bare_path) 10], Raise ValueError).
Proof. repeat split; vm_compute; reflexivity. Qed.

(** C6.  When the tax-history descriptor is found, its address is fetched
    and the fragment in the response holds no table, [_get_tax_history]
    returns the empty list, the tax step stores it under [tax_history],
    the history step returns the result of the price step with that one
    key added, and so does [scrape_url]; every other key, [price_history]
    among them, keeps its value. *)
Theorem tax_history_without_table (env : Env) (soup : Soup) (results : Dict)
    (timeout : Z) (rc : RequestClass) (tax_url html : string) (t t' : list event) :
  _get_ajax_url soup "z-expando-table" = Ok tax_url →
  get_raw_html env tax_url timeout rc t = (t', Ok html) →
  no_table env html →
  _get_tax_history env tax_url timeout rc t = (t', Ok [])
  ∧ tax_history_step env soup results timeout rc t
    = (t', Ok (<["tax_history" := VList []]> results))
  ∧ (∀ results0 t0,
       price_history_step env soup results0 timeout rc t0 = (t, Ok results) →
       populate_price_and_tax_histories env soup results0 timeout rc t0
       = (t', Ok (<["tax_history" := VList []]> results)))
  ∧ (∀ address zpid page body results0 t0,
       validate_scraper_input env address zpid = Ok page →
       get_raw_html env page timeout rc [] = (t0, Ok body) →
       BeautifulSoup env body = soup →
       extract_fields env soup = Ok results0 →
       price_history_step env soup results0 timeout rc t0 = (t, Ok results) →
       scrape_url env address zpid timeout rc true []
       = (t', Ok (<["tax_history" := VList []]> results)))
  ∧ (∀ k, k ≠ "tax_history" →
       (<["tax_history" := VList []]> results : Dict) !! k = results !! k).
Proof.
  intros Hurl Hget Hno.
  pose proof (tax_history_step_no_table env timeout rc soup results _ _ _ _ Hurl Hget Hno)
    as Hstep.
  assert (Hpopulate : ∀ results0 t0,
    price_history_step env soup results0 timeout rc t0 = (t, Ok results) →
    populate_price_and_tax_histories env soup results0 timeout rc t0
    = (t', Ok (<["tax_history" := VList []]> results))).
  { intros results0 t0 Hprice. unfold populate_price_and_tax_histories.
    unfold mbind at 1. unfold M_bind. rewrite Hprice. exact Hstep. }
  split; [|split; [|split; [|split]]].
  - by apply get_tax_history_no_table with (html := html).
  - exact Hstep.
  - exact Hpopulate.
  - intros address zpid page body results0 t0 Hv Hpage <- Hx Hprice.
    rewrite (scrape_url_unfold env timeout rc _ _ _ page [] Hv), Hpage, Hx.
    by apply Hpopulate.
  - intros k Hk. by rewrite lookup_insert_ne.
Qed.

Lemma tax_history_without_table_witness :
  run (populate_price_and_tax_histories Sample.env Sample.tax_without_table ∅ 10 Sample.get)
  = ([Get (Sample.site +:+ Sample.price_path) 10; Get (Sample.site +:+ Sample.bare_path) 10],
     Ok (<["tax_history" := VList []]>
           (<["price_history" := VList Sample.price_rows]> ∅))).
Proof.
  assert (Hurl : _get_ajax_url Sample.tax_without_table "z-expando-table"
                 = Ok (Sample.site +:+ Sample.bare_path)) by (vm_compute; reflexivity).
  assert (Hget : get_raw_html Sample.env (Sample.site +:+ Sample.bare_path) 10 Sample.get
                   [Get (Sample.site +:+ Sample.price_path) 10]
                 = ([Get (Sample.site +:+ Sample.price_path) 10;
                     Get (Sample.site +:+ Sample.bare_path) 10],
                    Ok (Sample.envelope_of "<p>No data<\/p>")))
    by (vm_compute; reflexivity).
  assert (Hno : no_table Sample.env (Sample.envelope_of "<p>No data<\/p>"))
    by (eexists; split; vm_compute; reflexivity).
  destruct (tax_history_without_table Sample.env Sample.tax_without_table
              (<["price_history" := VList Sample.price_rows]> ∅) 10 Sample.get
              _ _ _ _ Hurl Hget Hno) as (_ & _ & Hpopulate & _).
  apply Hpopulate. vm_compute. reflexivity.
Defined.

(** ** The record of a scrape *)

Lemma summary_key_not_history (k : string) :
  k ∈ summary_keys → k ≠ "price_history" ∧ k ≠ "tax_history" ∧ k ∉ later_keys.
Proof.
  unfold summary_keys. rewrite !elem_of_cons.
  intros [->|[->|[->|[->|[->|[->|H]]]]]];
    [ (split; [discriminate|]; split; [discriminate|]; unfold later_keys; not_in_list) ..
    | by apply not_elem_of_nil in H ].
Qed.

Lemma sale_info_key_not_later (k : string) : k ∈ sale_info_keys → k ∉ later_keys.
Proof.
  unfold sale_info_keys. rewrite !elem_of_cons.
  intros [->|[->|[->|[->|[->|[->|[->|[->|[->|H]]]]]]]]];
    [ (unfold later_keys; not_in_list) .. | by apply not_elem_of_nil in H ].
Qed.

Lemma not_later_key (k : string) :
  k ∉ later_keys →
  k ≠ "description" ∧ k ≠ "photos" ∧ k ≠ "location_data"
  ∧ k ≠ "price_history" ∧ k ≠ "tax_history".
Proof.
  unfold later_keys. rewrite !not_elem_of_cons. tauto.
Qed.

(** Whatever record [scrape_url] returns has a description and the six
    summary keys. *)
Lemma scrape_url_record_keys (env : Env) (address : option string) (zpid : option Z)
    (timeout : Z) (rc : RequestClass) (flag : bool) (tr : list event) (r : Dict) :
  scrape_url env address zpid timeout rc flag [] = (tr, Ok r) →
  (∃ text, r !! "description" = Some (VStr text))
  ∧ ∀ k, k ∈ summary_keys → is_Some (r !! k).
Proof.
  intros H.
  destruct (scrape_url_returns env timeout rc _ _ _ _ _ H)
    as (page & html & results & Hv & Hget & Hx & Hsame).
  apply extract_fields_ok in Hx
    as (summary & facts & sale_info & text & location_data
        & Hsum & Hfacts & Hsale & Hdesc & Hloc & ->).
  split.
  - exists text. rewrite Hsame by discriminate.
    rewrite !lookup_insert_ne by discriminate. apply lookup_insert_eq.
  - intros k Hk. destruct (summary_key_not_history k Hk) as (Hp & Ht & _).
    rewrite (Hsame k Hp Ht). do 3 apply insert_keeps. do 2 apply update_keeps.
    by eapply get_property_summary_keys.
Qed.

(** C1 (as amended).  For every document that contains the summary region
    and the description region, and on which the fact, sale-info and
    geolocation extractors and, when it is asked for, the history step
    raise no error, [scrape_url] returns a record; its [description] is
    the text of the description region, and the six summary keys are all
    present. *)
Theorem scrape_url_mandatory_regions (env : Env) (address : option string)
    (zpid : option Z) (timeout : Z) (rc : RequestClass) (flag : bool)
    (page html : string) (soup : Soup) (summary_text description_text : string)
    (facts sale_info : Dict) (location_data : value) :
  validate_scraper_input env address zpid = Ok page →
  get_raw_html env page timeout rc [] = ([Get page timeout], Ok html) →
  BeautifulSoup env html = soup →
  prop_summary soup = Some summary_text →
  description soup = Some description_text →
  _parse_facts env (_get_fact_list soup) = Ok facts →
  _get_sale_info env soup = Ok sale_info →
  _get_location_data env soup = Ok location_data →
  (flag = true →
   ∃ tr r, populate_price_and_tax_histories env soup ∅ timeout rc [Get page timeout]
           = (tr, Ok r)) →
  ∃ tr r,
    scrape_url env address zpid timeout rc flag [] = (tr, Ok r)
    ∧ r !! "description" = Some (VStr description_text)
    ∧ ∀ k, k ∈ summary_keys → is_Some (r !! k).
Proof.
  intros Hv Hget <- Hs Hd Hf Hsale Hloc Hhist.
  destruct (get_property_summary_found _ _ Hs) as [summary Hsum].
  pose proof (get_description_found _ _ Hd) as Hdesc.
  set (results := <["location_data" := location_data]>
                    (<["photos" := VList (VStr <$> _get_photos (BeautifulSoup env html))]>
                       (<["description" := VStr description_text]>
                          (update (update summary facts) sale_info)))).
  assert (Hx : extract_fields env (BeautifulSoup env html) = Ok results).
  { apply extract_fields_ok. by eexists _, _, _, _, _. }
  assert (Hdescr : results !! "description" = Some (VStr description_text)).
  { unfold results. rewrite !lookup_insert_ne by discriminate. apply lookup_insert_eq. }
  assert (Hkeys : ∀ k, k ∈ summary_keys → is_Some (results !! k)).
  { intros k Hk. unfold results. do 3 apply insert_keeps. do 2 apply update_keeps.
    by eapply get_property_summary_keys. }
  rewrite (scrape_url_unfold env timeout rc _ _ _ page [] Hv), Hget, Hx.
  destruct flag.
  - destruct (Hhist eq_refl) as (tr0 & r0 & H0).
    destruct (populate_any env timeout rc _ _ _ results _ _ [Get page timeout] H0)
      as (tr & r & Hr).
    exists tr, r. split; [exact Hr|]. split.
    + rewrite (populate_lookup env timeout rc _ _ _ _ _ "description" Hr) by discriminate.
      exact Hdescr.
    + intros k Hk. destruct (summary_key_not_history k Hk) as (Hp & Ht & _).
      rewrite (populate_lookup env timeout rc _ _ _ _ _ k Hr Hp Ht). by apply Hkeys.
  - by exists [Get page timeout], results.
Qed.

Lemma scrape_url_mandatory_regions_witness :
  ∃ tr r,
    Sample.scrape 1 = (tr, Ok r)
    ∧ r !! "description" = Some (VStr "A sunny home.")
    ∧ ∀ k, k ∈ summary_keys → is_Some (r !! k).
Proof.
  apply (scrape_url_mandatory_regions Sample.env None (Some 1) 10 Sample.get true
           "http://www.zillow.com/homes/1_zpid/(index)/" "listing" Sample.listing
           Sample.summary "A sunny home." Sample.listing_facts Sample.listing_sale_info
           Sample.listing_location).
  - vm_compute. reflexivity.
  - vm_compute. reflexivity.
  - vm_compute. reflexivity.
  - vm_compute. reflexivity.
  - vm_compute. reflexivity.
  - vm_compute. reflexivity.
  - vm_compute. reflexivity.
  - vm_compute. reflexivity.
  - intros _.
    exists [Get "http://www.zillow.com/homes/1_zpid/(index)/" 10;
            Get (Sample.site +:+ Sample.price_path) 10;
            Get (Sample.site +:+ Sample.tax_path) 10],
           (<["tax_history" := VList Sample.tax_rows]>
              (<["price_history" := VList Sample.price_rows]> ∅)).
    vm_compute. reflexivity.
Defined.

(** C1 as stated fails on a page that has both mandatory regions and no
    pricing region: the scrape ends with an [AttributeError]. *)
Lemma mandatory_regions_not_sufficient :
  BeautifulSoup Sample.env "no pricing" = Sample.no_pricing
  ∧ is_Some (prop_summary Sample.no_pricing)
  ∧ is_Some (description Sample.no_pricing)
  ∧ home_value_rows Sample.no_pricing = None
  ∧ run (get_raw_html Sample.env "http://www.zillow.com/homes/2_zpid/(index)/" 10 Sample.get)
    = ([Get "http://www.zillow.com/homes/2_zpid/(index)/" 10], Ok "no pricing")
  ∧ Sample.scrape 2
    = ([Get "http://www.zillow.com/homes/2_zpid/(index)/" 10], Raise AttributeError)
  ∧ Sample.scrape_without_history 2
    = ([Get "http://www.zillow.com/homes/2_zpid/(index)/" 10], Raise AttributeError).
Proof.
  split; [reflexivity|]. split; [by eexists|]. split; [by eexists|].
  split; [reflexivity|]. repeat split; vm_compute; reflexivity.
Qed.

(** C2 (as amended).  For every document that lacks the summary region or
    the description region, [scrape_url] fails and requests nothing but
    the page itself: no history fetch is made.  The failure is a
    [NullResultException] when the summary region is missing, and also
    when the description region is missing and the fact and sale-info
    extractors, which run before the description is looked for, have
    returned; when one of the two raises on a page that has its summary,
    the failure is the error of the first that does. *)
Theorem scrape_url_missing_region (env : Env) (address : option string)
    (zpid : option Z) (timeout : Z) (rc : RequestClass) (flag : bool)
    (page html : string) (soup : Soup) :
  validate_scraper_input env address zpid = Ok page →
  get_raw_html env page timeout rc [] = ([Get page timeout], Ok html) →
  BeautifulSoup env html = soup →
  prop_summary soup = None ∨ description soup = None →
  ∃ e,
    scrape_url env address zpid timeout rc flag [] = ([Get page timeout], Raise e)
    ∧ requests [Get page timeout] = [page]
    ∧ (prop_summary soup = None → e = NullResultException)
    ∧ (∀ facts sale_info,
         _parse_facts env (_get_fact_list soup) = Ok facts →
         _get_sale_info env soup = Ok sale_info → e = NullResultException)
    ∧ (is_Some (prop_summary soup) →
       ∀ e', _parse_facts env (_get_fact_list soup) = Raise e' → e = e')
    ∧ (is_Some (prop_summary soup) →
       ∀ facts e', _parse_facts env (_get_fact_list soup) = Ok facts →
                   _get_sale_info env soup = Raise e' → e = e').
Proof.
  intros Hv Hget <- Hmissing.
  destruct (extract_fields_raises env _ Hmissing) as (e & Hx & Hsum & Hdesc & Hf & Hs).
  exists e. rewrite (scrape_url_unfold env timeout rc _ _ _ page [] Hv), Hget, Hx.
  by repeat split.
Qed.

Lemma scrape_url_missing_region_witness :
  (prop_summary Sample.no_summary = None ∨ description Sample.no_summary = None)
  ∧ Sample.scrape 4
    = ([Get "http://www.zillow.com/homes/4_zpid/(index)/" 10], Raise NullResultException).
Proof.
  assert (Hmissing : prop_summary Sample.no_summary = None
                     ∨ description Sample.no_summary = None) by (left; reflexivity).
  split; [exact Hmissing|].
  destruct (scrape_url_missing_region Sample.env None (Some 4) 10 Sample.get true
              "http://www.zillow.com/homes/4_zpid/(index)/" "no summary" Sample.no_summary)
    as (e & Hrun & _ & Hsum & _).
  - vm_compute. reflexivity.
  - vm_compute. reflexivity.
  - vm_compute. reflexivity.
  - exact Hmissing.
  - unfold Sample.scrape, run. rewrite Hrun. by rewrite (Hsum eq_refl).
Defined.

(** C2 as stated fails on a page that has the summary region but neither
    a description region nor a pricing region: the [AttributeError] of the
    sale-info extractor comes first. *)
Lemma missing_description_other_error :
  BeautifulSoup Sample.env "no description" = Sample.no_description
  ∧ is_Some (prop_summary Sample.no_description)
  ∧ description Sample.no_description = None
  ∧ home_value_rows Sample.no_description = None
  ∧ Sample.scrape 3
    = ([Get "http://www.zillow.com/homes/3_zpid/(index)/" 10], Raise AttributeError).
Proof.
  split; [reflexivity|]. split; [by eexists|]. split; [reflexivity|].
  split; [reflexivity|]. vm_compute. reflexivity.
Qed.

(** C10.  Every record [scrape_url] returns has the keys [price],
    [status], [zestimate] and [rent_zestimate], whatever the document:
    the sale-info extractor starts from a dictionary holding the four and
    only adds to it, and its result is merged after the facts.  So every
    key of the sale info has the sale info's value in the record, null
    included, whatever the facts stored under that key. *)
Theorem sale_info_keys_win (env : Env) (address : option string) (zpid : option Z)
    (timeout : Z) (rc : RequestClass) (flag : bool) (tr : list event) (r : Dict) :
  scrape_url env address zpid timeout rc flag [] = (tr, Ok r) →
  (∀ k, k ∈ sale_keys → is_Some (r !! k))
  ∧ ∃ page html facts sale_info,
      validate_scraper_input env address zpid = Ok page
      ∧ get_raw_html env page timeout rc [] = ([Get page timeout], Ok html)
      ∧ _parse_facts env (_get_fact_list (BeautifulSoup env html)) = Ok facts
      ∧ _get_sale_info env (BeautifulSoup env html) = Ok sale_info
      ∧ (∀ k, k ∈ sale_keys → is_Some (sale_info !! k))
      ∧ (∀ k v, sale_info !! k = Some v → r !! k = Some v).
Proof.
  intros H.
  destruct (scrape_url_returns env timeout rc _ _ _ _ _ H)
    as (page & html & results & Hv & Hget & Hx & Hsame).
  apply extract_fields_ok in Hx
    as (summary & facts & sale_info & text & location_data
        & Hsum & Hfacts & Hsale & Hdesc & Hloc & ->).
  assert (Hwin : ∀ k v, sale_info !! k = Some v → r !! k = Some v).
  { intros k v Hk.
    assert (Hlater : k ∉ later_keys).
    { apply sale_info_key_not_later. eapply get_sale_info_within; [exact Hsale|].
      by exists v. }
    destruct (not_later_key k Hlater) as (H1 & H2 & H3 & H4 & H5).
    rewrite (Hsame k H4 H5). rewrite !lookup_insert_ne by done.
    by apply update_wins. }
  assert (Hkeys : ∀ k, k ∈ sale_keys → is_Some (sale_info !! k)).
  { intros k Hk. by eapply get_sale_info_keys. }
  split.
  - intros k Hk. destruct (Hkeys k Hk) as [v Hkv].
    exists v. by apply Hwin.
  - by exists page, html, facts, sale_info.
Qed.

Lemma sale_info_keys_win_witness :
  Sample.scrape_without_history 1
  = ([Get "http://www.zillow.com/homes/1_zpid/(index)/" 10], Ok Sample.listing_record)
  ∧ Sample.listing_facts !! "price" = Some (VStr "unknown")
  ∧ ∀ k, k ∈ sale_keys → is_Some (Sample.listing_record !! k).
Proof.
  assert (Hrun : Sample.scrape_without_history 1
                 = ([Get "http://www.zillow.com/homes/1_zpid/(index)/" 10],
                    Ok Sample.listing_record)) by (vm_compute; reflexivity).
  split; [exact Hrun|]. split; [reflexivity|].
  exact (proj1 (sale_info_keys_win Sample.env None (Some 1) 10 Sample.get false _ _ Hrun)).
Defined.

(** ** The marker region without a comment *)

(** C8, at the failing input.  On a page whose marker region holds no
    comment node, the lookup of the comment's text raises an
    [AttributeError] before the guarded conversion is reached: nothing
    falls back to null, the data attributes are not consulted although
    they are there, and the error leaves the scrape. *)
Lemma marker_without_comment_raises :
  home_marker_data Sample.no_comment = Some None
  ∧ is_Some (map_coordinates Sample.no_comment)
  ∧ _get_location_data Sample.env Sample.no_comment = Raise AttributeError
  ∧ Sample.scrape 5
    = ([Get "http://www.zillow.com/homes/5_zpid/(index)/" 10], Raise AttributeError).
Proof.
  split; [reflexivity|]. split; [by eexists|]. split; vm_compute; reflexivity.
Qed.

(** What does hold of the claim: an error raised by the conversion of the
    two tokens is caught, both coordinates become null, and they are then
    read from the data attributes. *)
Lemma conversion_error_falls_back (env : Env) (soup : Soup) (comment : string) (e : exn) :
  home_marker_data soup = Some (Some comment) →
  coordinates (Str.split "," (Str.strip_char "]" (Str.strip_char "[" comment))) = Raise e →
  _get_location_data env soup
  = (lat ← attr (map_coordinates soup) "data-latitude";
     lon ← attr (map_coordinates soup) "data-longitude";
     addr_substr ← try_except (address env (map_coordinates soup)) (Ok VNone);
     Ok (VDict [("latitude", VStr lat); ("longitude", VStr lon); ("address", addr_substr)])).
Proof.
  intros Hdiv Hraise. unfold _get_location_data. rewrite Hdiv. rstep.
  rewrite Hraise. cbv beta iota zeta. unfold truthy, negb. cbv beta iota zeta.
  destruct (attr (map_coordinates soup) "data-latitude"); [|done].
  by destruct (attr (map_coordinates soup) "data-longitude").
Qed.

(** ** The matcher against the words of a pattern *)

Section Sound.
Context {X : Type}.
Implicit Types (s : list ascii) (c : Re.caps) (k : list ascii → Re.caps → option X).

Lemma captured_mono r r' d :
  (∀ n, bodies r n ⊆ bodies r' n) → Forall (captured r) d → Forall (captured r') d.
Proof.
  intros Hsub HF. eapply Forall_impl; [exact HF|].
  intros [n t] (b & Hb & L). exists b. split; [by apply Hsub | done].
Qed.

(** A successful run consumed a word of the pattern, and pushed captures
    of the pattern's groups only, one at least for every group that
    always takes part. *)
Lemma run_sound (r : Re.regex) :
  ∀ s c k (x : X),
    Re.run r s c k = Some x →
    ∃ t rest d,
      s = t ++ rest ∧ lang r t ∧ k rest (d ++ c) = Some x
      ∧ Forall (captured r) d
      ∧ ∀ n, always_captures r n = true → Decimal.has_group d n = true.
Proof.
  induction r as [| p | r1 IH1 r2 IH2 | r1 IH1 r2 IH2 | r' IH | m r' IH];
    intros s c k x H.
  - exists [], s, []. repeat split; [constructor | done | done | done].
  - simpl in H. destruct s as [|a s]; [discriminate|].
    destruct (p a) eqn:Hp; [|discriminate].
    exists [a], s, []. repeat split; [by constructor | done | done | done].
  - simpl in H.
    destruct (IH1 _ _ _ _ H) as (t1 & rest1 & d1 & -> & L1 & H1 & C1 & A1).
    destruct (IH2 _ _ _ _ H1) as (t2 & rest2 & d2 & -> & L2 & H2 & C2 & A2).
    exists (t1 ++ t2), rest2, (d2 ++ d1).
    split; [by rewrite app_assoc|]. split; [by constructor|].
    split; [by rewrite <- app_assoc|]. split.
    + apply Forall_app. split.
      * eapply captured_mono; [|exact C2]. intros n. simpl. set_solver.
      * eapply captured_mono; [|exact C1]. intros n. simpl. set_solver.
    + intros n Hn. simpl in Hn. unfold Decimal.has_group. rewrite existsb_app.
      apply orb_true_iff in Hn as [Hn|Hn]; apply orb_true_iff.
      * right. by apply A1.
      * left. by apply A2.
  - simpl in H. destruct (Re.run r1 s c k) as [y|] eqn:E.
    + injection H as ->.
      destruct (IH1 _ _ _ _ E) as (t & rest & d & -> & L & Hk & C & A).
      exists t, rest, d. split; [done|]. split; [by apply lang_alt_l|].
      split; [done|]. split.
      * eapply captured_mono; [|exact C]. intros n. simpl. set_solver.
      * intros n Hn. simpl in Hn. apply andb_prop in Hn as [Hn _]. by apply A.
    + destruct (IH2 _ _ _ _ H) as (t & rest & d & -> & L & Hk & C & A).
      exists t, rest, d. split; [done|]. split; [by apply lang_alt_r|].
      split; [done|]. split.
      * eapply captured_mono; [|exact C]. intros n. simpl. set_solver.
      * intros n Hn. simpl in Hn. apply andb_prop in Hn as [_ Hn]. by apply A.
  - simpl in H. remember (length s) as fuel eqn:Hfuel in H. clear Hfuel.
    revert s c H. induction fuel as [|fuel IHf]; intros s c H.
    + exists [], s, []. repeat split; [constructor | done | done | done].
    + match type of H with
      | match ?scrut with _ => _ end = _ => destruct scrut as [y|] eqn:E
      end.
      * injection H as ->.
        destruct (IH _ _ _ _ E) as (t1 & rest1 & d1 & -> & L1 & H1 & C1 & _).
        destruct (length rest1 <? length (t1 ++ rest1))%nat; [|discriminate].
        destruct (IHf _ _ H1) as (t2 & rest2 & d2 & -> & L2 & H2 & C2 & _).
        exists (t1 ++ t2), rest2, (d2 ++ d1).
        split; [by rewrite app_assoc|]. split; [by constructor|].
        split; [by rewrite <- app_assoc|]. split; [|done].
        apply Forall_app. by split.
      * exists [], s, []. repeat split; [constructor | done | done | done].
  - simpl in H.
    destruct (IH _ _ _ _ H) as (t & rest & d & -> & L & Hk & C & A).
    rewrite consumed_prefix in Hk.
    exists t, rest, ((m, t) :: d).
    split; [done|]. split; [by constructor|]. split; [done|]. split.
    + constructor.
      * exists r'. simpl. rewrite Nat.eqb_refl. split; [set_solver | done].
      * eapply captured_mono; [|exact C]. intros n. simpl. set_solver.
    + intros n Hn. simpl in Hn. unfold Decimal.has_group. simpl.
      apply orb_true_iff in Hn as [Hn|Hn]; apply orb_true_iff; [by left|].
      right. by apply A.
Qed.

(** Whether a pattern matches does not depend on its groups. *)
Lemma run_erase {Y : Type} (r : Re.regex) :
  ∀ s c c' k (k' : list ascii → Re.caps → option Y),
    (∀ rest c1 c2, k rest c1 = None ↔ k' rest c2 = None) →
    Re.run r s c k = None ↔ Re.run (erase r) s c' k' = None.
Proof.
  induction r as [| p | r1 IH1 r2 IH2 | r1 IH1 r2 IH2 | r' IH | m r' IH];
    intros s c c' k k' Hk.
  - apply Hk.
  - simpl. destruct s as [|a s]; [done|]. destruct (p a); [apply Hk | done].
  - simpl. apply IH1. intros rest c1 c2. by apply IH2.
  - simpl. specialize (IH1 s c c' k k' Hk). specialize (IH2 s c c' k k' Hk).
    destruct (Re.run r1 s c k) as [y|], (Re.run (erase r1) s c' k') as [y'|].
    + split; discriminate.
    + destruct IH1 as [_ B]. by specialize (B eq_refl).
    + destruct IH1 as [A _]. by specialize (A eq_refl).
    + exact IH2.
  - simpl. generalize (length s). intros fuel.
    revert s c c'. induction fuel as [|fuel IHf]; intros s c c'.
    + apply Hk.
    + match goal with
      | |- match ?a with _ => _ end = None ↔ match ?b with _ => _ end = None =>
          assert (Hab : a = None ↔ b = None);
          [| destruct a as [y|], b as [y'|] ]
      end.
      * apply IH. intros rest c1 c2.
        destruct (length rest <? length s)%nat; [apply IHf | done].
      * split; discriminate.
      * destruct Hab as [_ B]. by specialize (B eq_refl).
      * destruct Hab as [A _]. by specialize (A eq_refl).
      * apply Hk.
  - simpl. apply IH. intros rest c1 c2. apply Hk.
Qed.

End Sound.

Lemma match_here_sound (r : Re.regex) (s rest : list ascii) (c : Re.caps) :
  Re.match_here r s = Some (rest, c) →
  ∃ t, s = t ++ rest ∧ lang r t ∧ Forall (captured r) c
       ∧ ∀ n, always_captures r n = true → Decimal.has_group c n = true.
Proof.
  unfold Re.match_here. intros H.
  destruct (run_sound r _ _ _ _ H) as (t & rest' & d & -> & L & Hk & C & A).
  rewrite app_nil_r in Hk. injection Hk as -> ->. by exists t.
Qed.

Lemma match_here_consumed (r : Re.regex) (s rest : list ascii) (c : Re.caps) :
  Re.match_here r s = Some (rest, c) →
  Re.consumed s rest ++ rest = s ∧ lang r (Re.consumed s rest) ∧ Forall (captured r) c
  ∧ ∀ n, always_captures r n = true → Decimal.has_group c n = true.
Proof.
  intros H. destruct (match_here_sound _ _ _ _ H) as (t & -> & L & C & A).
  by rewrite consumed_prefix.
Qed.

(** A match found by the search: the text splits into what precedes the
    match, the match and the rest, and the match is a word of the
    pattern. *)
Lemma search_go_sound (r : Re.regex) (pre s : list ascii) (m : Re.rmatch) :
  Re.search_go r pre s = Some m →
  Re.m_pre m ++ Re.m_text m ++ Re.m_rest m = List.rev pre ++ s
  ∧ lang r (Re.m_text m) ∧ Forall (captured r) (Re.m_caps m)
  ∧ ∀ n, always_captures r n = true → Decimal.has_group (Re.m_caps m) n = true.
Proof.
  revert pre. induction s as [|a s IH]; intros pre H; simpl in H.
  - destruct (Re.match_here r []) as [[rest c]|] eqn:E; [|discriminate].
    injection H as <-. cbn [Re.m_pre Re.m_text Re.m_rest Re.m_caps].
    destruct (match_here_consumed _ _ _ _ E) as (Hs & L & C & A). by rewrite Hs.
  - destruct (Re.match_here r (a :: s)) as [[rest c]|] eqn:E.
    + injection H as <-. cbn [Re.m_pre Re.m_text Re.m_rest Re.m_caps].
      destruct (match_here_consumed _ _ _ _ E) as (Hs & L & C & A). by rewrite Hs.
    + destruct (IH _ H) as (Hd & L & C & A). split; [|done].
      rewrite Hd. simpl. by rewrite <- app_assoc.
Qed.

(** Whether the search finds a match does not depend on the groups of
    the pattern. *)
Lemma search_go_erase (r : Re.regex) (pre pre' s : list ascii) :
  Re.search_go r pre s = None ↔ Re.search_go (erase r) pre' s = None.
Proof.
  revert pre pre'. induction s as [|a s IH]; intros pre pre'; simpl.
  - assert (H : Re.match_here r [] = None ↔ Re.match_here (erase r) [] = None).
    { unfold Re.match_here. by apply run_erase. }
    destruct (Re.match_here r []) as [[rest c]|], (Re.match_here (erase r) []) as [[rest' c']|];
      try done.
    + destruct H as [_ B]. by specialize (B eq_refl).
    + destruct H as [A _]. by specialize (A eq_refl).
  - assert (H : Re.match_here r (a :: s) = None ↔ Re.match_here (erase r) (a :: s) = None).
    { unfold Re.match_here. by apply run_erase. }
    destruct (Re.match_here r (a :: s)) as [[rest c]|],
      (Re.match_here (erase r) (a :: s)) as [[rest' c']|]; try done.
    + destruct H as [_ B]. by specialize (B eq_refl).
    + destruct H as [A _]. by specialize (A eq_refl).
Qed.

Lemma group_of_captured (r : Re.regex) (c : Re.caps) (n : nat) :
  Forall (captured r) c → Decimal.has_group c n = true →
  ∃ t b, Re.group_of c n = Str.of_list t ∧ b ∈ bodies r n ∧ lang b t.
Proof.
  unfold Re.group_of, Decimal.has_group.
  induction c as [|[m u] c IH]; intros HF Hn; simpl in *; [discriminate|].
  apply Forall_cons in HF as [Hc HF].
  destruct (Nat.eqb_spec m n) as [->|Hne].
  - destruct Hc as (b & Hb & L). by exists u, b.
  - by apply IH.
Qed.

Lemma matches_go_sound (fuel : nat) (r : Re.regex) (pre s : list ascii) (m : Re.rmatch) :
  m ∈ Re.matches_go fuel r pre s →
  lang r (Re.m_text m) ∧ Forall (captured r) (Re.m_caps m)
  ∧ ∀ n, always_captures r n = true → Decimal.has_group (Re.m_caps m) n = true.
Proof.
  revert pre s. induction fuel as [|fuel IH]; intros pre s H; simpl in H.
  - by apply elem_of_nil in H.
  - destruct (Re.search_go r pre s) as [m0|] eqn:E; [|by apply elem_of_nil in H].
    apply elem_of_cons in H as [->|H].
    + by destruct (search_go_sound _ _ _ _ E) as (_ & L & C & A).
    + destruct (Re.m_text m0), (Re.m_rest m0); eauto. by apply elem_of_nil in H.
Qed.

(** What [re.findall] returns for a pattern whose first group takes part
    in every match: texts that group can capture. *)
Lemma findall_group (r : Re.regex) (s x : string) :
  always_captures r 1 = true → x ∈ Re.findall r s →
  ∃ t b, x = Str.of_list t ∧ b ∈ bodies r 1 ∧ lang b t.
Proof.
  intros Ha Hx. unfold Re.findall in Hx. apply list_elem_of_fmap in Hx as (m & -> & Hm).
  apply matches_go_sound in Hm as (L & C & A).
  assert (Hn : Nat.min 1 (Re.ngroups r) = 1%nat).
  { assert (1 ≤ Re.ngroups r)%nat; [|lia].
    clear -Ha. induction r; simpl in *; try discriminate.
    - apply orb_true_iff in Ha as [H|H]; [apply IHr1 in H | apply IHr2 in H]; lia.
    - apply andb_prop in Ha as [H _]. apply IHr1 in H. lia.
    - lia. }
  rewrite Hn. simpl. by apply (group_of_captured r); [|apply A].
Qed.

(** What [re.findall] returns for a pattern without groups: words of the
    pattern. *)
Lemma findall_whole (r : Re.regex) (s x : string) :
  Re.ngroups r = 0%nat → x ∈ Re.findall r s → ∃ t, x = Str.of_list t ∧ lang r t.
Proof.
  intros Hn Hx. unfold Re.findall in Hx. apply list_elem_of_fmap in Hx as (m & -> & Hm).
  apply matches_go_sound in Hm as (L & _). rewrite Hn. simpl. by eexists.
Qed.

(** [re.findall] finds something exactly when [re.search] does, also for
    the pattern without its groups. *)
Lemma findall_nonempty (r : Re.regex) (s : string) :
  is_Some (Re.search (erase r) s) → ∃ x, getitem (Re.findall r s) 0 = Ok x.
Proof.
  unfold Re.search, Re.findall, Re.matches. intros [m Hm]. simpl.
  destruct (Re.search_go r [] (Str.to_list s)) as [m'|] eqn:E.
  - simpl. by eexists.
  - apply (search_go_erase r [] []) in E. congruence.
Qed.

(** *** Words of the pattern forms *)

Lemma lang_eps_inv (t : list ascii) : lang Re.Eps t → t = [].
Proof. by inversion 1. Qed.

Lemma lang_chr_inv (p : ascii → bool) (t : list ascii) :
  lang (Re.Chr p) t → ∃ a, t = [a] ∧ p a = true.
Proof. inversion 1; subst. by eexists. Qed.

Lemma lang_cat_inv (r1 r2 : Re.regex) (t : list ascii) :
  lang (Re.Cat r1 r2) t → ∃ t1 t2, t = t1 ++ t2 ∧ lang r1 t1 ∧ lang r2 t2.
Proof. inversion 1; subst. by eexists _, _. Qed.

Lemma lang_alt_inv (r1 r2 : Re.regex) (t : list ascii) :
  lang (Re.Alt r1 r2) t → lang r1 t ∨ lang r2 t.
Proof. inversion 1; subst; auto. Qed.

Lemma lang_grp_inv (n : nat) (r : Re.regex) (t : list ascii) : lang (Re.Grp n r) t → lang r t.
Proof. by inversion 1. Qed.


Lemma lang_star_chr (p : ascii → bool) (t : list ascii) :
  lang (Re.Star (Re.Chr p)) t → forallb p t = true.
Proof.
  intros H. remember (Re.Star (Re.Chr p)) as r eqn:Hr.
  induction H; try discriminate; [done|].
  injection Hr as ->. apply lang_chr_inv in H as (a & -> & Hp).
  simpl. rewrite Hp. by apply IHlang2.
Qed.

Lemma lang_plus_chr (p : ascii → bool) (t : list ascii) :
  lang (Re.Plus (Re.Chr p)) t → t ≠ [] ∧ forallb p t = true.
Proof.
  intros H. apply lang_cat_inv in H as (t1 & t2 & -> & H1 & H2).
  apply lang_chr_inv in H1 as (a & -> & Hp). apply lang_star_chr in H2.
  split; [done|]. simpl. by rewrite Hp.
Qed.

Lemma lang_lit (l : string) (t : list ascii) : lang (Re.lit l) t → t = Str.to_list l.
Proof.
  revert t. induction l as [|a l IH]; intros t H; simpl in H.
  - by apply lang_eps_inv.
  - apply lang_cat_inv in H as (t1 & t2 & -> & H1 & H2).
    apply lang_chr_inv in H1 as (b & -> & Hb). apply Ascii.eqb_eq in Hb as <-.
    simpl. f_equal. by apply IH.
Qed.

Lemma lang_alts (labels : list string) (t : list ascii) :
  lang (Re.alts labels) t → ∃ l, l ∈ labels ∧ t = Str.to_list l.
Proof.
  induction labels as [|l labels IH]; intros H.
  - simpl in H. by apply lang_chr_inv in H as (a & _ & ?).
  - destruct labels as [|l' labels].
    + exists l. split; [by left | by apply lang_lit].
    + change (Re.alts (l :: l' :: labels))
        with (Re.Alt (Re.lit l) (Re.alts (l' :: labels))) in H.
      apply lang_alt_inv in H as [H|H].
      * exists l. split; [by left | by apply lang_lit].
      * destruct (IH H) as (l0 & Hl & ->). exists l0. split; [by right | done].
Qed.



(** The match found by the search is a match at the place where it was
    found. *)
Lemma search_go_match (r : Re.regex) (pre s : list ascii) (m : Re.rmatch) :
  Re.search_go r pre s = Some m →
  Re.match_here r (Re.m_text m ++ Re.m_rest m) = Some (Re.m_rest m, Re.m_caps m)
  ∧ Re.m_pre m ++ Re.m_text m ++ Re.m_rest m = List.rev pre ++ s.
Proof.
  revert pre. induction s as [|a s IH]; intros pre H; simpl in H.
  - destruct (Re.match_here r []) as [[rest c]|] eqn:E; [|discriminate].
    injection H as <-. cbn [Re.m_pre Re.m_text Re.m_rest Re.m_caps].
    destruct (match_here_consumed _ _ _ _ E) as (Hs & _). by rewrite Hs.
  - destruct (Re.match_here r (a :: s)) as [[rest c]|] eqn:E.
    + injection H as <-. cbn [Re.m_pre Re.m_text Re.m_rest Re.m_caps].
      destruct (match_here_consumed _ _ _ _ E) as (Hs & _). by rewrite Hs.
    + destruct (IH _ H) as (Hm & Hd). split; [done|].
      rewrite Hd. simpl. by rewrite <- app_assoc.
Qed.

Lemma to_list_of_list (t : list ascii) : Str.to_list (Str.of_list t) = t.
Proof. apply list_ascii_of_string_of_list_ascii. Qed.

Lemma of_list_to_list (s : string) : Str.of_list (Str.to_list s) = s.
Proof. apply string_of_list_ascii_of_string. Qed.

(** A match of a pattern that begins with a group: the group's text is
    the first part of the match. *)
Lemma match_here_cat_grp (n : nat) (A B : Re.regex) (s rest : list ascii) (c : Re.caps) :
  no_group n B = true →
  Re.match_here (Re.Cat (Re.Grp n A) B) s = Some (rest, c) →
  ∃ t1 t2, s = t1 ++ t2 ++ rest ∧ lang A t1 ∧ lang B t2 ∧ Re.group_of c n = Str.of_list t1.
Proof.
  intros HB. unfold Re.match_here.
  change (Re.run (Re.Cat (Re.Grp n A) B) s [] (fun rest c => Some (rest, c)))
    with (Re.run A s []
            (fun rest1 c1 =>
               Re.run B rest1 ((n, Re.consumed s rest1) :: c1) (fun rest c => Some (rest, c)))).
  intros H.
  destruct (run_sound A _ _ _ _ H) as (t1 & rest1 & d1 & -> & L1 & H1 & _).
  rewrite consumed_prefix in H1.
  destruct (run_sound B _ _ _ _ H1) as (t2 & rest2 & d2 & -> & L2 & H2 & _).
  injection H2 as -> _.
  destruct (run_keeps_group n B HB _ _ _ _ H1) as (rest' & c' & Hk & Hg).
  injection Hk as _ ->.
  exists t1, t2. repeat split; [done | done |].
  rewrite Hg. unfold Re.group_of. simpl. by rewrite Nat.eqb_refl.
Qed.

(** The first item of [re.findall] for a pattern whose only group
    numbered 1 has the body [b] and takes part in every match. *)
Lemma findall_first_group (r b : Re.regex) (s f : string) :
  always_captures r 1 = true → bodies r 1 = [b] →
  getitem (Re.findall r s) 0 = Ok f → lang b (Str.to_list f).
Proof.
  intros Ha Hb Hf. unfold getitem in Hf.
  destruct (Re.findall r s !! 0%nat) as [f'|] eqn:E; [|discriminate]. injection Hf as ->.
  apply list_elem_of_lookup_2 in E.
  destruct (findall_group _ _ _ Ha E) as (t & b' & -> & Hin & L).
  rewrite Hb in Hin. apply list_elem_of_singleton in Hin as ->.
  by rewrite to_list_of_list.
Qed.

Lemma getitem_raises {A} (l : list A) (i : nat) (e : exn) :
  getitem l i = Raise e → e = IndexError.
Proof. unfold getitem. destruct (l !! i); [discriminate|]. by intros [= <-]. Qed.

Lemma getitem_nonempty {A} (l : list A) : nonempty l = true → ∃ x, getitem l 0 = Ok x.
Proof. destruct l as [|x l]; [discriminate|]. by exists x. Qed.

(** ** The property summary *)


Lemma plus_chr_string (p : ascii → bool) (s : string) :
  lang (Re.Plus (Re.Chr p)) (Str.to_list s) → s ≠ "" ∧ all_chars p s = true.
Proof.
  intros H. apply lang_plus_chr in H as [Hne Hall]. split; [|done].
  intros ->. by apply Hne.
Qed.





(** ** The sale info *)

Lemma for_each_total {A St} (f : St → A → result St) (l : list A) (s : St) :
  (∀ s x, ∃ s', f s x = Ok s') → ∃ s', for_each f l s = Ok s'.
Proof.
  intros Hf. revert s. induction l as [|x l IH]; intros s; simpl; [by eexists|].
  destruct (Hf s x) as [s1 ->]. apply IH.
Qed.

Lemma for_enumerate_total {A St} (f : St → nat → A → result St) (l : list A) (i : nat) (s : St) :
  (∀ s i x, x ∈ l → ∃ s', f s i x = Ok s') → ∃ s', for_enumerate f i l s = Ok s'.
Proof.
  revert i s. induction l as [|x l IH]; intros i s Hf; simpl; [by eexists|].
  destruct (Hf s i x) as [s1 ->]; [by left|]. apply IH.
  intros s' i' x' Hx. apply Hf. by right.
Qed.

Lemma for_enumerate_raises {A St} (P : exn → Prop) (f : St → nat → A → result St)
    (l : list A) (i : nat) (s : St) (e : exn) :
  (∀ s i x e, f s i x = Raise e → P e) → for_enumerate f i l s = Raise e → P e.
Proof.
  intros Hf. revert i s. induction l as [|x l IH]; intros i s H; simpl in H; [discriminate|].
  destruct (f s i x) as [s1|e1] eqn:E; [by eapply IH|].
  injection H as <-. by eapply Hf.
Qed.

Lemma for_each_raises {A St} (P : exn → Prop) (f : St → A → result St)
    (l : list A) (s : St) (e : exn) :
  (∀ s x e, f s x = Raise e → P e) → for_each f l s = Raise e → P e.
Proof.
  intros Hf. revert s. induction l as [|x l IH]; intros s H; simpl in H; [discriminate|].
  destruct (f s x) as [s1|e1] eqn:E; [by eapply IH|].
  injection H as <-. by eapply Hf.
Qed.

(** The items of [re.findall] for a pattern with two groups are pairs. *)
Lemma findall_groups_pricing (row_text : string) (first : list string) :
  first ∈ Re.findall_groups Pat.pricing row_text →
  ∃ label amount, first = [label; amount].
Proof.
  unfold Re.findall_groups. intros H. apply list_elem_of_fmap in H as (m & -> & _).
  change (Re.ngroups Pat.pricing) with 2%nat. simpl. by eexists _, _.
Qed.

(** The body of the loop over the summary rows raises nothing. *)
Lemma sale_info_row_total (sale_info : Dict) (row_text : string) :
  ∃ d, sale_info_row sale_info row_text = Ok d.
Proof.
  unfold sale_info_row.
  destruct (nonempty (Re.findall_groups Pat.pricing row_text)) eqn:Epricing.
  - destruct (getitem_nonempty _ Epricing) as [first Hfirst]. rewrite Hfirst.
    rewrite result_bind_ok.
    assert (Hin : first ∈ Re.findall_groups Pat.pricing row_text).
    { unfold getitem in Hfirst. destruct (_ !! 0%nat) eqn:E; [|discriminate].
      injection Hfirst as ->. by eapply list_elem_of_lookup_2. }
    destruct (findall_groups_pricing _ _ Hin) as (label & amount & ->).
    by eexists.
  - destruct (nonempty (Re.findall Pat.status row_text)) eqn:Estatus.
    + destruct (getitem_nonempty _ Estatus) as [st ->]. by eexists.
    + destruct (bool_decide (is_Some (Re.search Pat.currency row_text))) eqn:Ecur;
        [|by eexists].
      apply bool_decide_eq_true in Ecur.
      destruct (findall_nonempty Pat.currency_amount row_text Ecur) as [price ->].
      by eexists.
Qed.

Lemma sale_info_zest_raises (env : Env) (values : list (list string)) (d : Dict) (i : nat)
    (zest : list string) (e : exn) :
  sale_info_zest env values d i zest = Raise e → e = IndexError.
Proof.
  unfold sale_info_zest. rstep.
  destruct (Str.contains "rent" (str_of_texts env zest)); [|discriminate].
  destruct (getitem values i) as [element|e1] eqn:E1;
    [|intros [= <-]; by eapply getitem_raises].
  destruct (getitem element 0) as [text|e2] eqn:E2;
    [|intros [= <-]; by eapply getitem_raises].
  destruct (getitem (Re.findall Pat.currency_amount text) 0) as [amount|e3] eqn:E3;
    [discriminate|intros [= <-]; by eapply getitem_raises].
Qed.

(** X2.  How [_get_sale_info] fails: with an [AttributeError] when the page has
    no pricing region, with an [IndexError] from the loop over the
    zestimate titles, and not otherwise.  The loop over the summary rows
    raises nothing, so a page with its pricing region and without a
    title that mentions rent always has its sale info. *)
Theorem get_sale_info_failures (env : Env) (soup : Soup) :
  (home_value_rows soup = None → _get_sale_info env soup = Raise AttributeError)
  ∧ (is_Some (home_value_rows soup) →
     (∀ title, title ∈ zest_titles soup →
               Str.contains "rent" (str_of_texts env title) = false) →
     ∃ sale_info, _get_sale_info env soup = Ok sale_info)
  ∧ (∀ e, _get_sale_info env soup = Raise e →
          (e = AttributeError ∧ home_value_rows soup = None)
          ∨ (e = IndexError ∧ is_Some (home_value_rows soup))).
Proof.
  unfold _get_sale_info. rstep. split; [|split].
  - by intros ->.
  - intros [rows ->] Hrent.
    destruct (for_each_total sale_info_row rows sale_info_init sale_info_row_total)
      as [d1 ->].
    apply for_enumerate_total. intros d i title Hin.
    unfold sale_info_zest. rewrite (Hrent _ Hin). by eexists.
  - intros e. destruct (home_value_rows soup) as [rows|]; [|intros [= <-]; by left].
    destruct (for_each_total sale_info_row rows sale_info_init sale_info_row_total)
      as [d1 ->].
    intros H. right. split; [|by eexists].
    eapply (for_enumerate_raises (fun e => e = IndexError)); [|exact H].
    intros d i zest e'. apply sale_info_zest_raises.
Qed.

Lemma get_sale_info_failures_witness :
  is_Some (home_value_rows Sample.no_descriptors)
  ∧ home_value_rows Sample.no_pricing = None
  ∧ _get_sale_info Sample.env Sample.no_pricing = Raise AttributeError.
Proof.
  split; [by eexists|]. split; [reflexivity|].
  apply (proj1 (get_sale_info_failures Sample.env Sample.no_pricing)). reflexivity.
Defined.

Lemma pricing_property_fresh (label : string) :
  label ∈ Pat.pricing_labels →
  Str.lower (Str.replace " " "_" (Str.strip label)) ≠ "status"
  ∧ Str.lower (Str.replace " " "_" (Str.strip label)) ≠ "price".
Proof.
  unfold Pat.pricing_labels. rewrite !elem_of_cons.
  intros [->|[->|[->|[->|[->|[->|[->|H]]]]]]];
    [ (split; vm_compute; discriminate) .. | by apply not_elem_of_nil in H ].
Qed.

Lemma sale_info_values_insert (d : Dict) (k s : string) :
  k ≠ "status" → k ≠ "price" → sale_info_values d → sale_info_values (<[k := VStr s]> d).
Proof.
  intros Hs Hp (Hstatus & Hprice & Hall). split; [|split].
  - by rewrite lookup_insert_ne.
  - by rewrite lookup_insert_ne.
  - intros k' v. destruct (decide (k' = k)) as [->|Hne].
    + rewrite lookup_insert_eq. intros [= <-]. eauto.
    + rewrite lookup_insert_ne by done. apply Hall.
Qed.

Lemma sale_info_row_values (d d' : Dict) (row_text : string) :
  sale_info_row d row_text = Ok d' → sale_info_values d → sale_info_values d'.
Proof.
  unfold sale_info_row. intros H Hd.
  destruct (nonempty (Re.findall_groups Pat.pricing row_text)).
  - destruct (getitem (Re.findall_groups Pat.pricing row_text) 0) as [first|] eqn:E1;
      [|discriminate].
    rewrite result_bind_ok in H.
    destruct (getitem first 0) as [label|] eqn:E2; [|discriminate].
    rewrite result_bind_ok in H.
    destruct (getitem first 1) as [amount|]; [|discriminate].
    rewrite result_bind_ok in H. injection H as <-.
    destruct (pricing_property_fresh label) as [Hs Hp]; [by eapply pricing_first_label|].
    by apply sale_info_values_insert.
  - destruct (nonempty (Re.findall Pat.status row_text)).
    + destruct (getitem (Re.findall Pat.status row_text) 0) as [st|] eqn:E; [|discriminate].
      rewrite result_bind_ok in H. injection H as <-.
      apply (findall_first_group _ (Re.alts status_labels)) in E; [|done..].
      apply lang_alts in E as (l & Hl & E).
      assert (st = l) as ->.
      { by rewrite <- (of_list_to_list st), E, of_list_to_list. }
      destruct Hd as (Hstatus & Hprice & Hall). split; [|split].
      * rewrite lookup_insert_eq. exists (VStr l). split; [done|]. right. by exists l.
      * by rewrite lookup_insert_ne.
      * intros k' v. destruct (decide (k' = "status")) as [->|Hne].
        -- rewrite lookup_insert_eq. intros [= <-]. eauto.
        -- rewrite lookup_insert_ne by done. apply Hall.
    + destruct (bool_decide (is_Some (Re.search Pat.currency row_text))).
      * destruct (getitem (Re.findall Pat.currency_amount row_text) 0) as [price|] eqn:E;
          [|discriminate].
        rewrite result_bind_ok in H. injection H as <-.
        apply (findall_first_group _ (Pat.digits_and ",")) in E; [|done..].
        apply plus_chr_string in E as [Hne Hchars].
        destruct Hd as (Hstatus & Hprice & Hall). split; [|split].
        -- by rewrite lookup_insert_ne.
        -- rewrite lookup_insert_eq. exists (VStr price). split; [done|]. right.
           by exists price.
        -- intros k' v. destruct (decide (k' = "price")) as [->|Hne'].
           ++ rewrite lookup_insert_eq. intros [= <-]. eauto.
           ++ rewrite lookup_insert_ne by done. apply Hall.
      * by injection H as <-.
Qed.

Lemma sale_info_zest_values (env : Env) (values : list (list string)) (d d' : Dict)
    (i : nat) (zest : list string) :
  sale_info_zest env values d i zest = Ok d' → sale_info_values d → sale_info_values d'.
Proof.
  unfold sale_info_zest. intros H Hd.
  destruct (Str.contains "rent" (str_of_texts env zest)); [|by injection H as <-].
  destruct (getitem values i) as [element|]; [|discriminate].
  rewrite result_bind_ok in H.
  destruct (getitem element 0) as [text|]; [|discriminate].
  rewrite result_bind_ok in H.
  destruct (getitem (Re.findall Pat.currency_amount text) 0) as [amount|]; [|discriminate].
  rewrite result_bind_ok in H. injection H as <-.
  by apply sale_info_values_insert.
Qed.

(** X3.  Whatever [_get_sale_info] returns: its [status] is [None] or one of the
    six statuses of the status pattern, its [price] is [None] or a
    non-empty text of digits and commas, every value is [None] or a
    text, and every key is one of the nine the function can set. *)
Theorem get_sale_info_values (env : Env) (soup : Soup) (sale_info : Dict) :
  _get_sale_info env soup = Ok sale_info →
  sale_info_values sale_info ∧ keys_within sale_info_keys sale_info.
Proof.
  intros H. split; [|by eapply get_sale_info_within].
  revert H. unfold _get_sale_info. rstep. intros H.
  destruct (home_value_rows soup) as [summary_rows|]; [|discriminate].
  destruct (for_each sale_info_row summary_rows sale_info_init) as [d1|] eqn:E1;
    [|discriminate].
  eapply (for_enumerate_invariant sale_info_values); [|exact H|].
  - intros s i x s'. apply sale_info_zest_values.
  - eapply (for_each_invariant sale_info_values); [|exact E1|].
    + intros s x s'. apply sale_info_row_values.
    + unfold sale_info_init. split; [|split].
      * exists VNone. split; [|by left].
        rewrite lookup_insert_ne by done. by rewrite lookup_insert_eq.
      * exists VNone. split; [|by left]. by rewrite lookup_insert_eq.
      * intros k v Hk. left.
        repeat (apply lookup_insert_Some in Hk as [[_ <-]|[_ Hk]]; [done|]).
        by rewrite lookup_empty in Hk.
Qed.

Lemma get_sale_info_values_witness :
  _get_sale_info Sample.env Sample.listing = Ok Sample.listing_sale_info
  ∧ sale_info_values Sample.listing_sale_info.
Proof.
  assert (Hrun : _get_sale_info Sample.env Sample.listing = Ok Sample.listing_sale_info)
    by (vm_compute; reflexivity).
  split; [exact Hrun|].
  exact (proj1 (get_sale_info_values Sample.env Sample.listing _ Hrun)).
Defined.

(** ** The history descriptors *)

Lemma to_list_app (s1 s2 : string) : Str.to_list (s1 +:+ s2) = Str.to_list s1 ++ Str.to_list s2.
Proof. induction s1 as [|a s1 IH]; simpl; [done | f_equal; exact IH]. Qed.

Lemma of_list_app (t1 t2 : list ascii) : Str.of_list (t1 ++ t2) = Str.of_list t1 +:+ Str.of_list t2.
Proof. induction t1 as [|a t1 IH]; simpl; [done | rewrite IH; reflexivity]. Qed.

Lemma no_group_lit (n : nat) (l : string) : no_group n (Re.lit l) = true.
Proof. induction l as [|a l IH]; simpl; [done | exact IH]. Qed.

Lemma to_list_inj (s1 s2 : string) : Str.to_list s1 = Str.to_list s2 → s1 = s2.
Proof. intros H. by rewrite <- (of_list_to_list s1), H, of_list_to_list. Qed.

Lemma plus_chr_list (p : ascii → bool) (t : list ascii) :
  lang (Re.Plus (Re.Chr p)) t → Str.of_list t ≠ "" ∧ all_chars p (Str.of_list t) = true.
Proof.
  intros H. apply plus_chr_string. by rewrite to_list_of_list.
Qed.

(** A descriptor found in the page: the address is site-relative, has
    the form of the pattern, and stands in the page's text right before
    the marker with the label. *)
Lemma get_ajax_url_found (soup : Soup) (label u : string) :
  _get_ajax_url soup label = Ok u →
  ∃ (c h : ascii) (params id before after : string),
    u = "http://www.zillow.com" +:+ ajax_path c h params id
    ∧ Re.any c = true
    ∧ params ≠ "" ∧ all_chars (fun a => Re.word a || Re.one_of "-_~=" a) params = true
    ∧ id ≠ "" ∧ all_chars Re.digit id = true
    ∧ Re.digit h = true
    ∧ soup_text soup = before +:+ ajax_path c h params id +:+ ajax_marker label +:+ after.
Proof.
  unfold _get_ajax_url. rstep.
  destruct (Re.search (Pat.ajax label) (soup_text soup)) as [m|] eqn:E; [|discriminate].
  simpl. intros [= <-].
  unfold Re.search in E. apply search_go_match in E as [Hm Hd].
  unfold Pat.ajax in Hm. apply match_here_cat_grp in Hm as (t1 & t2 & Hs & L1 & L2 & Hg).
  2: { simpl. by rewrite no_group_lit. }
  rewrite app_assoc in Hs. apply app_inv_tail in Hs. simpl in Hd. rewrite Hs in Hd.
  (* the address *)
  apply lang_cat_inv in L1 as (a1 & r1 & -> & La1 & L1). apply lang_lit in La1 as ->.
  apply lang_cat_inv in L1 as (a2 & r2 & -> & La2 & L1).
  apply lang_chr_inv in La2 as (c & -> & Hc).
  apply lang_cat_inv in L1 as (a3 & r3 & -> & La3 & L1). apply lang_lit in La3 as ->.
  apply lang_cat_inv in L1 as (ps & r4 & -> & Lps & L1). apply plus_chr_list in Lps as [Hps1 Hps2].
  apply lang_cat_inv in L1 as (a5 & r5 & -> & La5 & L1). apply lang_lit in La5 as ->.
  apply lang_cat_inv in L1 as (ds & r6 & -> & Lds & L1). apply plus_chr_list in Lds as [Hds1 Hds2].
  apply lang_cat_inv in L1 as (a7 & r7 & -> & La7 & L1). apply lang_lit in La7 as ->.
  apply lang_chr_inv in L1 as (h & -> & Hh).
  (* the marker *)
  apply lang_cat_inv in L2 as (b1 & q1 & -> & Lb1 & L2).
  apply lang_chr_inv in Lb1 as (x1 & -> & Hx1). apply Ascii.eqb_eq in Hx1 as <-.
  apply lang_cat_inv in L2 as (b2 & q2 & -> & Lb2 & L2). apply lang_lit in Lb2 as ->.
  apply lang_cat_inv in L2 as (b3 & q3 & -> & Lb3 & L2).
  apply lang_chr_inv in Lb3 as (x3 & -> & Hx3). apply Ascii.eqb_eq in Hx3 as <-.
  apply lang_cat_inv in L2 as (b4 & q4 & -> & Lb4 & L2). apply lang_lit in Lb4 as ->.
  apply lang_cat_inv in L2 as (b5 & q5 & -> & Lb5 & L2).
  apply lang_chr_inv in Lb5 as (x5 & -> & Hx5). apply Ascii.eqb_eq in Hx5 as <-.
  apply lang_cat_inv in L2 as (b6 & q6 & -> & Lb6 & L2). apply lang_lit in Lb6 as ->.
  apply lang_cat_inv in L2 as (b7 & q7 & -> & Lb7 & L2).
  apply lang_chr_inv in Lb7 as (x7 & -> & Hx7). apply Ascii.eqb_eq in Hx7 as <-.
  apply lang_lit in L2 as ->.
  exists c, h, (Str.of_list ps), (Str.of_list ds),
    (Str.of_list (Re.m_pre m)), (Str.of_list (Re.m_rest m)).
  assert (Hpath : Str.to_list (ajax_path c h (Str.of_list ps) (Str.of_list ds))
                  = Str.to_list "/AjaxRender" ++ [c] ++ Str.to_list "htm?encparams=" ++ ps
                    ++ Str.to_list "&rwebid=" ++ ds ++ Str.to_list "&rhost=" ++ [h]).
  { unfold ajax_path. rewrite to_list_app.
    change (Str.to_list (String c ?x)) with (c :: Str.to_list x).
    rewrite !to_list_app, !to_list_of_list. reflexivity. }
  split.
  { rewrite Hg. f_equal. apply to_list_inj. by rewrite Hpath, to_list_of_list. }
  do 5 (split; [done|]). split; [done|].
  apply to_list_inj. rewrite <- Hd, !to_list_app, Hpath, !to_list_of_list.
  unfold ajax_marker. rewrite !to_list_app, <- !app_assoc. reflexivity.
Qed.



(** ** The trace of a scrape *)

Ltac history_events :=
  repeat first
    [ by apply Forall_nil
    | apply Forall_cons; split; [simpl; first [done | by left | by right | by split]|] ].

Section TraceFacts.
Variable env : Env.
Variables (timeout : Z) (rc : RequestClass).

Lemma get_ajax_url_prefix (soup : Soup) (label u : string) :
  _get_ajax_url soup label = Ok u →
  String.prefix "http://www.zillow.com/AjaxRender" u = true.
Proof.
  intros H. apply get_ajax_url_found in H as (c & h & params & id & before & after & -> & _).
  reflexivity.
Qed.

Lemma get_ajax_url_raises (soup : Soup) (label : string) (e : exn) :
  _get_ajax_url soup label = Raise e → e = NullResultException.
Proof.
  unfold _get_ajax_url. destruct (Re.search _ _); simpl; by intros [=].
Qed.

Lemma price_history_step_events (soup : Soup) (results : Dict) (t : list event) :
  ∃ evs r, price_history_step env soup results timeout rc t = (t ++ evs, r)
           ∧ Forall (history_event timeout) evs ∧ (length (requests evs) ≤ 1)%nat.
Proof.
  unfold price_history_step. mstep.
  destruct (_get_ajax_url soup "z-hdp-price-history") as [history_url|e] eqn:Hurl.
  - pose proof (get_ajax_url_prefix _ _ _ Hurl) as Hprefix.
    destruct (get_price_history_shape env timeout rc history_url) as [[rows|e] Hr].
    + exists [Get history_url timeout], (Ok (<["price_history" := VList rows]> results)).
      rewrite Hr. split; [done|]. split; [|simpl; lia].
      history_events.
    + rewrite Hr. cbv beta iota zeta.
      destruct (decide (e = NullResultException)) as [->|Hne].
      * exists [Get history_url timeout; Print price_history_message;
                LogException NullResultException], (Ok results).
        split; [by rewrite <- !app_assoc|]. split; [|simpl; lia].
        history_events.
      * exists [Get history_url timeout], (Raise e).
        split; [done|]. split; [|simpl; lia]. history_events.
  - apply get_ajax_url_raises in Hurl as ->. rewrite decide_True by done.
    exists [Print price_history_message; LogException NullResultException], (Ok results).
    split; [by rewrite <- !app_assoc|]. split; [|simpl; lia].
    history_events.
Qed.

Lemma tax_history_step_events (soup : Soup) (results : Dict) (t : list event) :
  ∃ evs r, tax_history_step env soup results timeout rc t = (t ++ evs, r)
           ∧ Forall (history_event timeout) evs ∧ (length (requests evs) ≤ 1)%nat.
Proof.
  unfold tax_history_step. mstep.
  destruct (_get_ajax_url soup "z-expando-table") as [tax_url|e] eqn:Hurl.
  - pose proof (get_ajax_url_prefix _ _ _ Hurl) as Hprefix.
    destruct (get_tax_history_shape env timeout rc tax_url) as [[rows|e] Hr].
    + exists [Get tax_url timeout], (Ok (<["tax_history" := VList rows]> results)).
      rewrite Hr. split; [done|]. split; [|simpl; lia].
      history_events.
    + rewrite Hr. cbv beta iota zeta.
      destruct (decide (e = NullResultException)) as [->|Hne].
      * exists [Get tax_url timeout; Print tax_history_message;
                LogException NullResultException], (Ok results).
        split; [by rewrite <- !app_assoc|]. split; [|simpl; lia].
        history_events.
      * exists [Get tax_url timeout], (Raise e).
        split; [done|]. split; [|simpl; lia]. history_events.
  - apply get_ajax_url_raises in Hurl as ->. rewrite decide_True by done.
    exists [Print tax_history_message; LogException NullResultException], (Ok results).
    split; [by rewrite <- !app_assoc|]. split; [|simpl; lia].
    history_events.
Qed.

Lemma requests_app (t1 t2 : list event) : requests (t1 ++ t2) = requests t1 ++ requests t2.
Proof. unfold requests. apply omap_app. Qed.

Lemma populate_events (soup : Soup) (results : Dict) (t : list event) :
  ∃ evs r, populate_price_and_tax_histories env soup results timeout rc t = (t ++ evs, r)
           ∧ Forall (history_event timeout) evs ∧ (length (requests evs) ≤ 2)%nat.
Proof.
  unfold populate_price_and_tax_histories. mstep.
  destruct (price_history_step_events soup results t) as (evs1 & r1 & -> & F1 & L1).
  destruct r1 as [results1|e].
  - destruct (tax_history_step_events soup results1 (t ++ evs1)) as (evs2 & r2 & -> & F2 & L2).
    exists (evs1 ++ evs2), r2. split; [by rewrite app_assoc|].
    split; [by apply Forall_app|]. rewrite requests_app, length_app. lia.
  - exists evs1, (Raise e). split; [done|]. split; [done | lia].
Qed.

End TraceFacts.

(** X5.  What [scrape_url] does to the outside world.  With a rejected
    input: nothing.  Otherwise it requests the validated address first,
    with the caller's timeout; when the histories are not asked for, that
    is all; when they are, at most two more requests follow, each with
    the same timeout and to an address under
    [http://www.zillow.com/AjaxRender], and nothing is printed but the two
    history messages and nothing logged but a [NullResultException]. *)
Theorem scrape_url_trace (env : Env) (address : option string) (zpid : option Z)
    (timeout : Z) (rc : RequestClass) (flag : bool) (tr : list event) (r : result Dict) :
  scrape_url env address zpid timeout rc flag [] = (tr, r) →
  match validate_scraper_input env address zpid with
  | Raise e => tr = [] ∧ r = Raise e
  | Ok page =>
      ∃ evs, tr = Get page timeout :: evs
             ∧ Forall (history_event timeout) evs
             ∧ (length (requests evs) ≤ 2)%nat
             ∧ (flag = false → evs = [])
  end.
Proof.
  intros H.
  destruct (validate_scraper_input env address zpid) as [page|e] eqn:Hv.
  - rewrite (scrape_url_unfold env timeout rc _ _ _ page [] Hv) in H.
    destruct (get_raw_html_shape env timeout rc page) as [fetched Hget].
    rewrite Hget in H. simpl in H.
    destruct fetched as [html|e].
    + destruct (extract_fields env (BeautifulSoup env html)) as [results|e].
      * destruct flag.
        -- destruct (populate_events env timeout rc (BeautifulSoup env html) results
                       [Get page timeout]) as (evs & r' & Hp & F & L).
           rewrite Hp in H. injection H as <- _. exists evs. by repeat split.
        -- injection H as <- _. exists []. repeat split; [done | simpl; lia].
      * injection H as <- _. exists []. repeat split; [done | simpl; lia].
    + injection H as <- _. exists []. repeat split; [done | simpl; lia].
  - rewrite (scrape_url_invalid env _ _ _ _ _ e [] Hv) in H. by injection H as <- <-.
Qed.

Lemma scrape_url_trace_witness :
  ∃ evs, fst (Sample.scrape 8) = Get "http://www.zillow.com/homes/8_zpid/(index)/" 10 :: evs
         ∧ Forall (history_event 10) evs
         ∧ (length (requests evs) ≤ 2)%nat
         ∧ (true = false → evs = []).
Proof.
  exact (scrape_url_trace Sample.env None (Some 8) 10 Sample.get true _ _
           (surjective_pairing (Sample.scrape 8))).
Defined.

(** ** The rows of the histories *)

Lemma price_row_reads (cols : list Cell) (row : value) :
  price_row cols = Ok row ↔ price_row_of cols row.
Proof.
  split.
  - destruct cols as [|date [|event [|price rest]]]; try discriminate.
    + intros [= <-]. constructor.
    + unfold price_row, getitem. simpl.
      destruct (find_span price) as [text|] eqn:E; intros [= <-]; by constructor.
  - intros [date event | date event price rest H | date event price rest text H];
      unfold price_row, getitem; simpl; [done | by rewrite H | by rewrite H].
Qed.

Lemma price_row_short (cols : list Cell) :
  short_price_row cols → price_row cols = Raise IndexError.
Proof.
  unfold short_price_row. destruct cols as [|date [|event rest]]; simpl; [done | done | lia].
Qed.

Lemma tax_row_bad (cols : list Cell) : bad_tax_row cols → tax_row cols = Raise IndexError.
Proof.
  intros [Hlen | (tax_cell & Hcell & Hempty)].
  - destruct cols as [|date [|tax_cell [|skipped [|assessment rest]]]];
      simpl in Hlen; try lia; try done.
    + unfold tax_row, getitem. simpl. by destruct (contents tax_cell).
    + unfold tax_row, getitem. simpl. by destruct (contents tax_cell).
  - destruct cols as [|date [|tax_cell' rest]]; try done.
    injection Hcell as ->. unfold tax_row, getitem. simpl. by rewrite Hempty.
Qed.

Lemma collect_reads (f : list Cell → result value) (R : list Cell → value → Prop)
    (rows : TableBody) (data : list value) :
  (∀ cols row, f cols = Ok row ↔ R cols row) →
  collect f rows = Ok data ↔ Forall2 R rows data.
Proof.
  intros Hf. revert data. induction rows as [|cols rows IH]; intros data; simpl.
  - split; [intros [= <-]; constructor | by inversion 1].
  - destruct (f cols) as [row|e] eqn:E.
    + destruct (collect f rows) as [data'|e'] eqn:E'; simpl.
      * split.
        -- intros [= <-]. constructor; [by apply Hf | by apply IH].
        -- inversion 1 as [|? row' ? data'' Hrow Hrows]; subst.
           apply Hf in Hrow. apply IH in Hrows. congruence.
      * split; [discriminate|].
        inversion 1 as [|? row' ? data'' Hrow Hrows]; subst.
        apply IH in Hrows. discriminate.
    + split; [discriminate|].
      inversion 1 as [|? row' ? data'' Hrow Hrows]; subst.
      apply Hf in Hrow. congruence.
Qed.

Lemma collect_raises (f : list Cell → result value) (bad : list Cell → Prop) (e : exn)
    (rows : TableBody) :
  (∀ cols, bad cols → f cols = Raise e) →
  (∀ cols e', f cols = Raise e' → e' = e) →
  Exists bad rows → collect f rows = Raise e.
Proof.
  intros Hbad Hraise. induction 1 as [cols rows H | cols rows _ IH]; simpl.
  - by rewrite (Hbad _ H).
  - destruct (f cols) as [row|e'] eqn:E; [by rewrite IH|].
    by rewrite (Hraise _ _ E).
Qed.

Lemma price_row_raises (cols : list Cell) (e : exn) :
  price_row cols = Raise e → e = IndexError.
Proof.
  destruct cols as [|date [|event rest]]; simpl; try by intros [= <-].
Qed.

Lemma tax_row_raises (cols : list Cell) (e : exn) :
  tax_row cols = Raise e → e = IndexError.
Proof.
  unfold tax_row. rstep.
  destruct (getitem cols 0) as [?|e0] eqn:E0; [|intros [= <-]; by eapply getitem_raises].
  destruct (getitem cols 1) as [c|e1] eqn:E1; [|intros [= <-]; by eapply getitem_raises].
  destruct (getitem (contents c) 0) as [?|e2] eqn:E2; [|intros [= <-]; by eapply getitem_raises].
  destruct (getitem cols 3) as [?|e3] eqn:E3; [|intros [= <-]; by eapply getitem_raises].
  discriminate.
Qed.

Section RowFacts.
Variable env : Env.
Variables (timeout : Z) (rc : RequestClass).

Lemma get_table_body_fetched (u html : string) (t t' : list event) :
  get_raw_html env u timeout rc t = (t', Ok html) →
  _get_table_body env u timeout rc t = (t', table_body_of env html).
Proof. intros H. unfold _get_table_body. mstep. by rewrite H. Qed.

Lemma get_price_history_fetched (u html : string) (t t' : list event) :
  get_raw_html env u timeout rc t = (t', Ok html) →
  _get_price_history env u timeout rc t
  = (t', table_body ← table_body_of env html; rows ← find_all_tr table_body;
         collect price_row rows).
Proof.
  intros H. unfold _get_price_history. mstep.
  rewrite (get_table_body_fetched _ _ _ _ H). by destruct (table_body_of env html).
Qed.

Lemma get_tax_history_fetched (u html : string) (t t' : list event) (table_body : option TableBody) :
  get_raw_html env u timeout rc t = (t', Ok html) →
  table_body_of env html = Ok table_body →
  _get_tax_history env u timeout rc t
  = (t', rows ← find_all_tr table_body; collect tax_row rows).
Proof.
  intros H Hb. unfold _get_tax_history. mstep.
  rewrite (get_table_body_fetched _ _ _ _ H), Hb. reflexivity.
Qed.

Lemma get_tax_history_raised (u html : string) (t t' : list event) (e : exn) :
  get_raw_html env u timeout rc t = (t', Ok html) →
  table_body_of env html = Raise e → e ≠ ValueError →
  _get_tax_history env u timeout rc t = (t', Raise e).
Proof.
  intros H Hb Hne. unfold _get_tax_history. mstep.
  rewrite (get_table_body_fetched _ _ _ _ H), Hb. cbv beta iota zeta.
  by destruct (decide (e = ValueError)).
Qed.

(** A step whose history function raises anything but a
    [NullResultException] raises it in turn. *)
Lemma price_history_step_raised (soup : Soup) (results : Dict) (u : string)
    (t t' : list event) (e : exn) :
  _get_ajax_url soup "z-hdp-price-history" = Ok u →
  _get_price_history env u timeout rc t = (t', Raise e) → e ≠ NullResultException →
  price_history_step env soup results timeout rc t = (t', Raise e).
Proof.
  intros Hu Hh Hne. unfold price_history_step. mstep. rewrite Hu. cbv beta iota zeta.
  rewrite Hh. cbv beta iota zeta. by destruct (decide (e = NullResultException)).
Qed.

Lemma tax_history_step_raised (soup : Soup) (results : Dict) (u : string)
    (t t' : list event) (e : exn) :
  _get_ajax_url soup "z-expando-table" = Ok u →
  _get_tax_history env u timeout rc t = (t', Raise e) → e ≠ NullResultException →
  tax_history_step env soup results timeout rc t = (t', Raise e).
Proof.
  intros Hu Hh Hne. unfold tax_history_step. mstep. rewrite Hu. cbv beta iota zeta.
  rewrite Hh. cbv beta iota zeta. by destruct (decide (e = NullResultException)).
Qed.

Lemma populate_price_raised (soup : Soup) (results : Dict) (t t' : list event) (e : exn) :
  price_history_step env soup results timeout rc t = (t', Raise e) →
  populate_price_and_tax_histories env soup results timeout rc t = (t', Raise e).
Proof. intros H. unfold populate_price_and_tax_histories. mstep. by rewrite H. Qed.

Lemma populate_tax_raised (soup : Soup) (results results1 : Dict) (t t1 t' : list event)
    (e : exn) :
  price_history_step env soup results timeout rc t = (t1, Ok results1) →
  tax_history_step env soup results1 timeout rc t1 = (t', Raise e) →
  populate_price_and_tax_histories env soup results timeout rc t = (t', Raise e).
Proof. intros H1 H2. unfold populate_price_and_tax_histories. mstep. by rewrite H1. Qed.

End RowFacts.

(** X6.  The rows of the price history.  For a fetched response whose
    fragment has a table body, [_get_price_history] returns exactly when
    every row has at least two cells; it then returns one row per table
    row, in order: the texts of the first two cells and the text of the
    first [span] of the third cell, or [None] when the row has no third
    cell or the cell no [span].  Cells after the third are not read.  A
    single row with fewer than two cells makes it raise an [IndexError]
    instead. *)
Theorem price_history_rows (env : Env) (u html : string) (timeout : Z) (rc : RequestClass)
    (t t' : list event) (rows : TableBody) :
  get_raw_html env u timeout rc t = (t', Ok html) →
  table_body_of env html = Ok (Some rows) →
  (∀ data, _get_price_history env u timeout rc t = (t', Ok data)
           ↔ Forall2 price_row_of rows data)
  ∧ (Forall (fun cols => (2 ≤ length cols)%nat) rows →
     ∃ data, _get_price_history env u timeout rc t = (t', Ok data)
             ∧ length data = length rows)
  ∧ (Exists short_price_row rows →
     _get_price_history env u timeout rc t = (t', Raise IndexError)).
Proof.
  intros Hget Hbody.
  rewrite (get_price_history_fetched env timeout rc _ _ _ _ Hget), Hbody.
  unfold find_all_tr. rstep. split; [|split].
  - intros data. rewrite <- (collect_reads price_row price_row_of); [|apply price_row_reads].
    split; [by intros [= ->] | by intros ->].
  - intros Hall.
    assert (Hdata : ∃ data, Forall2 price_row_of rows data).
    { clear -Hall. induction Hall as [|cols rows Hlen _ [data IH]]; [by exists []|].
      destruct cols as [|date [|event [|price rest]]]; simpl in Hlen; try lia.
      - eexists (_ :: data). constructor; [constructor | done].
      - destruct (find_span price) as [text|] eqn:E.
        + eexists (_ :: data). constructor; [by apply price_row_of_span | done].
        + eexists (_ :: data). constructor; [by apply price_row_of_no_span | done]. }
    destruct Hdata as [data Hdata]. exists data. split.
    + by apply (collect_reads price_row price_row_of) in Hdata as ->; [|apply price_row_reads].
    + symmetry. by eapply Forall2_length.
  - intros Hshort.
    by rewrite (collect_raises price_row short_price_row IndexError rows
                  price_row_short price_row_raises Hshort).
Qed.

Lemma price_history_rows_witness :
  run (_get_price_history Sample.env (Sample.site +:+ Sample.price_path) 10 Sample.get)
  = ([Get (Sample.site +:+ Sample.price_path) 10], Ok Sample.price_rows).
Proof.
  assert (Hget : get_raw_html Sample.env (Sample.site +:+ Sample.price_path) 10 Sample.get []
                 = ([Get (Sample.site +:+ Sample.price_path) 10],
                    Ok (Sample.envelope_of "<table>prices<\/table>")))
    by (vm_compute; reflexivity).
  assert (Hbody : table_body_of Sample.env (Sample.envelope_of "<table>prices<\/table>")
                  = Ok (Some Sample.price_table)) by (vm_compute; reflexivity).
  apply (proj1 (price_history_rows Sample.env _ _ 10 Sample.get [] _ _ Hget Hbody)).
  unfold Sample.price_table, Sample.price_rows.
  constructor; [by apply price_row_of_span|].
  constructor; [by apply price_row_of_no_span|]. constructor.
Defined.

(** ** Failures of the history step *)

(** X7.  A table row that cannot be read is not skipped: it ends the
    history step, and with it the scrape, with an [IndexError].  For the
    price history that is a row with fewer than two cells, for the tax
    history a row with fewer than four cells or with an empty tax cell.
    The request for the table has been made; after a bad price row the
    tax history is not requested any more. *)
Theorem history_bad_row (env : Env) (soup : Soup) (timeout : Z) (rc : RequestClass)
    (u html : string) (t t' : list event) (rows : TableBody) :
  get_raw_html env u timeout rc t = (t', Ok html) →
  table_body_of env html = Ok (Some rows) →
  (_get_ajax_url soup "z-hdp-price-history" = Ok u →
   Exists short_price_row rows →
   ∀ results,
     populate_price_and_tax_histories env soup results timeout rc t
     = (t', Raise IndexError))
  ∧ (_get_ajax_url soup "z-expando-table" = Ok u →
     Exists bad_tax_row rows →
     _get_tax_history env u timeout rc t = (t', Raise IndexError)
     ∧ ∀ results0 results t0,
         price_history_step env soup results0 timeout rc t0 = (t, Ok results) →
         populate_price_and_tax_histories env soup results0 timeout rc t0
         = (t', Raise IndexError)).
Proof.
  intros Hget Hbody. split.
  - intros Hu Hshort results.
    apply populate_price_raised. eapply price_history_step_raised; [exact Hu| |done].
    rewrite (get_price_history_fetched env timeout rc _ _ _ _ Hget), Hbody.
    unfold find_all_tr. rstep.
    by rewrite (collect_raises price_row short_price_row IndexError rows
                  price_row_short price_row_raises Hshort).
  - intros Hu Hbad.
    assert (Htax : _get_tax_history env u timeout rc t = (t', Raise IndexError)).
    { rewrite (get_tax_history_fetched env timeout rc _ _ _ _ _ Hget Hbody).
      unfold find_all_tr. rstep.
      by rewrite (collect_raises tax_row bad_tax_row IndexError rows
                    tax_row_bad tax_row_raises Hbad). }
    split; [exact Htax|]. intros results0 results t0 Hprice.
    eapply populate_tax_raised; [exact Hprice|].
    by eapply tax_history_step_raised.
Qed.

Lemma history_bad_row_witness :
  Exists short_price_row Broken.short_table
  ∧ run (populate_price_and_tax_histories (Broken.env (Some (Some Broken.short_table)))
           Sample.listing ∅ 10 (Broken.get (Sample.envelope_of "<table>")))
    = ([Get (Sample.site +:+ Sample.price_path) 10], Raise IndexError).
Proof.
  assert (Hshort : Exists short_price_row Broken.short_table).
  { apply Exists_cons_tl, Exists_cons_hd. unfold short_price_row. simpl. lia. }
  split; [exact Hshort|].
  assert (Hget : get_raw_html (Broken.env (Some (Some Broken.short_table)))
                   (Sample.site +:+ Sample.price_path) 10
                   (Broken.get (Sample.envelope_of "<table>")) []
                 = ([Get (Sample.site +:+ Sample.price_path) 10],
                    Ok (Sample.envelope_of "<table>"))) by (vm_compute; reflexivity).
  assert (Hbody : table_body_of (Broken.env (Some (Some Broken.short_table)))
                    (Sample.envelope_of "<table>") = Ok (Some Broken.short_table))
    by (vm_compute; reflexivity).
  assert (Hu : _get_ajax_url Sample.listing "z-hdp-price-history"
               = Ok (Sample.site +:+ Sample.price_path)) by (vm_compute; reflexivity).
  exact (proj1 (history_bad_row _ Sample.listing _ _ _ _ _ _ _ Hget Hbody) Hu Hshort ∅).
Defined.

(** X8.  A history response that is not of the expected form ends the
    scrape with an [AttributeError]: when the body does not hold the
    envelope, the lookup of the match's group fails; when the fragment
    has a table without a body, the lookup of its rows fails.  Neither
    history function and neither [try] of the orchestrator catches it,
    for the price history and for the tax history alike. *)
Theorem history_malformed_response (env : Env) (soup : Soup) (timeout : Z)
    (rc : RequestClass) (u html : string) (t t' : list event) :
  get_raw_html env u timeout rc t = (t', Ok html) →
  Re.search envelope (str_of_bytes env html) = None ∨ table_body_of env html = Ok None →
  (_get_ajax_url soup "z-hdp-price-history" = Ok u →
   ∀ results,
     populate_price_and_tax_histories env soup results timeout rc t
     = (t', Raise AttributeError))
  ∧ (_get_ajax_url soup "z-expando-table" = Ok u →
     ∀ results0 results t0,
       price_history_step env soup results0 timeout rc t0 = (t, Ok results) →
       populate_price_and_tax_histories env soup results0 timeout rc t0
       = (t', Raise AttributeError)).
Proof.
  intros Hget Hform.
  assert (Hprice : _get_price_history env u timeout rc t = (t', Raise AttributeError)).
  { rewrite (get_price_history_fetched env timeout rc _ _ _ _ Hget).
    destruct Hform as [Hnone|Hbody].
    - unfold table_body_of. by rewrite Hnone.
    - by rewrite Hbody. }
  assert (Htax : _get_tax_history env u timeout rc t = (t', Raise AttributeError)).
  { destruct Hform as [Hnone|Hbody].
    - eapply get_tax_history_raised; [exact Hget| |done].
      unfold table_body_of. by rewrite Hnone.
    - by rewrite (get_tax_history_fetched env timeout rc _ _ _ _ _ Hget Hbody). }
  split.
  - intros Hu results. apply populate_price_raised.
    by eapply price_history_step_raised.
  - intros Hu results0 results t0 Hstep. eapply populate_tax_raised; [exact Hstep|].
    by eapply tax_history_step_raised.
Qed.

Lemma history_malformed_response_witness :
  Re.search envelope "<html>Please verify you are a human</html>" = None
  ∧ run (populate_price_and_tax_histories Sample.env Sample.listing ∅ 10
           (Broken.get "<html>Please verify you are a human</html>"))
    = ([Get (Sample.site +:+ Sample.price_path) 10], Raise AttributeError).
Proof.
  assert (Hnone : Re.search envelope "<html>Please verify you are a human</html>" = None)
    by (vm_compute; reflexivity).
  split; [exact Hnone|].
  assert (Hget : get_raw_html Sample.env (Sample.site +:+ Sample.price_path) 10
                   (Broken.get "<html>Please verify you are a human</html>") []
                 = ([Get (Sample.site +:+ Sample.price_path) 10],
                    Ok "<html>Please verify you are a human</html>"))
    by (vm_compute; reflexivity).
  assert (Hu : _get_ajax_url Sample.listing "z-hdp-price-history"
               = Ok (Sample.site +:+ Sample.price_path)) by (vm_compute; reflexivity).
  exact (proj1 (history_malformed_response Sample.env Sample.listing _ _ _ _ _ _
                  Hget (or_introl Hnone)) Hu ∅).
Defined.

(** X9.  A response with a status other than 200, or one that comes from
    the address of the homes index, is an error wherever the fetch
    happens: [get_raw_html] raises after the one request it makes.  For
    the page that ends the scrape before anything is parsed; for a
    history it ends the scrape as well, since no handler of the history
    step catches a plain [Exception]. *)
Theorem fetch_failure (env : Env) (timeout : Z) (rc : RequestClass) (u : string)
    (response : Response) :
  rc u timeout = Ok response →
  status_code response ≠ 200 ∨ url response = ZILLOW_HOMES_URL env →
  (∀ t, get_raw_html env u timeout rc t = (t ++ [Get u timeout], Raise PyException))
  ∧ (∀ address zpid flag t,
       validate_scraper_input env address zpid = Ok u →
       scrape_url env address zpid timeout rc flag t
       = (t ++ [Get u timeout], Raise PyException))
  ∧ (∀ soup results t,
       _get_ajax_url soup "z-hdp-price-history" = Ok u →
       populate_price_and_tax_histories env soup results timeout rc t
       = (t ++ [Get u timeout], Raise PyException))
  ∧ (∀ soup results0 results t0 t,
       price_history_step env soup results0 timeout rc t0 = (t, Ok results) →
       _get_ajax_url soup "z-expando-table" = Ok u →
       populate_price_and_tax_histories env soup results0 timeout rc t0
       = (t ++ [Get u timeout], Raise PyException)).
Proof.
  intros Hrc Hbad.
  assert (Hget : ∀ t, get_raw_html env u timeout rc t
                      = (t ++ [Get u timeout], Raise PyException)).
  { intros t. unfold get_raw_html. mstep. rewrite Hrc. cbv beta iota zeta.
    destruct Hbad as [Hstatus|Hurl].
    - unfold OK. by destruct (Z.eqb_spec (status_code response) 200).
    - destruct (negb (status_code response =? OK)); [done|].
      rewrite Hurl. by rewrite String.eqb_refl. }
  split; [exact Hget|]. split; [|split].
  - intros address zpid flag t Hv.
    by rewrite (scrape_url_unfold env timeout rc _ _ _ u t Hv), Hget.
  - intros soup results t Hu. apply populate_price_raised.
    eapply price_history_step_raised; [exact Hu| |done].
    unfold _get_price_history, _get_table_body. mstep. by rewrite Hget.
  - intros soup results0 results t0 t Hstep Hu.
    eapply populate_tax_raised; [exact Hstep|].
    eapply tax_history_step_raised; [exact Hu| |done].
    unfold _get_tax_history, _get_table_body. mstep. by rewrite Hget.
Qed.

Lemma fetch_failure_witness :
  Sample.get "http://www.zillow.com/homes/9_zpid/(index)/" 10
  = Ok {| status_code := 404; url := "http://www.zillow.com/homes/9_zpid/(index)/";
          content := "" |}
  ∧ Sample.scrape 9
    = ([Get "http://www.zillow.com/homes/9_zpid/(index)/" 10], Raise PyException).
Proof.
  assert (Hrc : Sample.get "http://www.zillow.com/homes/9_zpid/(index)/" 10
                = Ok {| status_code := 404;
                        url := "http://www.zillow.com/homes/9_zpid/(index)/";
                        content := "" |}) by (vm_compute; reflexivity).
  split; [exact Hrc|].
  assert (Hv : validate_scraper_input Sample.env None (Some 9)
               = Ok "http://www.zillow.com/homes/9_zpid/(index)/")
    by (vm_compute; reflexivity).
  assert (Hstatus : status_code {| status_code := 404;
                                   url := "http://www.zillow.com/homes/9_zpid/(index)/";
                                   content := "" |} ≠ 200) by discriminate.
  exact (proj1 (proj2 (fetch_failure Sample.env 10 Sample.get _ _ Hrc (or_introl Hstatus)))
           None (Some 9) true [] Hv).
Defined.

(** ** The photos *)

Lemma photos_filter (images : list Attrs) :
  omap (fun p : option string => match p with
                 | Some s => if String.eqb s "" then None else Some s
                 | None => None
                 end) (photo_of <$> images)
  = filter (fun s => s ≠ "") (shown <$> images).
Proof.
  induction images as [|j images IH]; [done|].
  rewrite !fmap_cons, filter_cons, <- IH. csimpl.
  unfold photo_of, shown.
  destruct (j !! "href") as [href|]; [|destruct (j !! "src") as [src|]].
  - destruct (String.eqb_spec href ""); by case_decide.
  - destruct (String.eqb_spec src ""); by case_decide.
  - by case_decide.
Qed.

(** X10.  The photos are the addresses the images of the photo list stand
    for, in the order of the images, without the empty ones.  An image
    with an empty [href] contributes nothing, whatever its [src]. *)
Theorem get_photos_shown (soup : Soup) :
  _get_photos soup = filter (fun s => s ≠ "") (shown <$> photo_imgs soup)
  ∧ (∀ p, p ∈ _get_photos soup
          ↔ p ≠ "" ∧ ∃ i, i ∈ photo_imgs soup
                          ∧ (i !! "href" = Some p ∨ (i !! "href" = None ∧ i !! "src" = Some p)))
  ∧ ((∀ i, i ∈ photo_imgs soup → i !! "href" = Some "") → _get_photos soup = []).
Proof.
  assert (Heq : _get_photos soup = filter (fun s => s ≠ "") (shown <$> photo_imgs soup)).
  { unfold _get_photos. destruct (photo_imgs soup) as [|i images] eqn:E; [done|].
    cbn [nonempty negb]. by apply photos_filter. }
  split; [exact Heq|]. split.
  - intros p. rewrite Heq, list_elem_of_filter, list_elem_of_fmap. split.
    + intros [Hne (i & -> & Hi)]. split; [done|]. exists i. split; [done|].
      unfold shown in *. destruct (i !! "href") as [href|]; [by left|].
      destruct (i !! "src") as [src|]; [by right | done].
    + intros [Hne (i & Hi & H)]. split; [done|]. exists i. split; [|done].
      unfold shown. by destruct H as [->|[-> ->]].
  - rewrite Heq. clear Heq. generalize (photo_imgs soup). intros images.
    induction images as [|i images IH]; intros Hall; [done|].
    assert (Hi : shown i = "").
    { unfold shown. rewrite (Hall i); [done | by left]. }
    rewrite fmap_cons, filter_cons, Hi. rewrite decide_False; [|intros H; by apply H].
    apply IH. intros j Hj. apply Hall. by right.
Qed.

(** ** The location data *)

Lemma attr_raises (location_data_elem : option Attrs) (key : string) (e : exn) :
  attr location_data_elem key = Raise e →
  (e = AttributeError ∧ location_data_elem = None)
  ∨ (e = KeyError ∧ ∃ attrs, location_data_elem = Some attrs ∧ attrs !! key = None).
Proof.
  unfold attr. destruct location_data_elem as [attrs|]; [|intros [= <-]; by left].
  destruct (attrs !! key) eqn:E; [discriminate|]. intros [= <-]. right. eauto.
Qed.

Lemma attr_returns (location_data_elem : option Attrs) (key s : string) :
  attr location_data_elem key = Ok s →
  ∃ attrs, location_data_elem = Some attrs ∧ attrs !! key = Some s.
Proof.
  unfold attr. destruct location_data_elem as [attrs|]; [|discriminate].
  destruct (attrs !! key) eqn:E; [|discriminate]. intros [= <-]. eauto.
Qed.

Lemma coordinates_decimal (parsed_comments : list string) (lat lon : value) :
  coordinates parsed_comments = Ok (lat, lon) → ∃ d1 d2, lat = VDecimal d1 ∧ lon = VDecimal d2.
Proof.
  unfold coordinates. rstep.
  repeat match goal with
         | |- match ?x with _ => _ end = _ → _ => destruct x; [|discriminate]
         end.
  intros [= <- <-]. eauto.
Qed.

Lemma address_text (env : Env) (location_data_elem : option Attrs) (v : value) :
  address env location_data_elem = Ok v → ∃ s, v = VStr s.
Proof.
  unfold address. rstep.
  repeat match goal with
         | |- match ?x with _ => _ end = _ → _ => destruct x; [|discriminate]
         end.
  destruct (Ascii.eqb _ _); intros [= <-]; eauto.
Qed.

(** The coordinates after the first [try]: both decimals or both
    [None]. *)
Lemma marker_coordinates (c : string) (lat lon : value) :
  try_except (coordinates (Str.split "," (Str.strip_char "]" (Str.strip_char "[" c))))
    (Ok (VNone, VNone)) = Ok (lat, lon) →
  (lat = VNone ∧ lon = VNone) ∨ ∃ d1 d2, lat = VDecimal d1 ∧ lon = VDecimal d2.
Proof.
  destruct (coordinates _) as [[lat' lon']|e] eqn:E; simpl.
  - intros [= <- <-]. right. by eapply coordinates_decimal.
  - intros [= <- <-]. by left.
Qed.

(** X11.  What [_get_location_data] returns and how it fails.  A result is
    a dictionary with the keys [latitude], [longitude] and [address], in
    that order; a coordinate is a decimal other than zero from the marker
    comment, or else the text of its attribute of the coordinates
    element; the address is a text or [None].  No failure of the
    address part, and no failure of a conversion, is raised.  What is
    raised is an [AttributeError]: the marker region has no comment, or a
    coordinate is needed from a coordinates element that is not there; or
    a [KeyError]: the coordinates element has no such attribute. *)
Theorem location_data_outcomes (env : Env) (soup : Soup) :
  (∀ v, _get_location_data env soup = Ok v →
        ∃ lat lon addr,
          v = VDict [("latitude", lat); ("longitude", lon); ("address", addr)]
          ∧ coordinate_from soup "data-latitude" lat
          ∧ coordinate_from soup "data-longitude" lon
          ∧ (addr = VNone ∨ ∃ s, addr = VStr s))
  ∧ (∀ e, _get_location_data env soup = Raise e →
          (e = AttributeError
           ∧ (home_marker_data soup = Some None ∨ map_coordinates soup = None))
          ∨ (e = KeyError
             ∧ ∃ attrs, map_coordinates soup = Some attrs
                        ∧ (attrs !! "data-latitude" = None ∨ attrs !! "data-longitude" = None)))
  ∧ (home_marker_data soup = None → map_coordinates soup = None →
     _get_location_data env soup = Raise AttributeError)
  ∧ (home_marker_data soup = None →
     ∀ attrs la lo,
       map_coordinates soup = Some attrs →
       attrs !! "data-latitude" = Some la → attrs !! "data-longitude" = Some lo →
       ∃ addr, _get_location_data env soup
               = Ok (VDict [("latitude", VStr la); ("longitude", VStr lo); ("address", addr)])).
Proof.
  assert (Hcoords : ∀ lat lon,
    match home_marker_data soup with
    | Some comments =>
        comment_string ← match comments with
                         | Some c => Ok c
                         | None => Raise AttributeError
                         end;
        try_except (coordinates (Str.split "," (Str.strip_char "]"
                                   (Str.strip_char "[" comment_string))))
          (Ok (VNone, VNone))
    | None => Ok (VNone, VNone)
    end = Ok (lat, lon) →
    (lat = VNone ∧ lon = VNone)
    ∨ (is_Some (home_marker_data soup) ∧ ∃ d1 d2, lat = VDecimal d1 ∧ lon = VDecimal d2)).
  { intros lat lon. destruct (home_marker_data soup) as [[c|]|]; rstep.
    - intros H. apply marker_coordinates in H as [H|H]; [by left | right].
      split; [by eexists | done].
    - discriminate.
    - intros [= <- <-]. by left. }
  split; [|split; [|split]].
  - intros v. unfold _get_location_data. rstep.
    match goal with
    | |- match ?x with _ => _ end = _ → _ => destruct x as [[lat lon]|e] eqn:E; [|discriminate]
    end.
    apply Hcoords in E.
    destruct (negb (truthy lat)) eqn:Tlat.
    + destruct (attr (map_coordinates soup) "data-latitude") as [la|] eqn:Ela; [|discriminate].
      apply attr_returns in Ela as (attrs & Hattrs & Hla).
      destruct (negb (truthy lon)) eqn:Tlon.
      * destruct (attr (map_coordinates soup) "data-longitude") as [lo|] eqn:Elo;
          [|discriminate].
        apply attr_returns in Elo as (attrs' & Hattrs' & Hlo).
        destruct (address env (map_coordinates soup)) as [addr|] eqn:Ea; intros [= <-].
        -- eexists _, _, _. split; [done|]. split; [right; eauto|]. split; [right; eauto|].
           right. by eapply address_text.
        -- eexists _, _, _. split; [done|]. split; [right; eauto|]. split; [right; eauto|].
           by left.
      * destruct E as [[-> ->]|[Hm (d1 & d2 & -> & ->)]]; [discriminate|].
        apply negb_false_iff in Tlon.
        destruct (address env (map_coordinates soup)) as [addr|] eqn:Ea; intros [= <-].
        -- eexists _, _, _. split; [done|]. split; [right; eauto|].
           split; [left; eauto|]. right. by eapply address_text.
        -- eexists _, _, _. split; [done|]. split; [right; eauto|].
           split; [left; eauto|]. by left.
    + destruct E as [[-> ->]|[Hm (d1 & d2 & -> & ->)]]; [discriminate|].
      apply negb_false_iff in Tlat.
      destruct (negb (truthy (VDecimal d2))) eqn:Tlon.
      * destruct (attr (map_coordinates soup) "data-longitude") as [lo|] eqn:Elo;
          [|discriminate].
        apply attr_returns in Elo as (attrs' & Hattrs' & Hlo).
        destruct (address env (map_coordinates soup)) as [addr|] eqn:Ea; intros [= <-].
        -- eexists _, _, _. split; [done|]. split; [left; eauto|].
           split; [right; eauto|]. right. by eapply address_text.
        -- eexists _, _, _. split; [done|]. split; [left; eauto|].
           split; [right; eauto|]. by left.
      * apply negb_false_iff in Tlon.
        destruct (address env (map_coordinates soup)) as [addr|] eqn:Ea; intros [= <-].
        -- eexists _, _, _. split; [done|]. split; [left; eauto|].
           split; [left; eauto|]. right. by eapply address_text.
        -- eexists _, _, _. split; [done|]. split; [left; eauto|].
           split; [left; eauto|]. by left.
  - intros e. unfold _get_location_data. rstep.
    destruct (home_marker_data soup) as [[c|]|] eqn:Em; rstep;
      [| intros [= <-]; left; split; [done | by left] |].
    + destruct (coordinates _) as [[lat lon]|e'].
      * destruct (negb (truthy lat)).
        -- destruct (attr (map_coordinates soup) "data-latitude") as [la|e1] eqn:Ela.
           ++ destruct (negb (truthy lon)).
              ** destruct (attr (map_coordinates soup) "data-longitude") as [lo|e2] eqn:Elo.
                 --- by destruct (address env (map_coordinates soup)).
                 --- intros [= <-]. apply attr_raises in Elo as [[-> ->]|[-> (a & -> & Ha)]];
                       [left | right]; eauto.
              ** by destruct (address env (map_coordinates soup)).
           ++ intros [= <-]. apply attr_raises in Ela as [[-> ->]|[-> (a & -> & Ha)]];
                [left | right]; eauto.
        -- destruct (negb (truthy lon)).
           ++ destruct (attr (map_coordinates soup) "data-longitude") as [lo|e2] eqn:Elo.
              ** by destruct (address env (map_coordinates soup)).
              ** intros [= <-]. apply attr_raises in Elo as [[-> ->]|[-> (a & -> & Ha)]];
                   [left | right]; eauto.
           ++ by destruct (address env (map_coordinates soup)).
      * cbn [truthy negb].
        destruct (attr (map_coordinates soup) "data-latitude") as [la|e1] eqn:Ela.
        -- destruct (attr (map_coordinates soup) "data-longitude") as [lo|e2] eqn:Elo.
           ++ by destruct (address env (map_coordinates soup)).
           ++ intros [= <-]. apply attr_raises in Elo as [[-> ->]|[-> (a & -> & Ha)]];
                [left | right]; eauto.
        -- intros [= <-]. apply attr_raises in Ela as [[-> ->]|[-> (a & -> & Ha)]];
             [left | right]; eauto.
    + cbn [truthy negb].
      destruct (attr (map_coordinates soup) "data-latitude") as [la|e1] eqn:Ela.
      * destruct (attr (map_coordinates soup) "data-longitude") as [lo|e2] eqn:Elo.
        -- by destruct (address env (map_coordinates soup)).
        -- intros [= <-]. apply attr_raises in Elo as [[-> ->]|[-> (a & -> & Ha)]];
             [left | right]; eauto.
      * intros [= <-]. apply attr_raises in Ela as [[-> ->]|[-> (a & -> & Ha)]];
          [left | right]; eauto.
  - intros Hm Hc. unfold _get_location_data. rewrite Hm, Hc. reflexivity.
  - intros Hm attrs la lo Hc Hla Hlo. unfold _get_location_data. rewrite Hm, Hc.
    rstep. cbn [truthy negb]. unfold attr. rewrite Hla, Hlo.
    destruct (address env (Some attrs)) as [addr|]; by eexists.
Qed.

(** ** Failures of the fact rules *)

(** A loop that raises: it raised at one item, after the items before it
    went through. *)
Lemma for_each_raised {A St} (f : St → A → result St) (l : list A) (s : St) (e : exn) :
  for_each f l s = Raise e →
  ∃ before x after s', l = before ++ x :: after
                       ∧ for_each f before s = Ok s' ∧ f s' x = Raise e.
Proof.
  revert s. induction l as [|x l IH]; intros s H; simpl in H; [discriminate|].
  destruct (f s x) as [s1|e1] eqn:E.
  - destruct (IH _ H) as (before & y & after & s' & -> & Hb & Hy).
    exists (x :: before), y, after, s'. split; [done|]. split; [|done].
    simpl. by rewrite E.
  - injection H as <-. by exists [], x, l, s.
Qed.

Lemma text_after_cons (c a : ascii) (s : string) :
  text_after c (String a s) = if Ascii.eqb a c then Some s else text_after c s.
Proof. reflexivity. Qed.

(** The removal of the hashes keeps the colons. *)
Lemma remove_hashes_colon (n : nat) (s : string) :
  (String.length s ≤ n)%nat →
  is_Some (text_after ":" s) → is_Some (text_after ":" (remove_hashes s)).
Proof.
  revert s. induction n as [|n IH]; intros s Hlen.
  - destruct s; [by intros [? ?] | simpl in Hlen; lia].
  - destruct s as [|a [|b s]]; [done | done |].
    simpl in Hlen.
    change (remove_hashes (String a (String b s)))
      with (if hash_pair a b then remove_hashes s
            else String a (remove_hashes (String b s))).
    destruct (hash_pair a b) eqn:Hp.
    + assert (Ha : Ascii.eqb a ":" = false).
      { destruct (Ascii.eqb_spec a ":") as [Ea|]; [|done]. subst a. discriminate. }
      assert (Hb : Ascii.eqb b ":" = false).
      { destruct (Ascii.eqb_spec b ":") as [Eb|]; [|done]. subst b.
        unfold hash_pair in Hp. by destruct (Ascii.eqb a " "), (Ascii.eqb a "#"). }
      cbn [text_after]. rewrite Ha, Hb. intros H. apply IH; [lia | exact H].
    + rewrite (text_after_cons ":" a (String b s)),
        (text_after_cons ":" a (remove_hashes (String b s))).
      destruct (Ascii.eqb a ":"); [by eexists|].
      apply IH. simpl. lia.
Qed.

Section FactFailures.
Variable env : Env.

(** How a rule fails. *)
Lemma act_raises (r : rule) (parsed_facts : Dict) (text : string) (e : exn) :
  fires env r text →
  act env r parsed_facts text = Raise e →
  match r with
  | HomeType | Generic => False
  | Year => e = IndexError ∧ build_year text = None
  | DaysOnZillow => e = IndexError ∧ day_count text = None
  | Extras => e = AttributeError
              ∧ ∃ v, parsed_facts !! "extras" = Some v ∧ ∀ l, v ≠ VList l
  | Posted => e = ValueError ∨ e = OverflowError
  end.
Proof.
  intros [Happ Hbefore].
  assert (Hcolon : r = Posted ∨ r = Generic →
                   is_Some (text_after ":" (remove_hashes text))).
  { intros Hr. apply (remove_hashes_colon (String.length text)); [done|].
    assert (Hx : applies env Extras text = false)
      by (apply Hbefore; destruct Hr as [-> | ->]; simpl; lia).
    simpl in Hx. apply negb_false_iff in Hx.
    change ":"%string with (String ":" "") in Hx. rewrite contains_char in Hx.
    by apply bool_decide_eq_true in Hx. }
  destruct r; unfold act.
  - discriminate.
  - destruct (build_year text); [discriminate|]. by intros [= <-].
  - destruct (day_count text); [discriminate|]. by intros [= <-].
  - destruct (parsed_facts !! "extras") as [v|]; [|discriminate].
    destruct v; try discriminate; intros [= <-]; (split; [done|]); eexists; split; done.
  - destruct Hcolon as [rest ->]; [by left|]. rstep.
    unfold int_of_string, minus_days.
    destruct (Decimal.fullmatch _ _); [|intros [= <-]; by left].
    repeat match goal with
           | |- context [if ?b then _ else _] => destruct b
           end; try discriminate; intros [= <-]; by right.
  - destruct Hcolon as [rest ->]; [by right|]. discriminate.
Qed.

End FactFailures.

(** X12.  How [_parse_facts] fails.  When it raises, it raises at one
    fact, after the facts before it went through, and the rule that
    fires for that fact tells the error: the year rule and the
    days-on-Zillow rule raise an [IndexError], when the text holds no
    year and no day count; the no-colon rule raises an [AttributeError],
    when [extras] holds something that is no list; the posted rule raises
    a [ValueError] or an [OverflowError].  The home-type rule and the
    generic rule never raise: a text with a colon keeps it when its
    hashes are removed. *)
Theorem parse_facts_failures (env : Env) (facts : list string) (e : exn) :
  _parse_facts env facts = Raise e →
  ∃ before text after parsed_facts,
    facts = before ++ text :: after
    ∧ _parse_facts env before = Ok parsed_facts
    ∧ match classify env text with
      | HomeType | Generic => False
      | Year => e = IndexError ∧ build_year text = None
      | DaysOnZillow => e = IndexError ∧ day_count text = None
      | Extras => e = AttributeError
                  ∧ ∃ v, parsed_facts !! "extras" = Some v ∧ ∀ l, v ≠ VList l
      | Posted => e = ValueError ∨ e = OverflowError
      end.
Proof.
  intros H. unfold _parse_facts in H.
  apply for_each_raised in H as (before & text & after & parsed_facts & -> & Hb & Hx).
  exists before, text, after, parsed_facts. split; [done|]. split; [done|].
  rewrite parse_fact_acts in Hx.
  eapply act_raises; [apply fires_classify | exact Hx].
Qed.

Lemma parse_facts_failures_witness :
  _parse_facts Sample.env ["Single Family"; "Built in the fifties"; "Has garage"]
  = Raise IndexError
  ∧ ∃ before text after parsed_facts,
      ["Single Family"; "Built in the fifties"; "Has garage"] = before ++ text :: after
      ∧ _parse_facts Sample.env before = Ok parsed_facts
      ∧ match classify Sample.env text with
        | HomeType | Generic => False
        | Year => IndexError = IndexError ∧ build_year text = None
        | DaysOnZillow => IndexError = IndexError ∧ day_count text = None
        | Extras => IndexError = AttributeError
                    ∧ ∃ v, parsed_facts !! "extras" = Some v ∧ ∀ l, v ≠ VList l
        | Posted => IndexError = ValueError ∨ IndexError = OverflowError
        end.
Proof.
  assert (H : _parse_facts Sample.env ["Single Family"; "Built in the fifties"; "Has garage"]
              = Raise IndexError) by (vm_compute; reflexivity).
  split; [exact H|]. exact (parse_facts_failures Sample.env _ _ H).
Defined.
